(** * A BitTorrent client: piece engine, metainfo, tracker and peer handshake

    Shallow embedding of the Python sources [utils.py], [torrent.py],
    [file_manager.py], [piece_manager.py], [progress_manager.py],
    [tracker.py], [peer.py] and [client.py], followed by the properties
    established about them.

    Conventions.  Python [bytes] are [list byte], and so is a [str],
    through its UTF-8 encoding; Python integers are [Z]; a [dict] used as
    a map is a [gmap], a [set] a [gset], a decoded bencode dictionary an
    association list in insertion order; a list of block slots is a
    [list (option bytes)] where [None] is Python's [None].  A Python
    function that may raise returns a [result]; a [try/except] is a match
    on that result. *)

From Stdlib Require Import ZArith List Strings.String Strings.Ascii Strings.Byte
  QArith.QArith_base QArith.Qreduction DecimalString Lia.
From stdpp Require Import base option list gmap sets strings.

Open Scope Z_scope.

Abbreviation bytes := (list byte).

(** Bytes literal, as in Python's [b'...']. *)
Definition b (s : string) : bytes := list_byte_of_string s.

Definition byte_to_Z (x : byte) : Z := Z.of_N (Byte.to_N x).

Definition byte_of_Z (z : Z) : byte :=
  match Byte.of_N (Z.to_N (z mod 256)) with
  | Some x => x
  | None => "000"%byte
  end.

Fixpoint bytes_eqb (x y : bytes) : bool :=
  match x, y with
  | [], [] => true
  | c :: x', d :: y' => Byte.eqb c d && bytes_eqb x' y'
  | _, _ => false
  end.

(** Python slicing [x[lo:hi]] for [0 <= lo], [0 <= hi]: clipped to the
    sequence, never raising. *)
Definition slice {A} (x : list A) (lo hi : nat) : list A :=
  firstn (hi - lo) (skipn lo x).

(** Exceptions.  Only the class matters to the handlers of the sources. *)
Inductive exn : Type :=
| AttributeError (msg : string)
| TypeError (msg : string)
| ValueError (msg : string)
| IndexError (msg : string)
| KeyError (msg : string)
| IOError (msg : string)
| StructError (msg : string)
| ZeroDivisionError
| SocketTimeout
| Exception (msg : string).

Inductive result (A : Type) : Type :=
| Ok (a : A)
| Raise (e : exn).
Arguments Ok {A} a.
Arguments Raise {A} e.

#[export] Instance result_ret : MRet result := fun A a => Ok a.
#[export] Instance result_bind : MBind result := fun A B k r =>
  match r with
  | Ok a => k a
  | Raise e => Raise e
  end.

(** Equality of bytes is decided on their codes. *)
Definition byte_to_N_inj (x y : byte) (H : Byte.to_N x = Byte.to_N y) : x = y :=
  f_equal (fun o => match o with Some v => v | None => x end)
    (eq_trans (eq_sym (Byte.of_to_N x))
       (eq_trans (f_equal Byte.of_N H) (Byte.of_to_N y))).

Definition byte_eq_decision_sig (x y : byte)
    (c : bool) : N.eqb (Byte.to_N x) (Byte.to_N y) = c -> {x = y} + {x <> y} :=
  match c with
  | true => fun H => left (byte_to_N_inj x y (proj1 (N.eqb_eq _ _) H))
  | false => fun H =>
      right (fun E => proj1 (N.eqb_neq _ _) H (f_equal Byte.to_N E))
  end.

#[export] Instance byte_eq_decision : EqDecision byte := fun x y =>
  byte_eq_decision_sig x y (N.eqb (Byte.to_N x) (Byte.to_N y)) eq_refl.
#[export] Instance byte_countable : Countable byte :=
  inj_countable Byte.to_N Byte.of_N Byte.of_to_N.

#[export] Instance result_fmap : FMap result := fun A B f r =>
  match r with
  | Ok a => Ok (f a)
  | Raise e => Raise e
  end.

Definition is_ok {A} (r : result A) : bool :=
  match r with Ok _ => true | Raise _ => false end.

(** ** [hashlib.sha1]

    [utils.sha1_hash(data)] is [hashlib.sha1(data).digest()].  The digest
    is the SHA-1 of FIPS 180-4 on 32-bit words, kept as [Z] reduced modulo
    [2^32]. *)
Module Sha1.

Definition w32 (x : Z) : Z := x mod 4294967296.

Definition rotl (n : Z) (x : Z) : Z :=
  w32 (Z.lor (Z.shiftl x n) (Z.shiftr x (32 - n))).

Definition lnot32 (x : Z) : Z := Z.lxor x 4294967295.

Definition f (t : nat) (x y z : Z) : Z :=
  if (t <? 20)%nat then Z.lor (Z.land x y) (Z.land (lnot32 x) z)
  else if (t <? 40)%nat then Z.lxor (Z.lxor x y) z
  else if (t <? 60)%nat then
    Z.lor (Z.lor (Z.land x y) (Z.land x z)) (Z.land y z)
  else Z.lxor (Z.lxor x y) z.

Definition K (t : nat) : Z :=
  if (t <? 20)%nat then 1518500249
  else if (t <? 40)%nat then 1859775393
  else if (t <? 60)%nat then 2400959708
  else 3395469782.

(** Big-endian encoding of [x] on [n] bytes. *)
Fixpoint be_bytes (n : nat) (x : Z) : bytes :=
  match n with
  | O => []
  | S n' => byte_of_Z (Z.shiftr x (8 * Z.of_nat n')) :: be_bytes n' x
  end.

Definition be_value (x : bytes) : Z :=
  fold_left (fun acc c => acc * 256 + byte_to_Z c) x 0.

(** Message padding: a [0x80] byte, zeros up to 56 modulo 64, then the
    bit length on 8 bytes. *)
Definition pad (msg : bytes) : bytes :=
  let l := Z.of_nat (length msg) in
  let k := Z.to_nat ((55 - l) mod 64) in
  msg ++ byte_of_Z 128 :: repeat (byte_of_Z 0) k ++ be_bytes 8 (8 * l).

Fixpoint words (n : nat) (x : bytes) : list Z :=
  match n with
  | O => []
  | S n' => be_value (firstn 4 x) :: words n' (skipn 4 x)
  end.

(** The message schedule, most recent word first. *)
Fixpoint schedule (n : nat) (rev_w : list Z) : list Z :=
  match n with
  | O => rev_w
  | S n' =>
      let g i := nth i rev_w 0 in
      schedule n'
        (rotl 1 (Z.lxor (Z.lxor (Z.lxor (g 2%nat) (g 7%nat)) (g 13%nat)) (g 15%nat))
           :: rev_w)
  end.

Definition state : Type := Z * Z * Z * Z * Z.

Fixpoint rounds (t : nat) (ws : list Z) (s : state) : state :=
  match ws with
  | [] => s
  | w :: ws' =>
      let '(a, b0, c, d, e) := s in
      let tmp := w32 (rotl 5 a + f t b0 c d + e + K t + w) in
      rounds (S t) ws' (tmp, a, rotl 30 b0, c, d)
  end.

Definition compress (h : state) (block : bytes) : state :=
  let ws := rev (schedule 64 (rev (words 16 block))) in
  let '(a, b0, c, d, e) := rounds 0 ws h in
  let '(h0, h1, h2, h3, h4) := h in
  (w32 (h0 + a), w32 (h1 + b0), w32 (h2 + c), w32 (h3 + d), w32 (h4 + e)).

Fixpoint blocks (n : nat) (h : state) (x : bytes) : state :=
  match n with
  | O => h
  | S n' => blocks n' (compress h (firstn 64 x)) (skipn 64 x)
  end.

Definition init : state :=
  (1732584193, 4023233417, 2562383102, 271733878, 3285377520).

Definition digest (msg : bytes) : bytes :=
  let p := pad msg in
  let '(h0, h1, h2, h3, h4) := blocks (length p / 64) init p in
  be_bytes 4 h0 ++ be_bytes 4 h1 ++ be_bytes 4 h2 ++ be_bytes 4 h3
    ++ be_bytes 4 h4.

End Sha1.

(** ** utils.py *)

Definition PROTOCOL_STR : bytes := b "BitTorrent protocol".
Definition RESERVED : bytes := repeat (byte_of_Z 0) 8.
Definition BLOCK_SIZE : Z := 16384.

Definition sha1_hash (data : bytes) : bytes := Sha1.digest data.

Definition hex_digit (n : Z) : byte :=
  byte_of_Z (if n <? 10 then 48 + n else 87 + n).
Definition hex (x : bytes) : string :=
  string_of_list_byte
    (flat_map (fun c => [hex_digit (byte_to_Z c / 16); hex_digit (byte_to_Z c mod 16)]) x).


(** ** The bencode codec ([bencodepy])

    [torrent.py] decodes the metainfo file with [bencodepy.decode] and
    re-encodes the info dictionary with [bencodepy.encode].  The library
    is an external dependency; the definitions below follow its decoder
    (dispatch on the first byte of a token, dictionaries read as a loop of
    key string then value, no check on the order of keys, nothing allowed
    after the value) and its encoder (dictionary items sorted by key).

    Numbers are read as plain decimal digit runs with an optional leading
    minus sign for integers.  Python's [int()] also accepts a plus sign,
    surrounding blanks and digit-group underscores: such tokens are
    rejected here, so the decoder below accepts a subset of the inputs
    that the library accepts and agrees with it on that subset.  A
    dictionary is kept in insertion order, as Python's [dict] does. *)
Module Bencode.

#[warnings="-register-all"]
Inductive bvalue : Type :=
| BInt (z : Z)
| BStr (s : bytes)
| BList (l : list bvalue)
| BDict (d : list (bytes * bvalue)).

(** [d[k]], [k in d] and [d[k] = v] on an insertion-ordered dict. *)
Fixpoint dict_get {V} (d : list (bytes * V)) (k : bytes) : option V :=
  match d with
  | [] => None
  | (k', v) :: d' => if bytes_eqb k' k then Some v else dict_get d' k
  end.

Fixpoint dict_set {V} (d : list (bytes * V)) (k : bytes) (v : V)
  : list (bytes * V) :=
  match d with
  | [] => [(k, v)]
  | (k', v') :: d' =>
      if bytes_eqb k' k then (k', v) :: d' else (k', v') :: dict_set d' k v
  end.

Definition is_digit (c : byte) : bool :=
  (48 <=? byte_to_Z c) && (byte_to_Z c <=? 57).

(** [int(s)] for a run of decimal digits. *)
Definition digits_value (s : bytes) : result Z :=
  match s with
  | [] => Raise (ValueError "invalid literal for int()")
  | _ =>
      if forallb is_digit s
      then Ok (fold_left (fun acc c => acc * 10 + (byte_to_Z c - 48)) s 0)
      else Raise (ValueError "invalid literal for int()")
  end.

(** [x.index(c, 0)]: the bytes before the first [c] and those after it. *)
Fixpoint split_at (c : byte) (x : bytes) : result (bytes * bytes) :=
  match x with
  | [] => Raise (ValueError "subsection not found")
  | a :: x' =>
      if Byte.eqb a c then Ok ([], x')
      else '(pre, post) ← split_at c x'; Ok (a :: pre, post)
  end.

(** The first byte of [x] is [c]: [x[0:1] == c]. *)
Definition starts_with (c : byte) (x : bytes) : bool :=
  match x with
  | a :: _ => Byte.eqb a c
  | [] => false
  end.

(** [decode_int]: [x] starts with [i]. *)
Definition decode_int (x : bytes) : result (Z * bytes) :=
  '(num, rest) ← split_at "e"%byte (skipn 1 x);
  if starts_with "-"%byte num then
    n ← digits_value (skipn 1 num);
    if starts_with "0"%byte (skipn 1 num)
    then Raise (ValueError "negative zero")
    else Ok (- n, rest)
  else
    n ← digits_value num;
    if starts_with "0"%byte num && negb (length num =? 1)%nat
    then Raise (ValueError "leading zero")
    else Ok (n, rest).

(** [decode_string]: the length, a colon, then that many bytes.  The
    library slices without checking that enough bytes remain and then
    fails on the next token or on the final length check; the failure
    is raised at once here. *)
Definition decode_string (x : bytes) : result (bytes * bytes) :=
  '(num, rest) ← split_at ":"%byte x;
  n ← digits_value num;
  if starts_with "0"%byte num && negb (length num =? 1)%nat
  then Raise (ValueError "leading zero")
  else if (Z.of_nat (length rest) <? n)
  then Raise (ValueError "not a valid bencoded string")
  else Ok (firstn (Z.to_nat n) rest, skipn (Z.to_nat n) rest).

(** [decode_func[x[0:1]](x, 0)], with the loops of [decode_list] and
    [decode_dict].  [fuel] bounds the depth of the calls; Python's own
    bound is its recursion limit. *)
Fixpoint decode_func (fuel : nat) (x : bytes) : result (bvalue * bytes) :=
  match fuel with
  | O => Raise (Exception "maximum recursion depth exceeded")
  | S fuel' =>
      if starts_with "i"%byte x then
        '(n, rest) ← decode_int x; Ok (BInt n, rest)
      else if starts_with "l"%byte x then decode_list fuel' (skipn 1 x) []
      else if starts_with "d"%byte x then decode_dict fuel' (skipn 1 x) []
      else if match x with c :: _ => is_digit c | [] => false end then
        '(s, rest) ← decode_string x; Ok (BStr s, rest)
      else Raise (KeyError "decode_func")
  end
with decode_list (fuel : nat) (x : bytes) (r : list bvalue)
  : result (bvalue * bytes) :=
  match fuel with
  | O => Raise (Exception "maximum recursion depth exceeded")
  | S fuel' =>
      if starts_with "e"%byte x then Ok (BList r, skipn 1 x)
      else
        '(v, x') ← decode_func fuel' x;
        decode_list fuel' x' (r ++ [v])
  end
with decode_dict (fuel : nat) (x : bytes) (r : list (bytes * bvalue))
  : result (bvalue * bytes) :=
  match fuel with
  | O => Raise (Exception "maximum recursion depth exceeded")
  | S fuel' =>
      if starts_with "e"%byte x then Ok (BDict r, skipn 1 x)
      else
        '(k, x') ← decode_string x;
        '(v, x'') ← decode_func fuel' x';
        decode_dict fuel' x'' (dict_set r k v)
  end.

Definition enough_fuel (x : bytes) : nat := 2 * length x + 2.

(** [bencodepy.decode(value)]: every error of the decoder becomes a
    [BencodeDecodeError], and so does data after the value. *)
Definition decode (value : bytes) : result bvalue :=
  match decode_func (enough_fuel value) value with
  | Ok (data, []) => Ok data
  | Ok (_, _ :: _) =>
      Raise (Exception "invalid bencoded value (data after valid prefix)")
  | Raise _ => Raise (Exception "not a valid bencoded string")
  end.

(** [str(n).encode()] *)
Definition dec (n : Z) : bytes :=
  list_byte_of_string (NilZero.string_of_int (Z.to_int n)).

(** Lexicographic order on byte strings, as Python compares [bytes]. *)
Fixpoint bytes_ltb (x y : bytes) : bool :=
  match x, y with
  | _, [] => false
  | [], _ :: _ => true
  | c :: x', d :: y' =>
      if byte_to_Z c <? byte_to_Z d then true
      else if byte_to_Z d <? byte_to_Z c then false
      else bytes_ltb x' y'
  end.

(** [ilist.sort(key=lambda kv: kv[0])]: a stable sort by key. *)
Fixpoint insert_sorted {V} (kv : bytes * V) (l : list (bytes * V))
  : list (bytes * V) :=
  match l with
  | [] => [kv]
  | kv' :: l' =>
      if bytes_ltb (fst kv') (fst kv) then kv' :: insert_sorted kv l'
      else kv :: l
  end.

Definition sort_items {V} (l : list (bytes * V)) : list (bytes * V) :=
  fold_right insert_sorted [] l.

(** [bencodepy.encode] *)
Fixpoint encode (v : bvalue) : bytes :=
  match v with
  | BInt z => b "i" ++ dec z ++ b "e"
  | BStr s => dec (Z.of_nat (length s)) ++ b ":" ++ s
  | BList l => b "l" ++ flat_map encode l ++ b "e"
  | BDict d =>
      b "d"
        ++ flat_map (fun kv => dec (Z.of_nat (length (fst kv))) ++ b ":" ++ fst kv ++ snd kv)
             (sort_items (map (fun kv => (fst kv, encode (snd kv))) d))
        ++ b "e"
  end.

(** The byte range of each value of the top-level dictionary of a file,
    which the decoder of the spec records: the pairs of a key and the
    bytes of its value exactly as they stand in [x], where [x] follows
    the opening [d].  The loop is that of [decode_dict]. *)
Fixpoint dict_spans (fuel : nat) (x : bytes) (r : list (bytes * bytes))
  : result (list (bytes * bytes)) :=
  match fuel with
  | O => Raise (Exception "maximum recursion depth exceeded")
  | S fuel' =>
      if starts_with "e"%byte x then Ok r
      else
        '(k, x') ← decode_string x;
        '(_, x'') ← decode_func fuel' x';
        dict_spans fuel' x''
          (dict_set r k (firstn (length x' - length x'') x'))
  end.

(** The raw byte slice of the value stored under [key] in the file [x],
    as it appears in the file. *)
Definition raw_slice (key : bytes) (x : bytes) : option bytes :=
  if starts_with "d"%byte x then
    match dict_spans (enough_fuel x) (skipn 1 x) [] with
    | Ok spans => dict_get spans key
    | Raise _ => None
    end
  else None.

End Bencode.

(** ** Python helpers used by torrent.py *)

(** [range(0, stop, step)] *)
Definition range_step (stop step : nat) : list nat :=
  map (fun k => (k * step)%nat) (seq 0 ((stop + step - 1) / step)).

(** Well-formed UTF-8, as the strict codec of [bytes.decode('utf-8')]
    checks it.  A decoded [str] is represented by its UTF-8 bytes. *)
Definition in_range (lo hi : Z) (c : byte) : bool :=
  (lo <=? byte_to_Z c) && (byte_to_Z c <=? hi).

Fixpoint utf8_valid (x : bytes) : bool :=
  match x with
  | [] => true
  | c :: x1 =>
      if in_range 0 127 c then utf8_valid x1
      else match x1 with
      | [] => false
      | c1 :: x2 =>
          if in_range 194 223 c then in_range 128 191 c1 && utf8_valid x2
          else match x2 with
          | [] => false
          | c2 :: x3 =>
              if in_range 224 239 c then
                (if in_range 224 224 c then in_range 160 191 c1
                 else if in_range 237 237 c then in_range 128 159 c1
                 else in_range 128 191 c1)
                && in_range 128 191 c2 && utf8_valid x3
              else match x3 with
              | [] => false
              | c3 :: x4 =>
                  in_range 240 244 c
                  && (if in_range 240 240 c then in_range 144 191 c1
                      else if in_range 244 244 c then in_range 128 143 c1
                      else in_range 128 191 c1)
                  && in_range 128 191 c2 && in_range 128 191 c3
                  && utf8_valid x4
              end
          end
      end
  end.

(** [os.path.join] applied to the unpacked list [parts], with POSIX
    separators; it needs at least one part. *)
Definition starts_with_sep (p : bytes) : bool :=
  match p with c :: _ => Byte.eqb c "/"%byte | [] => false end.

Definition ends_with_sep (p : bytes) : bool :=
  match rev p with c :: _ => Byte.eqb c "/"%byte | [] => false end.

Definition path_join2 (path q : bytes) : bytes :=
  if starts_with_sep q then q
  else match path with
       | [] => q
       | _ => if ends_with_sep path then path ++ q else path ++ b "/" ++ q
       end.

Definition path_join (parts : list bytes) : result bytes :=
  match parts with
  | [] => Raise (TypeError "join() missing 1 required positional argument")
  | a :: ps => Ok (fold_left path_join2 ps a)
  end.

(** ** torrent.py *)
Module Torrent.
Import Bencode.

(** The attributes of a [Torrent] object.  Text attributes hold the
    UTF-8 bytes of the Python string.  The attributes are typed: the
    source stores [info[b'piece length']] and [info[b'length']] without
    looking at their type and cuts [info[b'pieces']] in slices of 20
    whatever sequence it is; a file where one of the first two is not an
    integer or the third is not a byte string is outside this record, and
    [__init__] below does not load it. *)
Record t : Type := mk {
  info : list (bytes * bvalue);
  info_hash : bytes;
  announce : bytes;
  announce_list : list (list bytes);
  piece_length : Z;
  pieces : list bytes;
  num_pieces : Z;
  files : list (bytes * Z);
  total_length : Z;
  name : bytes
}.

(** [v.decode('utf-8')] *)
Definition decode_utf8 (v : bvalue) : result bytes :=
  match v with
  | BStr s =>
      if utf8_valid s then Ok s
      else Raise (ValueError "'utf-8' codec can't decode")
  | _ => Raise (AttributeError "object has no attribute 'decode'")
  end.

(** [for x in v] *)
Definition py_iter (v : bvalue) : result (list bvalue) :=
  match v with
  | BList l => Ok l
  | BDict d => Ok (map (fun kv => BStr (fst kv)) d)
  | BStr s => Ok (map (fun c => BInt (byte_to_Z c)) s)
  | BInt _ => Raise (TypeError "'int' object is not iterable")
  end.

Fixpoint mapM {A B} (f : A -> result B) (l : list A) : result (list B) :=
  match l with
  | [] => Ok []
  | a :: l' => y ← f a; ys ← mapM f l'; Ok (y :: ys)
  end.

Definition as_int (v : bvalue) : result Z :=
  match v with
  | BInt z => Ok z
  | _ => Raise (TypeError "not an integer")
  end.

(** The body of the [for file_dict in self.info[b'files']] loop. *)
Definition file_entry (file_dict : bvalue) : result (bytes * Z) :=
  match file_dict with
  | BDict fd =>
      match dict_get fd (b "path"), dict_get fd (b "length") with
      | Some path, Some len =>
          parts ← py_iter path;
          path_parts ← mapM decode_utf8 parts;
          file_path ← path_join path_parts;
          file_length ← as_int len;
          Ok (file_path, file_length)
      | _, _ => Raise (ValueError "Invalid file entry in torrent")
      end
  | _ => Raise (TypeError "file entry is not a dictionary")
  end.

Definition sumZ (l : list Z) : Z := fold_left Z.add l 0.

(** The [try] block of [Torrent.__init__], on the content [data] of the
    file at [torrent_path]. *)
Definition init_body (data : bytes) : result t :=
  meta_info ← decode data;
  match meta_info with
  | BDict meta =>
      match dict_get meta (b "info") with
      | None => Raise (ValueError "Missing info dictionary")
      | Some info_v =>
          let info_hash := sha1_hash (encode info_v) in
          match dict_get meta (b "announce") with
          | None => Raise (ValueError "Missing announce URL")
          | Some ann =>
              announce ← decode_utf8 ann;
              announce_list ←
                match dict_get meta (b "announce-list") with
                | None => Ok []
                | Some al =>
                    tiers ← py_iter al;
                    mapM (fun tier => urls ← py_iter tier; mapM decode_utf8 urls)
                      tiers
                end;
              match info_v with
              | BDict info =>
                  match dict_get info (b "piece length") with
                  | None => Raise (ValueError "Missing piece length")
                  | Some pl =>
                      piece_length ← as_int pl;
                      match dict_get info (b "pieces") with
                      | None => Raise (ValueError "Missing pieces hash")
                      | Some (BStr pieces) =>
                          if negb (length pieces mod 20 =? 0)%nat
                          then Raise (ValueError "Pieces length not a multiple of 20")
                          else
                            let hashes :=
                              map (fun i => slice pieces i (i + 20))
                                (range_step (length pieces) 20) in
                            match dict_get info (b "name") with
                            | None => Raise (ValueError "Missing name in torrent")
                            | Some nm =>
                                name ← decode_utf8 nm;
                                '(files, total_length) ←
                                  match dict_get info (b "files") with
                                  | Some fs =>
                                      entries ← py_iter fs;
                                      files ← mapM file_entry entries;
                                      Ok (files, sumZ (map snd files))
                                  | None =>
                                      match dict_get info (b "length") with
                                      | None =>
                                          Raise (ValueError "Missing length for single file")
                                      | Some len =>
                                          l ← as_int len;
                                          Ok ([(name, l)], l)
                                      end
                                  end;
                                Ok (mk info info_hash announce announce_list
                                      piece_length hashes
                                      (Z.of_nat (length hashes))
                                      files total_length name)
                            end
                      | Some _ => Raise (TypeError "pieces is not a byte string")
                      end
                  end
              | _ => Raise (TypeError "info is not a dictionary")
              end
          end
      end
  | _ => Raise (ValueError "Invalid torrent file format")
  end.

(** [Torrent(torrent_path)]: any exception of the body is re-raised as
    a [ValueError]. *)
Definition __init__ (data : bytes) : result t :=
  match init_body data with
  | Ok self => Ok self
  | Raise _ => Raise (ValueError "Error parsing torrent file")
  end.

Definition get_piece_hash (self : t) (index : Z) : result bytes :=
  if (0 <=? index) && (index <? num_pieces self)
  then match pieces self !! Z.to_nat index with
       | Some h => Ok h
       | None => Raise (IndexError "list index out of range")
       end
  else Raise (ValueError "Invalid piece index").

Definition piece_size (self : t) (index : Z) : Z :=
  if index <? num_pieces self - 1 then piece_length self
  else total_length self - (num_pieces self - 1) * piece_length self.

Definition verify_piece (self : t) (index : Z) (piece_data : bytes) : bool :=
  if (0 <=? index) && (index <? num_pieces self)
  then match pieces self !! Z.to_nat index with
       | Some h => bytes_eqb (sha1_hash piece_data) h
       | None => false
       end
  else false.

End Torrent.

(** ** Python sequence helpers *)

Definition len {A} (l : list A) : Z := Z.of_nat (length l).

(** [l[i]] and [l[i] = v] with Python's negative indices. *)
Definition norm_index {A} (l : list A) (i : Z) : result nat :=
  let j := if i <? 0 then i + len l else i in
  if (0 <=? j) && (j <? len l) then Ok (Z.to_nat j)
  else Raise (IndexError "list index out of range").

Definition list_getitem {A} (l : list A) (i : Z) : result A :=
  j ← norm_index l i;
  match l !! j with
  | Some a => Ok a
  | None => Raise (IndexError "list index out of range")
  end.

Definition list_setitem {A} (l : list A) (i : Z) (v : A) : result (list A) :=
  j ← norm_index l i; Ok (<[j := v]> l).

(** The torrent object as [FileManager] and [PieceManager] read it: the
    attributes [info], [num_pieces], [piece_length], [total_length] and
    [piece_hashes].  Python looks attributes up by name at run time;
    [t_piece_hashes] is [None] for an object that has no attribute of that
    name, and reading it then raises [AttributeError]. *)
Record torrent_obj : Type := {
  t_info : list (bytes * Bencode.bvalue);
  t_num_pieces : Z;
  t_piece_length : Z;
  t_total_length : Z;
  t_piece_hashes : option (list bytes)
}.

Definition get_piece_hashes (t : torrent_obj) : result (list bytes) :=
  match t_piece_hashes t with
  | Some hs => Ok hs
  | None => Raise (AttributeError "object has no attribute 'piece_hashes'")
  end.

(** A [Torrent] of torrent.py keeps the hashes under the name [pieces] and
    has no [piece_hashes]. *)
Definition of_Torrent (t : Torrent.t) : torrent_obj :=
  {| t_info := Torrent.info t;
     t_num_pieces := Torrent.num_pieces t;
     t_piece_length := Torrent.piece_length t;
     t_total_length := Torrent.total_length t;
     t_piece_hashes := None |}.

(** The files on disk: path to content. *)
Abbreviation disk := (gmap bytes bytes).

(** ** file_manager.py *)
Module FileManager.
Import Bencode.

(** An entry of [self.files].  [length] is [None] when the info
    dictionary has no [length] key ([info.get] returns [None]). *)
Record file_rec : Type := {
  path : bytes;
  length : option Z;
  offset : Z
}.

Record t : Type := {
  torrent : torrent_obj;
  output_path : bytes;
  files : list file_rec;
  downloaded : Z
}.

(** [_init_files].  The keys of a decoded info dictionary are byte
    strings, so the lookups with the text keys ['name'], ['files'] and
    ['length'] find nothing and the single-file branch is taken.  A
    falsy name is replaced by the default one, a name that is not a
    byte string makes [os.path.join] raise.  The name is decoded with
    [errors='ignore'], which keeps the bytes of a name that is UTF-8 (as
    the torrent parser has checked). *)
Definition _init_files (tor : torrent_obj) (output_path : bytes)
  : result (list file_rec) :=
  let info := t_info tor in
  name ←
    match dict_get info (b "name") with
    | Some (BStr (c :: n)) => Ok (c :: n)
    | None | Some (BStr []) | Some (BInt 0) | Some (BList [])
    | Some (BDict []) => Ok (b "downloaded_torrent")
    | Some _ => Raise (TypeError "join() argument must be str or bytes")
    end;
  let length :=
    match dict_get info (b "length") with
    | Some (BInt l) => Some l
    | _ => None
    end in
  Ok [{| path := path_join2 output_path name; length := length; offset := 0 |}].

(** [FileManager(torrent, output_path)], for an [output_path] that is
    already absolute and normalised; creating the directories is taken
    to succeed. *)
Definition __init__ (tor : torrent_obj) (output_path : bytes) : result t :=
  files ← _init_files tor output_path;
  Ok {| torrent := tor; output_path := output_path;
        files := files; downloaded := 0 |}.

(** [fh.seek(off); fh.write(data)] on a file holding [content]. *)
Definition pwrite (content : bytes) (off : Z) (data : bytes) : bytes :=
  match data with
  | [] => content
  | _ =>
      let o := Z.to_nat off in
      if (o <=? List.length content)%nat
      then firstn o content ++ data ++ skipn (o + List.length data) content
      else content ++ repeat (byte_of_Z 0) (o - List.length content) ++ data
  end.

(** [fh.seek(off); fh.read(n)]: a negative [n] reads to the end. *)
Definition pread (content : bytes) (off : Z) (n : Z) : bytes :=
  let tail := skipn (Z.to_nat off) content in
  if n <? 0 then tail else firstn (Z.to_nat n) tail.

(** The [for f in self.files] loop of [write_block].  [Ok true]: the loop
    ended (by [break] or exhaustion); [Ok false]: the [IOError] handler
    returned [False].  Opening with mode ['r+b'] fails when the file
    does not exist. *)
Fixpoint write_loop (fs : list file_rec) (block : bytes)
    (offset block_offset remaining : Z) (d : disk) : result bool * disk :=
  match fs with
  | [] => (Ok true, d)
  | f :: fs' =>
      match length f with
      | None => (Raise (TypeError "unsupported operand type(s) for +"), d)
      | Some flen =>
          if offset >=? FileManager.offset f + flen
          then write_loop fs' block offset block_offset remaining d
          else if offset <? FileManager.offset f
          then write_loop fs' block offset block_offset remaining d
          else
            let file_offset := offset - FileManager.offset f in
            let to_write := Z.min remaining (flen - file_offset) in
            match d !! path f with
            | None => (Ok false, d)
            | Some content =>
                let data :=
                  slice block (Z.to_nat block_offset)
                    (Z.to_nat (block_offset + to_write)) in
                let d' := <[path f := pwrite content file_offset data]> d in
                if remaining - to_write =? 0 then (Ok true, d')
                else write_loop fs' block (offset + to_write)
                       (block_offset + to_write) (remaining - to_write) d'
            end
      end
  end.

Definition write_block (self : t) (d : disk) (index begin : Z) (block : bytes)
  : result bool * t * disk :=
  let offset := index * t_piece_length (torrent self) + begin in
  match write_loop (files self) block offset 0 (len block) d with
  | (Ok true, d') =>
      (Ok true,
       {| torrent := torrent self; output_path := output_path self;
          files := files self; downloaded := downloaded self + len block |},
       d')
  | (r, d') => (r, self, d')
  end.

(** The loop of [read_block]: [Ok (Some block)] when the loop ended,
    [Ok None] when the [IOError] handler returned [None]. *)
Fixpoint read_loop (fs : list file_rec) (offset remaining : Z)
    (block : bytes) (d : disk) : result (option bytes) :=
  match fs with
  | [] => Ok (Some block)
  | f :: fs' =>
      match length f with
      | None => Raise (TypeError "unsupported operand type(s) for +")
      | Some flen =>
          if offset >=? FileManager.offset f + flen
          then read_loop fs' offset remaining block d
          else if offset <? FileManager.offset f
          then read_loop fs' offset remaining block d
          else
            let file_offset := offset - FileManager.offset f in
            let to_read := Z.min remaining (flen - file_offset) in
            match d !! path f with
            | None => Ok None
            | Some content =>
                let block' := block ++ pread content file_offset to_read in
                if remaining - to_read =? 0 then Ok (Some block')
                else read_loop fs' (offset + to_read) (remaining - to_read)
                       block' d
            end
      end
  end.

Definition read_block (self : t) (d : disk) (index begin length : Z)
  : result (option bytes) :=
  let offset := index * t_piece_length (torrent self) + begin in
  r ← read_loop (files self) offset length [] d;
  match r with
  | Some block => if len block =? length then Ok (Some block) else Ok None
  | None => Ok None
  end.


Definition read_piece (self : t) (d : disk) (index : Z)
  : result (option bytes) :=
  let tor := torrent self in
  let piece_length :=
    if index =? t_num_pieces tor - 1
    then t_total_length tor - index * t_piece_length tor
    else t_piece_length tor in
  read_block self d index 0 piece_length.

(** Modelled from the spec: [FileManager.write_piece], which
    [PieceManager.on_piece_received] calls and file_manager.py does not
    define.  The spec has a verified piece written through the file
    store, which writes a block of a piece at the absolute offset
    [p * piece_length + offset]; the whole piece is the block at offset
    0 of the piece. *)
Definition write_piece (self : t) (d : disk) (index : Z) (piece : bytes)
  : result bool * t * disk :=
  write_block self d index 0 piece.

End FileManager.

(** ** progress_manager.py

    A file written by [json.dump] is kept as the JSON document it holds,
    and [json.load] of that file gives the document back.  The document of
    a progress file has the two keys that [PieceManager] writes; JSON
    object keys are strings, so the piece indices of [piece_progress] are
    stored in decimal.  Progress files live in a store of their own, next
    to the content files of [disk]. *)
Module Progress.

(** The [progress_data] dictionary built by [on_piece_received]. *)
Record progress_data : Type := {
  have_pieces : list Z;
  piece_progress : list (Z * Q)
}.

Record progress_doc : Type := {
  doc_have_pieces : list Z;
  doc_piece_progress : list (bytes * Q)
}.

Abbreviation store := (gmap bytes progress_doc).

Definition json_dump (data : progress_data) : progress_doc :=
  {| doc_have_pieces := have_pieces data;
     doc_piece_progress :=
       map (fun kv => (Bencode.dec (fst kv), snd kv)) (piece_progress data) |}.

(** [p.rfind(c)]: the last index of [c] in [p], or [-1]. *)
Fixpoint rfind (c : byte) (p : bytes) : Z :=
  match p with
  | [] => -1
  | a :: p' =>
      let r := rfind c p' in
      if 0 <=? r then r + 1 else if Byte.eqb a c then 0 else -1
  end.

Definition is_dot (c : byte) : bool := Byte.eqb c "."%byte.

(** [os.path.splitext(p)] (POSIX): split at the last dot of the last
    path component, unless that component consists of leading dots up
    to there. *)
Definition splitext (p : bytes) : bytes * bytes :=
  let sepIndex := rfind "/"%byte p in
  let dotIndex := rfind "."%byte p in
  if sepIndex <? dotIndex then
    if forallb is_dot (slice p (Z.to_nat (sepIndex + 1)) (Z.to_nat dotIndex))
    then (p, [])
    else (firstn (Z.to_nat dotIndex) p, skipn (Z.to_nat dotIndex) p)
  else (p, []).

(** [save_progress(file_path, progress_data)].  A failure to open the
    file is caught and reported by the source; the write is modelled as
    succeeding. *)
Definition save_progress (fs : store) (file_path : bytes)
    (data : progress_data) : store :=
  let progress_file := fst (splitext file_path) ++ b ".progress" in
  <[progress_file := json_dump data]> fs.

(** [load_progress(file_path)]: [None] when there is no file. *)
Definition load_progress (fs : store) (file_path : bytes)
  : option progress_doc :=
  fs !! (file_path ++ b ".progress").

End Progress.

(** ** [bitstring.BitArray]

    A [BitArray] is kept as the list of its bits, first bit first. *)

(** [BitArray(length=n)]: [n] zero bits; a negative length is refused
    with [bitstring.CreationError], a [ValueError]. *)
Definition BitArray_of_length (n : Z) : result (list bool) :=
  if n <? 0 then Raise (ValueError "bitstring.CreationError")
  else Ok (repeat false (Z.to_nat n)).

(** The bits of a byte, most significant first. *)
Definition bits_of_byte (c : byte) : list bool :=
  map (fun k => Z.testbit (byte_to_Z c) (7 - Z.of_nat k)) (seq 0 8).

(** [BitArray(bytes=x)] *)
Definition BitArray_of_bytes (x : bytes) : list bool :=
  flat_map bits_of_byte x.

Definition byte_of_bits (bits : list bool) : byte :=
  byte_of_Z
    (fold_left (fun acc (v : bool) => 2 * acc + (if v then 1 else 0)) bits 0).

(** [bits.tobytes()]: the bits in groups of 8, the last group filled up
    with zero bits. *)
Fixpoint pack_bits (n : nat) (bits : list bool) : bytes :=
  match n with
  | O => []
  | S n' =>
      byte_of_bits (firstn 8 (bits ++ repeat false 8))
        :: pack_bits n' (skipn 8 bits)
  end.

Definition tobytes (bits : list bool) : bytes :=
  pack_bits ((length bits + 7) / 8) bits.

(** ** piece_manager.py *)

(** Messages sent on the process-wide [pub] bus. *)
Inductive message : Type :=
| piece_received (index : Z) (piece : bytes)
| piece_verified (index : Z)
| piece_requested (index begin length : Z).

Module PieceManager.

(** The attributes of a [PieceManager].  Progress percentages are
    Python floats computed as [(completed / total) * 100]; they are kept
    as exact rationals, which order the same way.  The attributes
    [last_piece_request] and [stalled_threshold], which only
    [get_needed_pieces] and [get_download_status] read, are left out. *)
Record t : Type := {
  torrent : torrent_obj;
  pieces : gmap Z (list (option bytes));
  have_pieces : gset Z;
  failed_pieces : gset Z;
  piece_progress : gmap Z Q;
  progress_file : bytes
}.

Definition set_pieces (f : gmap Z (list (option bytes)) -> gmap Z (list (option bytes)))
    (self : t) : t :=
  {| torrent := torrent self; pieces := f (pieces self);
     have_pieces := have_pieces self; failed_pieces := failed_pieces self;
     piece_progress := piece_progress self;
     progress_file := progress_file self |}.

Definition set_have_pieces (f : gset Z -> gset Z) (self : t) : t :=
  {| torrent := torrent self; pieces := pieces self;
     have_pieces := f (have_pieces self); failed_pieces := failed_pieces self;
     piece_progress := piece_progress self;
     progress_file := progress_file self |}.

Definition set_failed_pieces (f : gset Z -> gset Z) (self : t) : t :=
  {| torrent := torrent self; pieces := pieces self;
     have_pieces := have_pieces self; failed_pieces := f (failed_pieces self);
     piece_progress := piece_progress self;
     progress_file := progress_file self |}.

Definition set_piece_progress (f : gmap Z Q -> gmap Z Q) (self : t) : t :=
  {| torrent := torrent self; pieces := pieces self;
     have_pieces := have_pieces self; failed_pieces := failed_pieces self;
     piece_progress := f (piece_progress self);
     progress_file := progress_file self |}.

(** What a piece manager runs in: itself, the file manager it shares
    with the client, the files on disk, the progress files, and the
    messages published on the bus so far (oldest first). *)
Record world : Type := {
  pm : t;
  fm : FileManager.t;
  files_on_disk : disk;
  progress_files : Progress.store;
  published : list message
}.

(** Computations that read and update the world and may raise; the
    world reached when an exception is raised is kept, as the updates
    made before a Python exception are. *)
Definition M (A : Type) : Type := world -> result A * world.

#[export] Instance M_ret : MRet M := fun A a w => (Ok a, w).
#[export] Instance M_bind : MBind M := fun A B k m w =>
  match m w with
  | (Ok a, w') => k a w'
  | (Raise e, w') => (Raise e, w')
  end.

Definition raise {A} (e : exn) : M A := fun w => (Raise e, w).
Definition lift {A} (r : result A) : M A := fun w => (r, w).
Definition get_pm : M t := fun w => (Ok (pm w), w).
Definition modify_pm (f : t -> t) : M unit := fun w =>
  (Ok tt,
   {| pm := f (pm w); fm := fm w; files_on_disk := files_on_disk w;
      progress_files := progress_files w; published := published w |}).
Definition pass : M unit := mret tt.

(** [try: m except Exception: h] *)
Definition try_except {A} (m : M A) (h : exn -> M A) : M A := fun w =>
  match m w with
  | (Ok a, w') => (Ok a, w')
  | (Raise e, w') => h e w'
  end.

(** [pub.sendMessage(topic, ...)], recorded on the bus. *)
Definition publish (msg : message) : M unit := fun w =>
  (Ok tt,
   {| pm := pm w; fm := fm w; files_on_disk := files_on_disk w;
      progress_files := progress_files w;
      published := published w ++ [msg] |}).

(** [self.file_manager.write_piece(index, piece)] *)
Definition fm_write_piece (index : Z) (piece : bytes) : M bool := fun w =>
  let '(r, fm', d') :=
    FileManager.write_piece (fm w) (files_on_disk w) index piece in
  (r,
   {| pm := pm w; fm := fm'; files_on_disk := d';
      progress_files := progress_files w; published := published w |}).

(** [self.file_manager.read_piece(index)] *)
Definition fm_read_piece (index : Z) : M (option bytes) := fun w =>
  (FileManager.read_piece (fm w) (files_on_disk w) index, w).

(** [save_progress(self.progress_file, progress_data)] *)
Definition do_save_progress : M unit := fun w =>
  let self := pm w in
  let progress_data :=
    {| Progress.have_pieces := elements (have_pieces self);
       Progress.piece_progress := map_to_list (piece_progress self) |} in
  (Ok tt,
   {| pm := pm w; fm := fm w; files_on_disk := files_on_disk w;
      progress_files :=
        Progress.save_progress (progress_files w) (progress_file self)
          progress_data;
      published := published w |}).

Definition has_piece (self : t) (index : Z) : bool :=
  bool_decide (index ∈ have_pieces self).

Definition piece_length (self : t) (index : Z) : Z :=
  if index =? t_num_pieces (torrent self) - 1
  then t_total_length (torrent self) - index * t_piece_length (torrent self)
  else t_piece_length (torrent self).

(** [self.torrent.piece_hashes[index]] *)
Definition expected_hash_of (index : Z) : M bytes :=
  self ← get_pm;
  hashes ← lift (get_piece_hashes (torrent self));
  lift (list_getitem hashes index).

Definition on_piece_received (index : Z) (piece : bytes) : M unit :=
  expected_hash ← expected_hash_of index;
  if bytes_eqb (sha1_hash piece) expected_hash then
    _ ← fm_write_piece index piece;
    modify_pm (set_have_pieces (union {[index]}));;
    modify_pm (set_piece_progress <[index := 100%Q]>);;
    modify_pm (set_pieces (delete index));;
    modify_pm (set_failed_pieces (fun fp => fp ∖ {[index]}));;
    publish (piece_verified index);;
    do_save_progress
  else
    modify_pm (set_failed_pieces (union {[index]}));;
    modify_pm (set_pieces (delete index));;
    modify_pm (set_piece_progress <[index := 0%Q]>).

Definition Qltb (x y : Q) : bool := negb (Qle_bool y x).

(** [(completed_blocks / total_blocks) * 100] *)
Definition percent (completed_blocks total_blocks : Z) : result Q :=
  if total_blocks =? 0 then Raise ZeroDivisionError
  else Ok (Qred (Qmult (Qmake completed_blocks (Z.to_pos total_blocks)) 100)).

Definition count_blocks (slots : list (option bytes)) : Z :=
  len (filter (fun s => is_Some s) slots).

(** [b''.join(slots)], for slots that hold no [None]. *)
Definition join_blocks (slots : list (option bytes)) : bytes :=
  flat_map (fun s => default [] s) slots.

(** The [try] block of [receive_block] from the validation of the
    block offset on: the checks, the store into the slot, the hash
    check of a complete piece and the progress update. *)
Definition store_block (index begin : Z) (block : bytes) : M unit :=
  self ← get_pm;
  slots ← lift (match pieces self !! index with
                | Some sl => Ok sl
                | None => Raise (KeyError "index")
                end);
  let block_index := begin / BLOCK_SIZE in
  if block_index >=? len slots then pass
  else
    let expected_size := Z.min BLOCK_SIZE (piece_length self index - begin) in
    if negb (len block =? expected_size) then pass
    else
      slots' ← lift (list_setitem slots block_index (Some block));
      modify_pm (set_pieces <[index := slots']>);;
      let completed_blocks := count_blocks slots' in
      let total_blocks := len slots' in
      _ ← lift (percent completed_blocks total_blocks);
      (if completed_blocks =? total_blocks then
         let full_piece := join_blocks slots' in
         let piece_hash := sha1_hash full_piece in
         expected_hash ← expected_hash_of index;
         if bytes_eqb piece_hash expected_hash then
           publish (piece_received index full_piece);;
           on_piece_received index full_piece;;
           modify_pm (set_failed_pieces (fun fp => fp ∖ {[index]}))
         else
           modify_pm
             (set_pieces <[index := repeat None (Z.to_nat total_blocks)]>);;
           modify_pm (set_failed_pieces (union {[index]}));;
           modify_pm (set_piece_progress <[index := 0%Q]>)
       else pass);;
      self ← get_pm;
      let prev_progress := default 0%Q (piece_progress self !! index) in
      new_progress ← lift (percent completed_blocks total_blocks);
      if Qltb prev_progress new_progress
         || Qle_bool 5 (Qminus new_progress prev_progress)
      then modify_pm (set_piece_progress <[index := new_progress]>)
      else pass.

(** The [try] block of [receive_block]: the check of the piece index
    and the initialisation of the tracking of the piece, then
    [store_block]. *)
Definition receive_block_body (index begin : Z) (block : bytes) : M unit :=
  self ← get_pm;
  if index >=? t_num_pieces (torrent self) then pass
  else
    (match pieces self !! index with
     | Some _ => pass
     | None =>
         let num_blocks :=
           (piece_length self index + BLOCK_SIZE - 1) / BLOCK_SIZE in
         modify_pm (set_pieces <[index := repeat None (Z.to_nat num_blocks)]>);;
         modify_pm (set_piece_progress <[index := 0%Q]>)
     end);;
    store_block index begin block.

(** [receive_block]: the handler of [except Exception] prints and
    returns. *)
Definition receive_block (index begin : Z) (block : bytes) : M unit :=
  try_except (receive_block_body index begin block) (fun _ => pass).

Definition get_block (index begin length : Z) : M (option bytes) := fun w =>
  (FileManager.read_block (fm w) (files_on_disk w) index begin length, w).

(** The body of [for index in range(total_pieces)] in
    [_verify_all_pieces]. *)
Definition verify_one (index : Z) : M unit :=
  piece_data ← fm_read_piece index;
  match piece_data with
  | None => raise (ValueError "Failed to read piece")
  | Some data =>
      expected_hash ← expected_hash_of index;
      if negb (bytes_eqb (sha1_hash data) expected_hash)
      then raise (ValueError "Piece hash verification failed")
      else modify_pm (set_have_pieces (union {[index]}))
  end.

Fixpoint for_each {A} (l : list A) (body : A -> M unit) : M unit :=
  match l with
  | [] => pass
  | a :: l' => body a;; for_each l' body
  end.

(** [range(n)] *)
Definition range (n : Z) : list Z := seqZ 0 n.

Definition _verify_all_pieces : M unit :=
  try_except
    (self ← get_pm;
     for_each (range (t_num_pieces (torrent self))) verify_one)
    (fun _ =>
       raise (ValueError
                "Make sure all files are available and complete before seeding")).

(** [int(k)] for the keys of a loaded [piece_progress], which
    [json.dump] wrote as decimal numbers. *)
Definition int_of_key (k : bytes) : result Z :=
  if Bencode.starts_with "-"%byte k
  then n ← Bencode.digits_value (skipn 1 k); Ok (- n)
  else Bencode.digits_value k.

(** [PieceManager(torrent, file_manager, seed_mode)], in a process
    where no other listener is subscribed to the bus. *)
Definition __init__ (tor : torrent_obj) (file_manager : FileManager.t)
    (d : disk) (ps : Progress.store) (seed_mode : bool) : result world :=
  let progress_file :=
    path_join2 (FileManager.output_path file_manager) (b "progress.json") in
  let fresh :=
    {| torrent := tor; pieces := ∅; have_pieces := ∅; failed_pieces := ∅;
       piece_progress := ∅; progress_file := progress_file |} in
  self ←
    (if seed_mode then Ok fresh
     else
       match Progress.load_progress ps progress_file with
       | None => Ok fresh
       | Some saved_progress =>
           pp ← Torrent.mapM
                  (fun kv => k ← int_of_key (fst kv); Ok (k, snd kv))
                  (Progress.doc_piece_progress saved_progress);
           Ok (set_piece_progress (fun _ => list_to_map (reverse pp))
                 (set_have_pieces
                    (fun _ => list_to_set (Progress.doc_have_pieces saved_progress))
                    fresh))
       end);
  let w :=
    {| pm := self; fm := file_manager; files_on_disk := d;
       progress_files := ps; published := [] |} in
  if seed_mode then
    match _verify_all_pieces w with
    | (Ok _, w') => Ok w'
    | (Raise e, _) => Raise e
    end
  else Ok w.

(** The loop [for i in self.have_pieces: bitfield[i] = True]. *)
Fixpoint set_bits (l : list Z) (bitfield : list bool) : result (list bool) :=
  match l with
  | [] => Ok bitfield
  | i :: l' => bitfield' ← list_setitem bitfield i true; set_bits l' bitfield'
  end.

Definition get_bitfield (self : t) : result (list bool) :=
  bitfield ← BitArray_of_length (t_num_pieces (torrent self));
  set_bits (elements (have_pieces self)) bitfield.

End PieceManager.

(** ** tracker.py: compact peer lists *)
Module Tracker.

Record t : Type := {
  torrent : Torrent.t;
  connected : bool;
  peer_id : option bytes;
  port : Z
}.

(** [Tracker(torrent)] *)
Definition __init__ (tor : Torrent.t) : t :=
  {| torrent := tor; connected := false; peer_id := None; port := 6881 |}.

(** [socket.inet_ntoa(packed)]: the dotted quad of 4 bytes. *)
Definition inet_ntoa (packed : bytes) : result bytes :=
  match packed with
  | [a0; a1; a2; a3] =>
      Ok (Bencode.dec (byte_to_Z a0) ++ b "." ++ Bencode.dec (byte_to_Z a1)
            ++ b "." ++ Bencode.dec (byte_to_Z a2) ++ b "."
            ++ Bencode.dec (byte_to_Z a3))
  | _ => Raise (IOError "packed IP wrong length for inet_ntoa")
  end.

(** [struct.unpack('!H', x)[0]] (and ['>H']): big-endian, 2 bytes. *)
Definition unpack_H (x : bytes) : result Z :=
  match x with
  | [hi; lo] => Ok (byte_to_Z hi * 256 + byte_to_Z lo)
  | _ => Raise (StructError "unpack requires a buffer of 2 bytes")
  end.

(** The body of [for i in range(0, len(peers), 6)], giving the peers to
    append. *)
Definition compact_entry (self : t) (peers : bytes) (i : nat)
  : result (list (bytes * Z)) :=
  if (i + 6 <=? length peers)%nat then
    ip ← inet_ntoa (slice peers i (i + 4));
    port ← unpack_H (slice peers (i + 4) (i + 6));
    if negb (bytes_eqb ip (b "127.0.0.1") && (port =? Tracker.port self))
    then Ok [(ip, port)]
    else Ok []
  else Ok [].

(** The compact-format loop of [_http_connect] on [peers], which is also
    the loop of [_udp_connect] on [peer_data = response[20:]]. *)
Definition compact_peers (self : t) (peers : bytes) : result (list (bytes * Z)) :=
  ls ← Torrent.mapM (compact_entry self peers) (range_step (length peers) 6);
  Ok (concat ls).

(** What the trackers answer: [ask k url] is the peer list that
    [_http_connect(url)] or [_udp_connect(url)] returns when it is the
    request number [k] of a [get_peers] call.  Both methods catch every
    exception of the exchange and return a list. *)
Definition oracle : Type := nat -> bytes -> list (bytes * Z).

(** [connect(announce_url)] as request number [k]. *)
Definition connect (ask : oracle) (k : nat) (announce_url : bytes)
  : result (list (bytes * Z)) :=
  if bytes_eqb (firstn 4 announce_url) (b "http") then Ok (ask k announce_url)
  else if bytes_eqb (firstn 3 announce_url) (b "udp") then Ok (ask k announce_url)
  else Raise (ValueError "Unsupported tracker protocol").

(** The loop [for tracker in tracker_list]: the peers found and the
    number of requests made so far. *)
Fixpoint try_group (ask : oracle) (k : nat) (tracker_list : list bytes)
  : list (bytes * Z) * nat :=
  match tracker_list with
  | [] => ([], k)
  | tracker :: rest =>
      match connect ask k tracker with
      | Ok [] => try_group ask (S k) rest
      | Ok new_peers => (new_peers, S k)
      | Raise _ => try_group ask k rest
      end
  end.

(** The loop [for tracker_list in all_trackers]. *)
Fixpoint try_groups (ask : oracle) (k : nat) (all_trackers : list (list bytes))
  : list (bytes * Z) * nat :=
  match all_trackers with
  | [] => ([], k)
  | tracker_list :: rest =>
      match try_group ask k tracker_list with
      | ([], k') => try_groups ask k' rest
      | found => found
      end
  end.

Definition fallback_trackers : list bytes :=
  [b "http://tracker.openbittorrent.com:80/announce";
   b "http://tracker.publicbt.com:80/announce";
   b "http://announce.torrentsmd.com:8080/announce";
   b "http://bt.xxx-tracker.com:2710/announce";
   b "http://retracker.mgts.by:80/announce"].

(** The loop [for fallback_url in fallback_trackers]. *)
Fixpoint try_fallbacks (ask : oracle) (k : nat) (urls : list bytes)
  : list (bytes * Z) :=
  match urls with
  | [] => []
  | fallback_url :: rest =>
      match ask k fallback_url with
      | [] => try_fallbacks ask (S k) rest
      | new_peers => new_peers
      end
  end.

(** The local peers added [for port in range(6881, 6885)]. *)
Definition local_test_peers : list (bytes * Z) :=
  map (fun port => (b "127.0.0.1", port)) (seqZ 6881 4).

Definition get_peers (self : t) (ask : oracle) : list (bytes * Z) :=
  let tor := torrent self in
  let all_trackers :=
    Torrent.announce_list tor
    ++ match Torrent.announce tor with
       | [] => []
       | announce => [[announce]]
       end in
  match try_groups ask 0 all_trackers with
  | ([], k) =>
      match try_fallbacks ask k fallback_trackers with
      | [] => local_test_peers
      | peers => peers
      end
  | (peers, _) => peers
  end.

End Tracker.

(** ** utils.py: the handshake *)

Definition pack_handshake (info_hash peer_id : bytes) : bytes :=
  byte_of_Z (len PROTOCOL_STR) :: PROTOCOL_STR ++ RESERVED ++ info_hash ++ peer_id.

Definition unpack_handshake (data : bytes) : result (bytes * bytes) :=
  match data with
  | [] => Raise (StructError "unpack requires a buffer of 1 bytes")
  | pstrlen :: _ =>
      if negb (byte_to_Z pstrlen =? 19)
         || negb (bytes_eqb (slice data 1 20) PROTOCOL_STR)
      then Raise (ValueError "Invalid protocol")
      else Ok (slice data 28 48, slice data 48 68)
  end.

Definition PEER_ID_PREFIX : bytes := b "-PC0001-".

(** [f"{n:05d}"] for [0 <= n < 100000]: the five decimal digits of [n],
    leading zeros included. *)
Definition format_05d (n : Z) : bytes :=
  map (fun k => byte_of_Z (48 + (n / 10 ^ k) mod 10)) [4; 3; 2; 1; 0].

(** [generate_peer_id()], when [int(time.time())] is [now] and the calls
    of [random.randint(0, 9)] give [draws]; [timestamp] is a remainder
    modulo 100000. *)
Definition generate_peer_id (now : Z) (draws : list Z) : bytes :=
  let timestamp := now mod 100000 in
  let random_chars := flat_map Bencode.dec draws in
  PEER_ID_PREFIX ++ format_05d timestamp ++ random_chars.

(** ** peer.py *)
Module Peer.

Inductive socket : Type := Open | Closed.

(** The attributes of a [Peer].  [message_handler] tells whether the
    message handling thread has been started. *)
Record t : Type := {
  ip : bytes;
  port : Z;
  torrent : Torrent.t;
  peer_id : bytes;
  is_seeding : bool;
  sock : option socket;
  choked : bool;
  bitfield : option bytes;
  closing : bool;
  message_handler : bool
}.

(** The names defined in the body of [class Peer]. *)
Definition methods : list string :=
  ["__init__"; "connect"; "handle_messages"; "process_message";
   "send_message"; "send_interested"; "send_unchoke"; "send_bitfield";
   "send_piece"; "request_pieces"; "piece_length"; "handle_incoming";
   "send_request"; "close"]%string.

(** The instance attributes assigned by [__init__] before it looks at
    [is_seeding]. *)
Definition init_attributes : list string :=
  ["ip"; "port"; "torrent"; "peer_id"; "piece_manager"; "is_seeding";
   "sock"; "choked"; "bitfield"; "closing"]%string.

(** [self.<name>] read in [__init__]. *)
Definition getattr (name : string) : result unit :=
  if bool_decide (name ∈ init_attributes ++ methods) then Ok tt
  else Raise (AttributeError ("'Peer' object has no attribute '" ++ name ++ "'")).

(** [Peer(ip, port, torrent, peer_id, piece_manager, is_seeding)]; the
    second component tells whether a listener was subscribed to
    ['piece_requested']. *)
Definition __init__ (ip : bytes) (port : Z) (tor : Torrent.t) (peer_id : bytes)
    (is_seeding : bool) : result (t * bool) :=
  let self :=
    {| ip := ip; port := port; torrent := tor; peer_id := peer_id;
       is_seeding := is_seeding; sock := None; choked := true;
       bitfield := None; closing := false; message_handler := false |} in
  if is_seeding then
    _ ← getattr "on_piece_requested";
    Ok (self, true)
  else Ok (self, false).

(** What the network does during one [connect]: the port the socket got
    from [bind] ([None]: [bind] raised), and the outcome of
    [sock.connect], of sending the handshake, of [sock.recv(68)] and of
    sending [interested]. *)
Record net : Type := {
  bound_port : option Z;
  tcp_connect : result unit;
  send_handshake : result unit;
  recv_handshake : result bytes;
  send_interested : result unit
}.

Definition set_sock (s : option socket) (self : t) : t :=
  {| ip := ip self; port := port self; torrent := torrent self;
     peer_id := peer_id self; is_seeding := is_seeding self; sock := s;
     choked := choked self; bitfield := bitfield self;
     closing := closing self; message_handler := message_handler self |}.

Definition start_handler (self : t) : t :=
  {| ip := ip self; port := port self; torrent := torrent self;
     peer_id := peer_id self; is_seeding := is_seeding self;
     sock := sock self; choked := choked self; bitfield := bitfield self;
     closing := closing self; message_handler := true |}.

(** The check made when the peer is at 127.0.0.1: the socket is bound
    to learn a local port; when that raises, or the peer's port is the
    local one or one of 6881..6889, the bare [except] replaces
    [self.sock] by a fresh socket. *)
Definition local_check (self : t) (env : net) : t :=
  if bytes_eqb (ip self) (b "127.0.0.1") then
    match bound_port env with
    | Some our_port =>
        if (our_port =? port self)
           || ((6881 <=? port self) && (port self <=? 6889))
        then set_sock (Some Open) self
        else self
    | None => set_sock (Some Open) self
    end
  else self.

(** The [try] block of [connect].  Creating a socket is taken to
    succeed. *)
Definition connect_body (self : t) (env : net) : result unit * t :=
  let self := set_sock (Some Open) self in
  let self := local_check self env in
  match tcp_connect env with
  | Raise e => (Raise e, self)
  | Ok _ =>
      match send_handshake env with
      | Raise e => (Raise e, self)
      | Ok _ =>
          match recv_handshake env with
          | Raise e => (Raise e, self)
          | Ok recv =>
              if negb (length recv =? 68)%nat
              then (Raise (Exception "Invalid handshake length"), self)
              else
                match unpack_handshake recv with
                | Raise e => (Raise e, self)
                | Ok (info_hash, _) =>
                    if negb (bytes_eqb info_hash
                               (Torrent.info_hash (torrent self)))
                    then (Raise (Exception "Info hash mismatch"), self)
                    else
                      let self := start_handler self in
                      if is_seeding self then (Ok tt, self)
                      else
                        match send_interested env with
                        | Raise e => (Raise e, self)
                        | Ok _ => (Ok tt, self)
                        end
                end
          end
      end
  end.

(** [connect()]: [True], or [False] after closing the socket. *)
Definition connect (self : t) (env : net) : bool * t :=
  match connect_body self env with
  | (Ok _, self') => (true, self')
  | (Raise _, self') =>
      match sock self' with
      | Some _ => (false, set_sock (Some Closed) self')
      | None => (false, self')
      end
  end.

Definition piece_length (self : t) (index : Z) : Z :=
  if index =? Torrent.num_pieces (torrent self) - 1
  then Torrent.total_length (torrent self)
       - index * Torrent.piece_length (torrent self)
  else Torrent.piece_length (torrent self).

(** *** Messages *)

(** [struct.pack] of unsigned big-endian fields: ['!I'] on 4 bytes and
    ['!B'] on 1 byte; a value outside the range of its field raises
    [struct.error]. *)
Definition pack_I (x : Z) : result bytes :=
  if (0 <=? x) && (x <? 4294967296) then Ok (Sha1.be_bytes 4 x)
  else Raise (StructError "argument out of range").

Definition pack_B (x : Z) : result bytes :=
  if (0 <=? x) && (x <? 256) then Ok [byte_of_Z x]
  else Raise (StructError "ubyte format requires 0 <= number <= 255").

(** [struct.unpack('!II', x)] and [struct.unpack('!III', x)]: the
    buffer must have the size of the format. *)
Definition unpack_II (x : bytes) : result (Z * Z) :=
  if (length x =? 8)%nat
  then Ok (Sha1.be_value (slice x 0 4), Sha1.be_value (slice x 4 8))
  else Raise (StructError "unpack requires a buffer of 8 bytes").

Definition unpack_III (x : bytes) : result (Z * Z * Z) :=
  if (length x =? 12)%nat
  then Ok (Sha1.be_value (slice x 0 4), Sha1.be_value (slice x 4 8),
           Sha1.be_value (slice x 8 12))
  else Raise (StructError "unpack requires a buffer of 12 bytes").

(** The bytes that [send_message(msg_id, payload)] builds. *)
Definition frame (msg_id : Z) (payload : bytes) : result bytes :=
  length ← pack_I (len payload + 1);
  mid ← pack_B msg_id;
  Ok (length ++ mid ++ payload).

(** A connection as a peer object lives it: the peer, the piece manager
    it shares with the client (and the world of that), and the messages
    put on the socket so far, oldest first. *)
Record session : Type := {
  peer : t;
  engine : PieceManager.world;
  outbox : list bytes
}.

(** Computations on a session that may raise; what was done before an
    exception stays done. *)
Definition Act (A : Type) : Type := session -> result A * session.

#[export] Instance Act_ret : MRet Act := fun A a s => (Ok a, s).
#[export] Instance Act_bind : MBind Act := fun A B k m s =>
  match m s with
  | (Ok a, s') => k a s'
  | (Raise e, s') => (Raise e, s')
  end.

Definition fail {A} (e : exn) : Act A := fun s => (Raise e, s).
Definition lift {A} (r : result A) : Act A := fun s => (r, s).
Definition get_self : Act t := fun s => (Ok (peer s), s).
Definition modify_self (f : t -> t) : Act unit := fun s =>
  (Ok tt, {| peer := f (peer s); engine := engine s; outbox := outbox s |}).
Definition skip : Act unit := mret tt.

(** A call of a method of [self.piece_manager]. *)
Definition on_engine {A} (m : PieceManager.M A) : Act A := fun s =>
  let '(r, w) := m (engine s) in
  (r, {| peer := peer s; engine := w; outbox := outbox s |}).

Definition set_choked (c : bool) (self : t) : t :=
  {| ip := ip self; port := port self; torrent := torrent self;
     peer_id := peer_id self; is_seeding := is_seeding self;
     sock := sock self; choked := c; bitfield := bitfield self;
     closing := closing self; message_handler := message_handler self |}.

Definition set_bitfield (bf : option bytes) (self : t) : t :=
  {| ip := ip self; port := port self; torrent := torrent self;
     peer_id := peer_id self; is_seeding := is_seeding self;
     sock := sock self; choked := choked self; bitfield := bf;
     closing := closing self; message_handler := message_handler self |}.

(** [self.sock.send(msg)]: a send on an open socket is taken to put the
    whole message on the wire; there is nothing to send on when
    [self.sock] is [None], and a closed socket refuses. *)
Definition sock_send (msg : bytes) : Act unit := fun s =>
  match sock (peer s) with
  | Some Open =>
      (Ok tt, {| peer := peer s; engine := engine s;
                 outbox := outbox s ++ [msg] |})
  | Some Closed => (Raise (IOError "Bad file descriptor"), s)
  | None =>
      (Raise (AttributeError "'NoneType' object has no attribute 'send'"), s)
  end.

(** [send_message]: the handler prints and re-raises. *)
Definition send_message (msg_id : Z) (payload : bytes) : Act unit :=
  msg ← lift (frame msg_id payload);
  sock_send msg.

Definition send_unchoke : Act unit :=
  send_message 1 [];;
  modify_self (set_choked false).

Definition send_bitfield (bitfield : list bool) : Act unit :=
  send_message 5 (tobytes bitfield).

Definition send_piece (index begin : Z) (block : bytes) : Act unit :=
  i ← lift (pack_I index);
  bg ← lift (pack_I begin);
  send_message 7 (i ++ bg ++ block).

Definition send_request (index begin length : Z) : Act unit :=
  i ← lift (pack_I index);
  bg ← lift (pack_I begin);
  l ← lift (pack_I length);
  send_message 6 (i ++ bg ++ l).

(** *** Requests *)

(** [index < len(self.bitfield) and self.bitfield[index]], for the
    bitfield built from [payload] and [0 <= index]. *)
Definition advertised (payload : bytes) (index : Z) : bool :=
  let bitfield := BitArray_of_bytes payload in
  (index <? len bitfield) && default false (bitfield !! Z.to_nat index).

(** The requests of the loop [for b in range(num_blocks)] for a piece. *)
Definition block_requests (index piece_len : Z) : list (Z * Z * Z) :=
  let num_blocks := (piece_len + BLOCK_SIZE - 1) / BLOCK_SIZE in
  map (fun blk =>
         let begin := blk * BLOCK_SIZE in
         (index, begin, Z.min BLOCK_SIZE (piece_len - begin)))
    (PieceManager.range num_blocks).

(** The calls of [send_request] that [request_pieces] makes, in order,
    as long as none raises. *)
Definition planned_requests (self : t) (pm : PieceManager.t) (payload : bytes)
  : list (Z * Z * Z) :=
  flat_map (fun index => block_requests index (piece_length self index))
    (List.filter
       (fun index =>
          negb (PieceManager.has_piece pm index) && advertised payload index)
       (PieceManager.range (Torrent.num_pieces (torrent self)))).

Fixpoint send_requests (reqs : list (Z * Z * Z)) : Act unit :=
  match reqs with
  | [] => skip
  | (index, begin, length) :: reqs' =>
      send_request index begin length;; send_requests reqs'
  end.

(** [request_pieces].  With no bitfield yet, [len(self.bitfield)] raises
    at the first piece that is not held. *)
Definition request_pieces : Act unit := fun s =>
  let pm := PieceManager.pm (engine s) in
  match bitfield (peer s) with
  | Some payload => send_requests (planned_requests (peer s) pm payload) s
  | None =>
      if forallb (PieceManager.has_piece pm)
           (PieceManager.range (Torrent.num_pieces (torrent (peer s))))
      then (Ok tt, s)
      else (Raise (TypeError "object of type 'NoneType' has no len()"), s)
  end.

(** *** Incoming messages *)

(** The loop [while len(buffer) >= 4] of [handle_messages]: the
    messages [(msg_id, payload)] handed to [process_message], in order,
    and the buffer that is left.  Every round takes at least 4 bytes from
    the buffer, so [length buffer] rounds are enough. *)
Fixpoint split_messages (fuel : nat) (buffer : bytes)
  : list (Z * bytes) * bytes :=
  match fuel with
  | O => ([], buffer)
  | S fuel' =>
      if len buffer <? 4 then ([], buffer)
      else
        let length := Sha1.be_value (slice buffer 0 4) in
        if len buffer <? 4 + length then ([], buffer)
        else
          let msg := slice buffer 4 (4 + Z.to_nat length) in
          let buffer := skipn (4 + Z.to_nat length) buffer in
          if length =? 0 then split_messages fuel' buffer
          else
            match msg with
            | [] => split_messages fuel' buffer
            | msg_id :: payload =>
                let '(msgs, rest) := split_messages fuel' buffer in
                ((byte_to_Z msg_id, payload) :: msgs, rest)
            end
      end.

Definition complete_messages (buffer : bytes) : list (Z * bytes) * bytes :=
  split_messages (List.length buffer) buffer.

(** [try: m except Exception: print(...)] *)
Definition swallow (m : Act unit) : Act unit := fun s =>
  match m s with
  | (Ok _, s') => (Ok tt, s')
  | (Raise _, s') => (Ok tt, s')
  end.

(** [process_message(msg_id, payload)].  [truth] is the truth value
    that the [bitstring] library gives to a [BitArray]. *)
Definition process_message (truth : list bool -> bool)
    (msg_id : Z) (payload : bytes) : Act unit :=
  swallow
    (me ← get_self;
     if msg_id =? 0 then modify_self (set_choked true)
     else if msg_id =? 1 then
       modify_self (set_choked false);;
       (if match bitfield me with
           | Some bf => truth (BitArray_of_bytes bf)
           | None => false
           end && negb (is_seeding me)
        then request_pieces else skip)
     else if msg_id =? 5 then
       modify_self (set_bitfield (Some payload));;
       (if negb (choked me) && negb (is_seeding me)
        then request_pieces else skip)
     else if msg_id =? 7 then
       (if negb (is_seeding me) then
          '(index, begin) ← lift (unpack_II (slice payload 0 8));
          on_engine (PieceManager.receive_block index begin (skipn 8 payload))
        else skip)
     else if msg_id =? 6 then
       (if is_seeding me then
          '(index, begin, length) ← lift (unpack_III payload);
          on_engine (PieceManager.publish (piece_requested index begin length))
        else skip)
     else if msg_id =? 2 then
       (if is_seeding me then send_unchoke else skip)
     else skip).

(** The messages of a buffer handed to [process_message] one after the
    other. *)
Fixpoint process_all (truth : list bool -> bool) (msgs : list (Z * bytes))
  : Act unit :=
  match msgs with
  | [] => skip
  | (msg_id, payload) :: msgs' =>
      process_message truth msg_id payload;; process_all truth msgs'
  end.

(** *** Incoming connections *)

(** [handle_incoming(conn)], where [recv] is the outcome of the calls on
    the accepted connection up to and including [recv(68)]. *)
Definition handle_incoming (recv : result bytes) : Act unit := fun s =>
  let close (s : session) : session :=
    {| peer := set_sock (Some Closed) (peer s); engine := engine s;
       outbox := outbox s |} in
  let body : Act unit :=
    modify_self (set_sock (Some Open));;
    recv ← lift recv;
    if negb (length recv =? 68)%nat
    then fail (Exception "Invalid handshake length")
    else
      '(info_hash, _) ← lift (unpack_handshake recv);
      me ← get_self;
      if negb (bytes_eqb info_hash (Torrent.info_hash (torrent me)))
      then fail (Exception "Info hash mismatch")
      else
        sock_send (pack_handshake (Torrent.info_hash (torrent me)) (peer_id me));;
        bitfield ← on_engine
                     (fun w => (PieceManager.get_bitfield (PieceManager.pm w), w));
        send_bitfield bitfield;;
        modify_self start_handler in
  match body s with
  | (Ok _, s') => (Ok tt, s')
  | (Raise SocketTimeout, s') => (Ok tt, close s')
  | (Raise e, s') => (Raise e, close s')
  end.

End Peer.

(** ** client.py *)
Module Client.

Record t : Type := {
  torrent : Torrent.t;
  output_dir : bytes;
  peer_id : bytes;
  port : Z;
  seed : bool;
  engine : PieceManager.world;
  tracker : Tracker.t;
  running : bool;
  download_complete : bool
}.

(** [Client(torrent_path, output_dir, seed)], on the content [data] of
    the torrent file, with [peer_id] the identifier drawn by
    [generate_peer_id].  The piece manager is built without a
    [seed_mode] argument. *)
Definition __init__ (data : bytes) (output_dir : bytes) (seed : bool)
    (peer_id : bytes) (d : disk) (ps : Progress.store) : result t :=
  tor ← Torrent.__init__ data;
  file_manager ← FileManager.__init__ (of_Torrent tor) output_dir;
  w ← PieceManager.__init__ (of_Torrent tor) file_manager d ps false;
  let tr := Tracker.__init__ tor in
  Ok {| torrent := tor; output_dir := output_dir; peer_id := peer_id;
        port := 6881; seed := seed; engine := w;
        tracker := {| Tracker.torrent := Tracker.torrent tr;
                      Tracker.connected := Tracker.connected tr;
                      Tracker.peer_id := Some peer_id; Tracker.port := 6881 |};
        running := false; download_complete := false |}.

(** The first loop of [_start_seeding]:
    [for i in range(num_pieces): have_pieces.add(i)]. *)
Definition assume_all_pieces (self : t) : t :=
  let w := engine self in
  let '(_, w') :=
    PieceManager.for_each
      (PieceManager.range (Torrent.num_pieces (torrent self)))
      (fun i => PieceManager.modify_pm
                  (PieceManager.set_have_pieces (union {[i]}))) w in
  {| torrent := torrent self; output_dir := output_dir self;
     peer_id := peer_id self; port := port self; seed := seed self;
     engine := w'; tracker := tracker self; running := running self;
     download_complete := download_complete self |}.

(** The body of the [while self.running] loop of [_start_seeding] once a
    connection from [addr] is accepted: the peer it builds, or [None]
    when the [except Exception] handler printed the error. *)
Definition accept_peer (self : t) (addr_ip : bytes) (addr_port : Z)
  : option Peer.t :=
  match Peer.__init__ addr_ip addr_port (torrent self) (peer_id self) true with
  | Ok (peer, _) => Some peer
  | Raise _ => None
  end.

End Client.

(** * Sample objects *)

(** A torrent of 10 bytes in pieces of 4 bytes. *)
Definition sample_torrent : Torrent.t :=
  Torrent.mk [] (sha1_hash (b "info")) (b "http://t/announce") [] 4
    [sha1_hash (b "abcd"); sha1_hash (b "efgh"); sha1_hash (b "ij")] 3
    [(b "x", 10)] 10 (b "x").

Definition sample_torrent_obj : torrent_obj :=
  {| t_info := [(b "name", Bencode.BStr (b "x")); (b "length", Bencode.BInt 10)];
     t_num_pieces := 3; t_piece_length := 4; t_total_length := 10;
     t_piece_hashes :=
       Some [sha1_hash (b "abcd"); sha1_hash (b "efgh"); sha1_hash (b "ij")] |}.

Definition sample_piece_manager : PieceManager.t :=
  {| PieceManager.torrent := sample_torrent_obj;
     PieceManager.pieces := ∅; PieceManager.have_pieces := ∅;
     PieceManager.failed_pieces := ∅; PieceManager.piece_progress := ∅;
     PieceManager.progress_file := b "/dl/progress.json" |}.

Definition sample_peer : Peer.t :=
  {| Peer.ip := b "10.0.0.2"; Peer.port := 6882; Peer.torrent := sample_torrent;
     Peer.peer_id := b "-PC0001-000000000000"; Peer.is_seeding := false;
     Peer.sock := None; Peer.choked := true; Peer.bitfield := None;
     Peer.closing := false; Peer.message_handler := false |}.

(** A network where the remote peer answers with the handshake of the
    torrent whose info-hash is [info_hash]. *)
Definition answering (info_hash : bytes) : Peer.net :=
  {| Peer.bound_port := Some 50000; Peer.tcp_connect := Ok tt;
     Peer.send_handshake := Ok tt;
     Peer.recv_handshake := Ok (pack_handshake info_hash (b "-XX0001-999999999999"));
     Peer.send_interested := Ok tt |}.

(** Trackers of a client listening on the default port and on 6889. *)
Definition default_tracker : Tracker.t := Tracker.__init__ sample_torrent.

Definition tracker_on_6889 : Tracker.t :=
  {| Tracker.torrent := sample_torrent; Tracker.connected := false;
     Tracker.peer_id := None; Tracker.port := 6889 |}.

(** A single-file torrent of one piece, the three bytes [abc], read
    through an object that has [piece_hashes]. *)
Definition one_piece : torrent_obj :=
  {| t_info := [(b "length", Bencode.BInt 3); (b "name", Bencode.BStr (b "x"))];
     t_num_pieces := 1; t_piece_length := 16384; t_total_length := 3;
     t_piece_hashes := Some [sha1_hash (b "abc")] |}.

Definition one_piece_files : FileManager.t :=
  {| FileManager.torrent := one_piece; FileManager.output_path := b "/dl";
     FileManager.files :=
       [{| FileManager.path := b "/dl/x"; FileManager.length := Some 3;
           FileManager.offset := 0 |}];
     FileManager.downloaded := 0 |}.

(** The engine of a download of [tor] into [/dl] that starts on the disk
    [d], with no saved progress. *)
Definition engine_on (tor : torrent_obj) (fm : FileManager.t) (d : disk)
  : PieceManager.world :=
  {| PieceManager.pm :=
       {| PieceManager.torrent := tor; PieceManager.pieces := ∅;
          PieceManager.have_pieces := ∅; PieceManager.failed_pieces := ∅;
          PieceManager.piece_progress := ∅;
          PieceManager.progress_file := b "/dl/progress.json" |};
     PieceManager.fm := fm;
     PieceManager.files_on_disk := d;
     PieceManager.progress_files := ∅;
     PieceManager.published := [] |}.

(** A single-file torrent of one piece of 16387 bytes: a full block and
    a final block of 3 bytes. *)
Definition two_blocks : torrent_obj :=
  {| t_info := [(b "length", Bencode.BInt 16387); (b "name", Bencode.BStr (b "y"))];
     t_num_pieces := 1; t_piece_length := 16387; t_total_length := 16387;
     t_piece_hashes := Some [sha1_hash (b "unknown content")] |}.

Definition two_blocks_files : FileManager.t :=
  {| FileManager.torrent := two_blocks; FileManager.output_path := b "/dl";
     FileManager.files :=
       [{| FileManager.path := b "/dl/y"; FileManager.length := Some 16387;
           FileManager.offset := 0 |}];
     FileManager.downloaded := 0 |}.

(** The metainfo file of the one-piece torrent, in canonical form. *)
Definition one_piece_file : bytes :=
  b "d8:announce17:http://t/announce4:infod6:lengthi3e4:name1:x12:piece lengthi16384e6:pieces20:"
    ++ sha1_hash (b "abc") ++ b "ee".

(** The same metainfo with the keys of the info dictionary in another
    order. *)
Definition unsorted_file : bytes :=
  b "d8:announce17:http://t/announce4:infod4:name1:x6:lengthi3e12:piece lengthi16384e6:pieces20:"
    ++ sha1_hash (b "abc") ++ b "ee".

(** The [Torrent] object of [one_piece_file]. *)
Definition one_piece_info : list (bytes * Bencode.bvalue) :=
  [(b "length", Bencode.BInt 3); (b "name", Bencode.BStr (b "x"));
   (b "piece length", Bencode.BInt 16384);
   (b "pieces", Bencode.BStr (sha1_hash (b "abc")))].

Definition one_piece_torrent : Torrent.t :=
  Torrent.mk one_piece_info
    (sha1_hash (Bencode.encode (Bencode.BDict one_piece_info)))
    (b "http://t/announce") [] 16384 [sha1_hash (b "abc")] 1 [(b "x", 3)] 3
    (b "x").

(** The info dictionary of [unsorted_file], byte for byte. *)
Definition unsorted_info_slice : bytes :=
  b "d4:name1:x6:lengthi3e12:piece lengthi16384e6:pieces20:"
    ++ sha1_hash (b "abc") ++ b "e".

(** A torrent object whose info dictionary has a [files] list and no
    [length]. *)
Definition multi_file : torrent_obj :=
  {| t_info := [(b "files", Bencode.BList []); (b "name", Bencode.BStr (b "m"))];
     t_num_pieces := 1; t_piece_length := 16384; t_total_length := 3;
     t_piece_hashes := Some [sha1_hash (b "abc")] |}.

(** * Vocabulary of the properties *)

(** The value of byte [j] of [x]. *)
Definition byte_at (x : bytes) (j : nat) : Z := byte_to_Z (nth j x "000"%byte).

(** Endpoint [i] of a compact peer list: the dotted quad of bytes
    [6i .. 6i+3] and the big-endian port of bytes [6i+4 .. 6i+5]. *)
Definition endpoint_at (peers : bytes) (i : nat) : bytes * Z :=
  (Bencode.dec (byte_at peers (6 * i)) ++ b "."
     ++ Bencode.dec (byte_at peers (6 * i + 1)) ++ b "."
     ++ Bencode.dec (byte_at peers (6 * i + 2)) ++ b "."
     ++ Bencode.dec (byte_at peers (6 * i + 3)),
   byte_at peers (6 * i + 4) * 256 + byte_at peers (6 * i + 5)).

(** The endpoint that the tracker client drops: its own port on the
    loopback address. *)
Definition is_local (self : Tracker.t) (ep : bytes * Z) : bool :=
  bytes_eqb (fst ep) (b "127.0.0.1") && (snd ep =? Tracker.port self).

(** The block slots of piece [index]: those being filled, or the empty
    slots that the arrival of a first block creates. *)
Definition current_slots (self : PieceManager.t) (index : Z)
  : list (option bytes) :=
  match PieceManager.pieces self !! index with
  | Some slots => slots
  | None =>
      repeat None
        (Z.to_nat ((PieceManager.piece_length self index + BLOCK_SIZE - 1)
                   / BLOCK_SIZE))
  end.

(** What a decoder consumed is decoded alike whatever follows it, with
    any fuel that is at least the number of bytes consumed. *)
Definition frames {A} (dec : nat -> bytes -> result (A * bytes))
    (x : bytes) (v : A) (rest : bytes) : Prop :=
  exists pre, x = pre ++ rest /\ (1 <= length pre)%nat
    /\ forall f' rest', (length pre <= f')%nat ->
         dec f' (pre ++ rest') = Ok (v, rest').

(** A dictionary entry and the raw bytes of its value. *)
Definition span_ok (kv : bytes * Bencode.bvalue) (ks : bytes * bytes) : Prop :=
  fst kv = fst ks /\ Bencode.decode (snd ks) = Ok (snd kv).

(** The bytes [\x7f\x00\x00\x01\x1a\xe1\x0a\x00\x00\x02\x1a\xe2]. *)
Definition two_peers : bytes :=
  map byte_of_Z [127; 0; 0; 1; 26; 225; 10; 0; 0; 2; 26; 226].

(** A file manager whose file list is the single entry that
    [_init_files] builds for an info dictionary with an integer
    [length]: the file at [p], of declared length [L]. *)
Definition single_file (fm : FileManager.t) (p : bytes) (L : Z) : Prop :=
  FileManager.files fm
  = [{| FileManager.path := p; FileManager.length := Some L;
        FileManager.offset := 0 |}].

(** The file manager after [self.downloaded += n]. *)
Definition add_downloaded (fm : FileManager.t) (n : Z) : FileManager.t :=
  {| FileManager.torrent := FileManager.torrent fm;
     FileManager.output_path := FileManager.output_path fm;
     FileManager.files := FileManager.files fm;
     FileManager.downloaded := FileManager.downloaded fm + n |}.

(** The absolute offset of the byte [begin] of piece [index]. *)
Definition abs_offset (fm : FileManager.t) (index begin : Z) : Z :=
  index * t_piece_length (FileManager.torrent fm) + begin.

(** The keep-alive message: a length prefix of zero. *)
Definition keep_alive : bytes := repeat (byte_of_Z 0) 4.

(** The bytes on the wire for a sequence of messages, [None] standing
    for a keep-alive. *)
Fixpoint wire (items : list (option (Z * bytes))) : result bytes :=
  match items with
  | [] => Ok []
  | None :: items' => rest ← wire items'; Ok (keep_alive ++ rest)
  | Some (msg_id, payload) :: items' =>
      msg ← Peer.frame msg_id payload;
      rest ← wire items';
      Ok (msg ++ rest)
  end.

(** A buffer that does not hold a complete message. *)
Definition incomplete (buffer : bytes) : Prop :=
  len buffer < 4 \/ len buffer < 4 + Sha1.be_value (slice buffer 0 4).

(** * Properties *)

(** ** Test vectors of the hash (FIPS 180) *)

Example sha1_abc :
  hex (sha1_hash (b "abc")) = "a9993e364706816aba3e25717850c26c9cd0d89d"%string.
Proof. vm_compute. reflexivity. Qed.

Example sha1_empty :
  hex (sha1_hash []) = "da39a3ee5e6b4b0d3255bfef95601890afd80709"%string.
Proof. vm_compute. reflexivity. Qed.

Example sha1_two_blocks :
  hex (sha1_hash (b "abcdbcdecdefdefgefghfghighijhijkijkljklmklmnlmnomnopnopq"))
  = "84983e441c3bd26ebaae4aa1f95129e5e54670f1"%string.
Proof. vm_compute. reflexivity. Qed.

(** ** Byte strings *)

Lemma bytes_eqb_eq (x y : bytes) : bytes_eqb x y = true <-> x = y.
Proof.
  revert y; induction x as [|c x IH]; intros [|d y]; simpl; split;
    try congruence; try done.
  - intros [Hc Hx]%andb_prop. apply Byte.byte_dec_bl in Hc.
    apply IH in Hx. congruence.
  - intros [= -> ->]. apply andb_true_intro; split.
    + apply Byte.byte_dec_lb; reflexivity.
    + apply IH; reflexivity.
Qed.

Lemma bytes_eqb_neq (x y : bytes) : bytes_eqb x y = false <-> x <> y.
Proof.
  rewrite <- bytes_eqb_eq. destruct (bytes_eqb x y); split; congruence.
Qed.

Lemma geb_false (x y : Z) : x < y -> (x >=? y) = false.
Proof. intros H. rewrite Z.geb_leb. apply Z.leb_gt. exact H. Qed.

(** ** Piece lengths (torrent.py, piece_manager.py) *)

(** C8.  For every index [i] of a torrent with [n] pieces, the piece
    length computed by [Torrent.piece_size] and by
    [PieceManager.piece_length] is [piece_length] when [i < n - 1], and
    [total_length - (n - 1) * piece_length] for the final piece
    [i = n - 1]. *)
Theorem piece_length_by_index (tor : Torrent.t) (self : PieceManager.t) (i : Z) :
  0 <= i < Torrent.num_pieces tor ->
  0 <= i < t_num_pieces (PieceManager.torrent self) ->
  (i < Torrent.num_pieces tor - 1 ->
     Torrent.piece_size tor i = Torrent.piece_length tor)
  /\ (i = Torrent.num_pieces tor - 1 ->
      Torrent.piece_size tor i
      = Torrent.total_length tor
        - (Torrent.num_pieces tor - 1) * Torrent.piece_length tor)
  /\ (i < t_num_pieces (PieceManager.torrent self) - 1 ->
      PieceManager.piece_length self i = t_piece_length (PieceManager.torrent self))
  /\ (i = t_num_pieces (PieceManager.torrent self) - 1 ->
      PieceManager.piece_length self i
      = t_total_length (PieceManager.torrent self)
        - (t_num_pieces (PieceManager.torrent self) - 1)
          * t_piece_length (PieceManager.torrent self)).
Proof.
  intros Hi Hj. unfold Torrent.piece_size, PieceManager.piece_length.
  repeat split; intros H.
  - destruct (Z.ltb_spec i (Torrent.num_pieces tor - 1)); [reflexivity | lia].
  - destruct (Z.ltb_spec i (Torrent.num_pieces tor - 1)); [lia | reflexivity].
  - destruct (Z.eqb_spec i (t_num_pieces (PieceManager.torrent self) - 1));
      [lia | reflexivity].
  - destruct (Z.eqb_spec i (t_num_pieces (PieceManager.torrent self) - 1));
      [subst; congruence | lia].
Qed.

Lemma piece_length_by_index_witness :
  (2 < Torrent.num_pieces sample_torrent - 1 ->
     Torrent.piece_size sample_torrent 2 = Torrent.piece_length sample_torrent)
  /\ (2 = Torrent.num_pieces sample_torrent - 1 ->
      Torrent.piece_size sample_torrent 2
      = Torrent.total_length sample_torrent
        - (Torrent.num_pieces sample_torrent - 1)
          * Torrent.piece_length sample_torrent)
  /\ (2 < t_num_pieces (PieceManager.torrent sample_piece_manager) - 1 ->
      PieceManager.piece_length sample_piece_manager 2
      = t_piece_length (PieceManager.torrent sample_piece_manager))
  /\ (2 = t_num_pieces (PieceManager.torrent sample_piece_manager) - 1 ->
      PieceManager.piece_length sample_piece_manager 2
      = t_total_length (PieceManager.torrent sample_piece_manager)
        - (t_num_pieces (PieceManager.torrent sample_piece_manager) - 1)
          * t_piece_length (PieceManager.torrent sample_piece_manager)).
Proof.
  apply (piece_length_by_index sample_torrent sample_piece_manager 2);
    simpl; lia.
Defined.

Example final_piece_is_short :
  Torrent.piece_size sample_torrent 2 = 2
  /\ PieceManager.piece_length sample_piece_manager 2 = 2.
Proof. split; reflexivity. Qed.

(** ** Seeding peers (peer.py, client.py) *)

(** C10.  Constructing a [Peer] with [is_seeding=True] raises
    [AttributeError]: [__init__] subscribes [self.on_piece_requested],
    and [Peer] defines no such attribute.  The seeding client therefore
    builds no peer for an accepted connection. *)
Theorem seeding_peer_init_raises
    (ip : bytes) (port : Z) (tor : Torrent.t) (peer_id : bytes) :
  Peer.__init__ ip port tor peer_id true
  = Raise (AttributeError "'Peer' object has no attribute 'on_piece_requested'")
  /\ is_ok (Peer.__init__ ip port tor peer_id false) = true
  /\ forall c : Client.t, Client.accept_peer c ip port = None.
Proof.
  split; [reflexivity | split; [reflexivity | intros c; reflexivity]].
Qed.

(** ** The handshake of an outbound connection (peer.py, utils.py) *)

Lemma connect_body_sock (self : Peer.t) (env : Peer.net) :
  Peer.sock (snd (Peer.connect_body self env)) = Some Peer.Open.
Proof.
  unfold Peer.connect_body, Peer.local_check.
  repeat (match goal with
          | |- context [match ?x with _ => _ end] => destruct x
          end; simpl; try reflexivity).
Qed.

Lemma connect_false_closed (self : Peer.t) (env : Peer.net) :
  fst (Peer.connect self env) = false ->
  Peer.sock (snd (Peer.connect self env)) = Some Peer.Closed.
Proof.
  unfold Peer.connect. pose proof (connect_body_sock self env) as Hs.
  destruct (Peer.connect_body self env) as [[u|e] self']; simpl in *.
  - discriminate.
  - rewrite Hs. reflexivity.
Qed.

(** C9.  When the 68-byte handshake response of an outbound connection
    carries an info-hash (bytes 28 to 48) different from the torrent's
    one, [connect] returns [False], the socket of the session is closed
    and the message handler is not started, whatever else the network
    does. *)
Theorem connect_rejects_foreign_info_hash
    (self : Peer.t) (env : Peer.net) (recv : bytes) :
  Peer.message_handler self = false ->
  Peer.recv_handshake env = Ok recv ->
  length recv = 68%nat ->
  slice recv 28 48 <> Torrent.info_hash (Peer.torrent self) ->
  let '(connected, self') := Peer.connect self env in
  connected = false
  /\ Peer.sock self' = Some Peer.Closed
  /\ Peer.message_handler self' = false.
Proof.
  intros Hmh Hrecv Hlen Hneq.
  assert (Hb : fst (Peer.connect_body self env) <> Ok tt
               /\ Peer.message_handler (snd (Peer.connect_body self env)) = false).
  { unfold Peer.connect_body, Peer.local_check. rewrite Hrecv, Hlen. simpl.
    assert (Hh : forall ih pid, unpack_handshake recv = Ok (ih, pid) ->
                 bytes_eqb ih (Torrent.info_hash (Peer.torrent self)) = false).
    { intros ih pid Hu. unfold unpack_handshake in Hu.
      destruct recv as [|c recv']; [discriminate|].
      destruct (_ || _); [discriminate|].
      injection Hu as <- _. apply bytes_eqb_neq. exact Hneq. }
    destruct (bytes_eqb (Peer.ip self) _), (Peer.bound_port env) as [p|];
      try destruct (_ || _); simpl;
      destruct (Peer.tcp_connect env), (Peer.send_handshake env); simpl;
      try (split; [discriminate | exact Hmh]);
      destruct (unpack_handshake recv) as [[ih pid]|e] eqn:Hu; simpl;
      try (split; [discriminate | exact Hmh]);
      rewrite (Hh ih pid eq_refl); simpl; (split; [discriminate | exact Hmh]). }
  destruct Hb as [Hne Hm].
  pose proof (connect_body_sock self env) as Hs.
  unfold Peer.connect.
  destruct (Peer.connect_body self env) as [[[]|e] self']; simpl in *.
  - congruence.
  - rewrite Hs. simpl. repeat split; auto.
Qed.

Lemma connect_rejects_foreign_info_hash_witness :
  let '(connected, self') :=
    Peer.connect sample_peer (answering (sha1_hash (b "another torrent"))) in
  connected = false
  /\ Peer.sock self' = Some Peer.Closed
  /\ Peer.message_handler self' = false.
Proof.
  apply (connect_rejects_foreign_info_hash sample_peer
           (answering (sha1_hash (b "another torrent")))
           (pack_handshake (sha1_hash (b "another torrent"))
              (b "-XX0001-999999999999"))).
  - reflexivity.
  - reflexivity.
  - vm_compute. reflexivity.
  - vm_compute. discriminate.
Defined.

Example connect_accepts_own_info_hash :
  let '(connected, self') :=
    Peer.connect sample_peer (answering (Torrent.info_hash sample_torrent)) in
  connected = true /\ Peer.sock self' = Some Peer.Open
  /\ Peer.message_handler self' = true.
Proof. vm_compute. repeat split. Qed.

(** ** Saved progress (progress_manager.py, piece_manager.py) *)

Lemma rfind_app (c : byte) (pre suf : bytes) :
  Progress.rfind c (pre ++ suf)
  = if 0 <=? Progress.rfind c suf then len pre + Progress.rfind c suf
    else Progress.rfind c pre.
Proof.
  induction pre as [|a pre IH]; simpl.
  - unfold len; simpl. destruct (Z.leb_spec 0 (Progress.rfind c suf)); [lia|].
    assert (Hge : -1 <= Progress.rfind c suf).
    { clear. induction suf as [|a suf IH]; simpl; [lia|].
      destruct (Z.leb_spec 0 (Progress.rfind c suf)); [lia|].
      destruct (Byte.eqb a c); lia. }
    lia.
  - rewrite IH. unfold len; simpl length.
    destruct (Z.leb_spec 0 (Progress.rfind c suf)).
    + destruct (Z.leb_spec 0 (Z.of_nat (length pre) + Progress.rfind c suf)); lia.
    + reflexivity.
Qed.

Lemma rfind_lt (c : byte) (p : bytes) : -1 <= Progress.rfind c p < len p.
Proof.
  unfold len. induction p as [|a p IH]; simpl length; simpl Progress.rfind; [lia|].
  destruct (Z.leb_spec 0 (Progress.rfind c p)); [lia|].
  destruct (Byte.eqb a c); lia.
Qed.

(** The progress file of a piece manager is [progress.json] in a
    directory: nothing, or a prefix that ends with a separator, before
    the file name. *)
Lemma progress_path_shape (out : bytes) :
  exists pre,
    path_join2 out (b "progress.json") = pre ++ b "progress.json"
    /\ Progress.rfind "/"%byte pre + 1 = len pre.
Proof.
  unfold path_join2. simpl starts_with_sep. cbv iota.
  destruct out as [|c out'] eqn:Hout.
  - exists []. split; reflexivity.
  - rewrite <- Hout. clear Hout.
    destruct (ends_with_sep out) eqn:He.
    + exists out. split; [reflexivity|].
      unfold ends_with_sep in He.
      destruct (rev out) as [|x r] eqn:Hr; [discriminate|].
      apply Byte.byte_dec_bl in He. subst x. apply (f_equal (@rev byte)) in Hr. rewrite rev_involutive in Hr.
      simpl in Hr. subst out. rewrite rfind_app. simpl.
      unfold len. rewrite length_app. simpl. lia.
    + exists (out ++ b "/"). split; [rewrite <- app_assoc; reflexivity|].
      rewrite rfind_app. simpl. unfold len. rewrite length_app. simpl. lia.
Qed.

Lemma splitext_progress_json (pre : bytes) :
  Progress.rfind "/"%byte pre + 1 = len pre ->
  Progress.splitext (pre ++ b "progress.json")
  = (pre ++ b "progress", b ".json").
Proof.
  intros Hpre. unfold Progress.splitext.
  rewrite !rfind_app.
  change (Progress.rfind "/"%byte (b "progress.json")) with (-1).
  change (Progress.rfind "."%byte (b "progress.json")) with 8.
  change (0 <=? -1) with false. change (0 <=? 8) with true. cbv iota.
  pose proof (rfind_lt "/"%byte pre) as Hlt.
  destruct (Z.ltb_spec (Progress.rfind "/"%byte pre) (len pre + 8)); [|lia].
  rewrite Hpre. unfold len.
  replace (Z.to_nat (Z.of_nat (length pre))) with (length pre) by lia.
  replace (Z.to_nat (Z.of_nat (length pre) + 8)) with (length pre + 8)%nat by lia.
  unfold slice.
  replace (length pre + 8 - length pre)%nat with 8%nat by lia.
  rewrite skipn_app, skipn_all, Nat.sub_diag. simpl skipn. simpl firstn.
  simpl forallb. cbv iota.
  rewrite firstn_app, skipn_app.
  rewrite firstn_all2 by lia.
  replace (length pre + 8 - length pre)%nat with 8%nat by lia.
  rewrite (skipn_all2 pre) by lia. reflexivity.
Qed.

(** C7.  The progress saved by [save_progress] under the path configured
    by the piece manager ([progress.json] in the output directory) is
    written to [progress.progress], while [load_progress] with the same
    path reads [progress.json.progress]: what [load_progress] returns is
    what it returned before the save, and nothing on a fresh store. *)
Theorem saved_progress_is_not_loaded
    (output_path : bytes) (fs : Progress.store) (data : Progress.progress_data) :
  let progress_file := path_join2 output_path (b "progress.json") in
  Progress.load_progress (Progress.save_progress fs progress_file data)
    progress_file
  = Progress.load_progress fs progress_file
  /\ Progress.load_progress (Progress.save_progress ∅ progress_file data)
       progress_file = None.
Proof.
  intros progress_file.
  assert (Hne : fst (Progress.splitext progress_file) ++ b ".progress"
                <> progress_file ++ b ".progress").
  { unfold progress_file.
    destruct (progress_path_shape output_path) as (pre & -> & Hpre).
    rewrite (splitext_progress_json pre Hpre). simpl fst.
    rewrite <- !app_assoc. intros H. apply app_inv_head in H. discriminate H. }
  unfold Progress.load_progress, Progress.save_progress.
  split.
  - apply lookup_insert_ne. exact Hne.
  - rewrite lookup_insert_ne by exact Hne. apply lookup_empty.
Qed.

(** ** Compact peer lists (tracker.py) *)

Lemma firstn_as_nth {A} (d : A) (n : nat) (l : list A) :
  (n <= length l)%nat ->
  firstn n l = map (fun i => nth i l d) (seq 0 n).
Proof.
  revert l. induction n as [|n IH]; intros l Hn; [reflexivity|].
  destruct l as [|a l]; simpl in Hn; [lia|].
  simpl. f_equal. rewrite <- seq_shift, map_map. apply IH. lia.
Qed.

Lemma slice_as_nth {A} (d : A) (x : list A) (lo n : nat) :
  (lo + n <= length x)%nat ->
  slice x lo (lo + n) = map (fun i => nth (lo + i) x d) (seq 0 n).
Proof.
  intros H. unfold slice. replace (lo + n - lo)%nat with n by lia.
  rewrite (firstn_as_nth d) by (rewrite length_skipn; lia).
  apply map_ext. intros i. apply nth_skipn.
Qed.

Lemma range_step_6 (k : nat) :
  range_step (6 * k) 6 = map (fun i => (i * 6)%nat) (seq 0 k).
Proof.
  unfold range_step. f_equal. f_equal.
  symmetry. apply (Nat.div_unique (6 * k + 6 - 1) 6 k 5); lia.
Qed.

Lemma mapM_map {A B C} (f : B -> result C) (h : A -> B) (g : A -> C)
    (l : list A) :
  (forall a, In a l -> f (h a) = Ok (g a)) ->
  Torrent.mapM f (map h l) = Ok (map g l).
Proof.
  induction l as [|a l IH]; intros H; [reflexivity|].
  cbn [map Torrent.mapM]. rewrite (H a) by (left; reflexivity).
  rewrite IH by (intros a' Ha'; apply H; right; exact Ha'). reflexivity.
Qed.

Lemma compact_entry_endpoint (self : Tracker.t) (peers : bytes) (k i : nat) :
  length peers = (6 * k)%nat -> (i < k)%nat ->
  Tracker.compact_entry self peers (i * 6)
  = Ok (List.filter (fun ep => negb (is_local self ep)) [endpoint_at peers i]).
Proof.
  intros Hlen Hi. unfold Tracker.compact_entry, is_local, endpoint_at, byte_at.
  replace (6 * i)%nat with (i * 6)%nat by lia.
  assert (Hj : (i * 6 + 6 <= length peers)%nat) by lia.
  revert Hj. generalize (i * 6)%nat as j. intros j Hj.
  destruct (Nat.leb_spec (j + 6) (length peers)) as [_|]; [|lia].
  rewrite (slice_as_nth "000"%byte peers j 4) by lia.
  replace (j + 6)%nat with (j + 4 + 2)%nat by lia.
  rewrite (slice_as_nth "000"%byte peers (j + 4) 2) by lia.
  simpl. rewrite !Nat.add_0_r.
  replace (j + 4 + 1)%nat with (j + 5)%nat by lia.
  destruct (_ && _); reflexivity.
Qed.

Lemma concat_filter_singletons {A B} (p : B -> bool) (e : A -> B) (l : list A) :
  concat (map (fun a => List.filter p [e a]) l) = List.filter p (map e l).
Proof.
  induction l as [|a l IH]; [reflexivity|].
  cbn [map concat]. rewrite IH. simpl. destruct (p (e a)); reflexivity.
Qed.

Lemma filter_all_true {A} (p : A -> bool) (l : list A) :
  (forall a, In a l -> p a = true) -> List.filter p l = l.
Proof.
  induction l as [|a l IH]; intros H; simpl; [reflexivity|].
  rewrite (H a) by (left; reflexivity). f_equal. apply IH.
  intros a' Ha'. apply H. right. exact Ha'.
Qed.

(** C6, as the code has it.  A compact peers string of length [6k]
    decodes to its [k] endpoints in order, endpoint [i] being the dotted
    quad of bytes [6i, 6i+4) and the big-endian port of bytes
    [6i+4, 6i+6), except that an endpoint equal to 127.0.0.1 with the
    client's own port is dropped; so exactly [k] endpoints come out when
    none of them is that local endpoint, and the bytes
    [\x7f\x00\x00\x01\x1a\xe1\x0a\x00\x00\x02\x1a\xe2] decode to
    [(127.0.0.1, 6881), (10.0.0.2, 6882)] when the client's port is not
    6881. *)
Theorem compact_peers_decoding (self : Tracker.t) (peers : bytes) (k : nat) :
  length peers = (6 * k)%nat ->
  Tracker.compact_peers self peers
  = Ok (List.filter (fun ep => negb (is_local self ep))
          (map (endpoint_at peers) (seq 0 k)))
  /\ ((forall i, (i < k)%nat -> is_local self (endpoint_at peers i) = false) ->
      exists eps, Tracker.compact_peers self peers = Ok eps
                  /\ length eps = k
                  /\ forall i, (i < k)%nat -> eps !! i = Some (endpoint_at peers i))
  /\ (Tracker.port self <> 6881 ->
      Tracker.compact_peers self two_peers
      = Ok [(b "127.0.0.1", 6881); (b "10.0.0.2", 6882)]).
Proof.
  intros Hlen.
  assert (Hgen : forall ps n, length ps = (6 * n)%nat ->
            Tracker.compact_peers self ps
            = Ok (List.filter (fun ep => negb (is_local self ep))
                    (map (endpoint_at ps) (seq 0 n)))).
  { intros ps n Hps. unfold Tracker.compact_peers.
    rewrite Hps, range_step_6.
    rewrite (mapM_map _ _ (fun i => List.filter (fun ep => negb (is_local self ep))
                                     [endpoint_at ps i])).
    - cbn [mbind result_bind]. f_equal.
      apply (concat_filter_singletons _ (endpoint_at ps)).
    - intros i Hi. apply in_seq in Hi.
      apply (compact_entry_endpoint self ps n i Hps). lia. }
  split; [exact (Hgen peers k Hlen)|]. split.
  - intros Hnone. eexists. split; [exact (Hgen peers k Hlen)|].
    rewrite filter_all_true.
    + split; [rewrite length_map, length_seq; reflexivity|].
      intros i Hi. rewrite list_lookup_fmap, lookup_seq_lt by lia. reflexivity.
    + intros ep Hep. apply in_map_iff in Hep as (i & <- & Hi).
      apply in_seq in Hi. rewrite Hnone by lia. reflexivity.
  - intros Hport. rewrite (Hgen two_peers 2%nat eq_refl).
    unfold is_local. simpl map.
    change (endpoint_at two_peers 0) with (b "127.0.0.1", 6881).
    change (endpoint_at two_peers 1) with (b "10.0.0.2", 6882).
    cbn [List.filter fst snd].
    change (bytes_eqb (b "127.0.0.1") (b "127.0.0.1")) with true.
    change (bytes_eqb (b "10.0.0.2") (b "127.0.0.1")) with false.
    rewrite (proj2 (Z.eqb_neq 6881 (Tracker.port self))) by congruence.
    reflexivity.
Qed.

Lemma compact_peers_decoding_witness :
  length two_peers = 12%nat
  /\ Tracker.compact_peers tracker_on_6889 two_peers
     = Ok [(b "127.0.0.1", 6881); (b "10.0.0.2", 6882)].
Proof.
  split; [reflexivity|].
  apply (compact_peers_decoding tracker_on_6889 two_peers 2).
  - reflexivity.
  - vm_compute. discriminate.
Defined.

(** C6, as stated, fails for a client on the default port 6881: the 12
    bytes of the example decode to the single endpoint (10.0.0.2, 6882). *)
Lemma compact_peers_drops_local_endpoint :
  length two_peers = (6 * 2)%nat
  /\ Tracker.port default_tracker = 6881
  /\ Tracker.compact_peers default_tracker two_peers = Ok [(b "10.0.0.2", 6882)]
  /\ Tracker.compact_peers default_tracker two_peers
     <> Ok [(b "127.0.0.1", 6881); (b "10.0.0.2", 6882)]
  /\ ~ (exists eps, Tracker.compact_peers default_tracker two_peers = Ok eps
                    /\ length eps = 2%nat).
Proof.
  assert (H : Tracker.compact_peers default_tracker two_peers
              = Ok [(b "10.0.0.2", 6882)]) by (vm_compute; reflexivity).
  split; [reflexivity|]. split; [reflexivity|]. split; [exact H|]. split.
  - rewrite H. discriminate.
  - intros (eps & Heps & Hl). rewrite H in Heps. injection Heps as <-.
    discriminate Hl.
Qed.

(** ** Verified pieces and the disk (piece_manager.py, file_manager.py) *)

(** Reduces the projections of the records of the piece manager. *)
Ltac proj_simpl :=
  cbn [PieceManager.pm PieceManager.fm PieceManager.files_on_disk
       PieceManager.progress_files PieceManager.published
       PieceManager.torrent PieceManager.pieces PieceManager.have_pieces
       PieceManager.failed_pieces PieceManager.piece_progress
       PieceManager.progress_file PieceManager.set_pieces
       PieceManager.set_have_pieces PieceManager.set_failed_pieces
       PieceManager.set_piece_progress PieceManager.piece_length fst snd] in *.

(** Unfolds the primitives of the computations of the piece manager. *)
Ltac unfold_M :=
  unfold PieceManager.get_pm, PieceManager.lift, PieceManager.modify_pm,
    PieceManager.pass, PieceManager.publish, PieceManager.raise,
    PieceManager.try_except;
  unfold mbind, mret, PieceManager.M_bind, PieceManager.M_ret;
  cbn beta iota.

Example file_manager_of_one_piece :
  FileManager.__init__ one_piece (b "/dl") = Ok one_piece_files.
Proof. reflexivity. Qed.

Example engine_of_one_piece (d : disk) :
  PieceManager.__init__ one_piece one_piece_files d ∅ false
  = Ok (engine_on one_piece one_piece_files d).
Proof. reflexivity. Qed.

(** A piece enters [have_pieces] through [on_piece_received] only when
    its SHA-1 is the expected hash of its index. *)
Lemma piece_marked_have_matched_hash
    (index : Z) (piece : bytes) (w : PieceManager.world) :
  let '(_, w') := PieceManager.on_piece_received index piece w in
  index ∉ PieceManager.have_pieces (PieceManager.pm w) ->
  index ∈ PieceManager.have_pieces (PieceManager.pm w') ->
  exists hashes,
    t_piece_hashes (PieceManager.torrent (PieceManager.pm w)) = Some hashes
    /\ list_getitem hashes index = Ok (sha1_hash piece).
Proof.
  unfold PieceManager.on_piece_received, PieceManager.expected_hash_of,
    get_piece_hashes.
  unfold_M.
  destruct (t_piece_hashes (PieceManager.torrent (PieceManager.pm w)))
    as [hashes|]; [|cbn; intros; contradiction].
  destruct (list_getitem hashes index) as [expected|e] eqn:Hget;
    [|cbn; intros; contradiction].
  destruct (bytes_eqb (sha1_hash piece) expected) eqn:Heq.
  - apply bytes_eqb_eq in Heq. subst expected.
    destruct (PieceManager.fm_write_piece index piece w) as [[ok|e] w1] eqn:Hw.
    + cbn. intros _ _. exists hashes. split; [reflexivity | exact Hget].
    + unfold PieceManager.fm_write_piece in Hw.
      destruct (FileManager.write_piece _ _ _ _) as [[r fm'] d'].
      injection Hw as _ <-. cbn. intros; contradiction.
  - cbn. intros; contradiction.
Qed.


Example written_piece_reads_back :
  let w := engine_on one_piece one_piece_files {[ b "/dl/x" := [] ]} in
  let w' := snd (PieceManager.receive_block 0 0 (b "abc") w) in
  PieceManager.has_piece (PieceManager.pm w') 0 = true
  /\ FileManager.read_piece (PieceManager.fm w') (PieceManager.files_on_disk w') 0
     = Ok (Some (b "abc")).
Proof. cbv zeta. split; vm_compute; reflexivity. Qed.

(** The progress saved after that piece is not found when the engine is
    started again on the same stores. *)
Example restart_forgets_saved_progress :
  let w' :=
    snd (PieceManager.receive_block 0 0 (b "abc")
           (engine_on one_piece one_piece_files {[ b "/dl/x" := [] ]})) in
  let restarted :=
    PieceManager.__init__ one_piece one_piece_files
      (PieceManager.files_on_disk w') (PieceManager.progress_files w') false in
  PieceManager.has_piece (PieceManager.pm w') 0 = true
  /\ ((fun w'' => PieceManager.has_piece (PieceManager.pm w'') 0) <$> restarted)
     = Ok false.
Proof. cbv zeta. split; vm_compute; reflexivity. Qed.

(** ** Block bounds (piece_manager.py) *)

(** C3, at an offset that is not a multiple of the block size.  For a
    piece of 16387 bytes, a block of 2 bytes at offset 16385 is stored in
    slot 1: the slot is [begin // 16384] and the expected length is
    [min(16384, piece_length - begin)], with no check of
    [begin % 16384]. *)
Theorem unaligned_block_is_stored :
  let w := engine_on two_blocks two_blocks_files ∅ in
  let r := fst (PieceManager.receive_block 0 16385 (b "ab") w) in
  let w' := snd (PieceManager.receive_block 0 16385 (b "ab") w) in
  16385 mod BLOCK_SIZE = 1
  /\ r = Ok tt
  /\ PieceManager.pieces (PieceManager.pm w') !! 0 = Some [None; Some (b "ab")].
Proof.
  cbv zeta. repeat split; vm_compute; reflexivity.
Qed.


(** The [Torrent] of torrent.py keeps its hashes under the name [pieces]:
    a piece manager given that object cannot read [piece_hashes], the
    hash check raises and is caught, and the complete piece stays in its
    slots, neither verified nor reset. *)
Example torrent_py_object_has_no_piece_hashes :
  let w := engine_on (of_Torrent one_piece_torrent) one_piece_files ∅ in
  let w' := snd (PieceManager.receive_block 0 0 (b "abc") w) in
  PieceManager.pieces (PieceManager.pm w') !! 0 = Some [Some (b "abc")]
  /\ PieceManager.has_piece (PieceManager.pm w') 0 = false
  /\ PieceManager.published w' = [].
Proof. cbv zeta. repeat split; vm_compute; reflexivity. Qed.

(** ** Seeding (client.py, piece_manager.py) *)

(** C5, on a disk whose content file holds other bytes than the
    torrent's.  A client started with [seed=True] builds its piece manager
    without [seed_mode], so no piece is read or hashed; [_start_seeding]
    then puts every index in [have_pieces].  The piece manager built with
    [seed_mode=True] on the same disk refuses to start. *)
Theorem seeding_start_trusts_the_disk :
  let d : disk := {[ b "/dl/x" := b "abd" ]} in
  let started :=
    Client.__init__ one_piece_file (b "/dl") true (b "-PC0001-000000000000") d ∅ in
  let held (c : Client.t) := PieceManager.has_piece (PieceManager.pm (Client.engine c)) 0 in
  (held <$> started) = Ok false
  /\ ((fun c => held (Client.assume_all_pieces c)) <$> started) = Ok true
  /\ ((fun c =>
         FileManager.read_piece (PieceManager.fm (Client.engine c))
           (PieceManager.files_on_disk (Client.engine (Client.assume_all_pieces c)))
           0) <$> started)
     = Ok (Ok (Some (b "abd")))
  /\ ((fun c => Torrent.verify_piece (Client.torrent c) 0 (b "abd")) <$> started)
     = Ok false
  /\ is_ok (PieceManager.__init__ one_piece one_piece_files d ∅ true) = false.
Proof.
  cbv zeta. repeat split; vm_compute; reflexivity.
Qed.

(** ** Hash failures (piece_manager.py) *)

(** [receive_block] never raises, whatever it is given. *)
Lemma receive_block_never_raises
    (index begin : Z) (block : bytes) (w : PieceManager.world) :
  fst (PieceManager.receive_block index begin block w) = Ok tt.
Proof.
  unfold PieceManager.receive_block, PieceManager.try_except, PieceManager.pass.
  destruct (PieceManager.receive_block_body index begin block w) as [[[]|e] w'];
    reflexivity.
Qed.




(** ** The info-hash (torrent.py) and the bencode codec *)

Section Decoder.
Import Bencode.

Lemma split_at_frame (c : byte) (x pre rest : bytes) :
  split_at c x = Ok (pre, rest) ->
  x = pre ++ c :: rest
  /\ forall rest', split_at c (pre ++ c :: rest') = Ok (pre, rest').
Proof.
  revert pre. induction x as [|a x IH]; intros pre H; simpl in H;
    [discriminate|].
  destruct (Byte.eqb a c) eqn:Hac.
  - injection H as <- <-. apply Byte.byte_dec_bl in Hac. subst a.
    split; [reflexivity|]. intros rest'. simpl.
    rewrite (Byte.byte_dec_lb eq_refl). reflexivity.
  - destruct (split_at c x) as [[p q]|e] eqn:Hs; simpl in H; [|discriminate].
    injection H as <- <-.
    destruct (IH p eq_refl) as [-> Hf].
    split; [reflexivity|]. intros rest'. simpl. rewrite Hac, Hf. reflexivity.
Qed.

Lemma starts_with_app (c : byte) (pre rest : bytes) :
  pre <> [] -> starts_with c (pre ++ rest) = starts_with c pre.
Proof. destruct pre; [congruence | reflexivity]. Qed.

(** A token decoded at the head of [x] is decoded alike, whatever
    follows it. *)
Lemma decode_int_frame (x : bytes) (n : Z) (rest : bytes) :
  starts_with "i"%byte x = true ->
  decode_int x = Ok (n, rest) ->
  exists pre, x = pre ++ rest /\ pre <> []
    /\ forall rest', decode_int (pre ++ rest') = Ok (n, rest').
Proof.
  intros Hi H. destruct x as [|a y]; [discriminate|].
  unfold decode_int in H. change (skipn 1 (a :: y)) with y in H.
  destruct (split_at "e"%byte y) as [[num r]|e] eqn:Hs; simpl in H;
    [|discriminate].
  destruct (split_at_frame _ _ _ _ Hs) as [-> Hf].
  assert (Hr : rest = r
               /\ forall rest', decode_int ((a :: num ++ ["e"%byte]) ++ rest')
                                = Ok (n, rest')).
  { assert (Hd : forall rest',
              decode_int ((a :: num ++ ["e"%byte]) ++ rest')
              = (if starts_with "-"%byte num
                 then n0 ← digits_value (skipn 1 num);
                      if starts_with "0"%byte (skipn 1 num)
                      then Raise (ValueError "negative zero")
                      else Ok (- n0, rest')
                 else n0 ← digits_value num;
                      if starts_with "0"%byte num && negb (length num =? 1)%nat
                      then Raise (ValueError "leading zero")
                      else Ok (n0, rest'))).
    { intros rest'. unfold decode_int.
      change (skipn 1 ((a :: num ++ ["e"%byte]) ++ rest'))
        with ((num ++ ["e"%byte]) ++ rest').
      rewrite <- app_assoc. simpl app. rewrite Hf. reflexivity. }
    destruct (starts_with "-"%byte num).
    - destruct (digits_value (skipn 1 num)) as [n0|]; simpl in H; [|discriminate].
      destruct (starts_with "0"%byte (skipn 1 num)) eqn:Hz; [discriminate|].
      injection H as <- <-. split; [reflexivity|].
      intros rest'. rewrite Hd. reflexivity.
    - destruct (digits_value num) as [n0|]; simpl in H; [|discriminate].
      destruct (_ && _) eqn:Hz; [discriminate|].
      injection H as <- <-. split; [reflexivity|].
      intros rest'. rewrite Hd. reflexivity. }
  destruct Hr as [-> Hr].
  exists (a :: num ++ ["e"%byte]). split; [|split].
  - simpl. rewrite <- app_assoc. reflexivity.
  - discriminate.
  - exact Hr.
Qed.

Lemma decode_string_frame (x : bytes) (s : bytes) (rest : bytes) :
  decode_string x = Ok (s, rest) ->
  exists pre, x = pre ++ rest /\ (2 <= length pre)%nat
    /\ forall rest', decode_string (pre ++ rest') = Ok (s, rest').
Proof.
  intros H. unfold decode_string in H.
  destruct (split_at ":"%byte x) as [[num r]|e] eqn:Hs; simpl in H;
    [|discriminate].
  destruct (split_at_frame _ _ _ _ Hs) as [-> Hf].
  destruct (digits_value num) as [n|e] eqn:Hn; simpl in H; [|discriminate].
  destruct (starts_with "0"%byte num && negb (length num =? 1)%nat) eqn:Hz;
    [discriminate|].
  destruct (Z.ltb_spec (Z.of_nat (length r)) n) as [|Hle]; [discriminate|].
  injection H as <- <-.
  assert (Hnum : num <> []).
  { intros ->. discriminate Hn. }
  assert (Hn0 : 0 <= n).
  { unfold digits_value in Hn. destruct num as [|c num]; [congruence|].
    destruct (forallb is_digit (c :: num)) eqn:Hd; [|discriminate].
    injection Hn as <-. clear -Hd.
    assert (G : forall l acc, forallb is_digit l = true -> 0 <= acc ->
                0 <= fold_left (fun a c => a * 10 + (byte_to_Z c - 48)) l acc).
    { induction l as [|d l IH]; intros acc Hl Ha; simpl; [exact Ha|].
      simpl in Hl. apply andb_prop in Hl as [Hd' Hl].
      apply IH; [exact Hl|]. unfold is_digit in Hd'.
      apply andb_prop in Hd' as [H1 _]. apply Z.leb_le in H1. lia. }
    apply (G (c :: num) 0 Hd). lia. }
  exists (num ++ ":"%byte :: firstn (Z.to_nat n) r). split; [|split].
  - rewrite <- app_assoc. simpl. rewrite firstn_skipn. reflexivity.
  - rewrite length_app. simpl. destruct num; [congruence|simpl; lia].
  - intros rest'. unfold decode_string.
    rewrite <- app_assoc. simpl app. rewrite Hf. simpl.
    rewrite Hn. simpl. rewrite Hz.
    assert (Hl : length (firstn (Z.to_nat n) r) = Z.to_nat n)
      by (apply firstn_length_le; lia).
    destruct (Z.ltb_spec (Z.of_nat (length (firstn (Z.to_nat n) r ++ rest'))) n)
      as [Hlt|_].
    + rewrite length_app, Hl in Hlt. lia.
    + f_equal. f_equal.
      * rewrite firstn_app, Hl, Nat.sub_diag. simpl.
        rewrite app_nil_r. apply firstn_all2. lia.
      * rewrite skipn_app, Hl, Nat.sub_diag. simpl.
        rewrite skipn_all2 by lia. reflexivity.
Qed.

Lemma decode_func_S (f : nat) (x : bytes) :
  decode_func (S f) x
  = if starts_with "i"%byte x then
      '(n, rest) ← decode_int x; Ok (BInt n, rest)
    else if starts_with "l"%byte x then decode_list f (skipn 1 x) []
    else if starts_with "d"%byte x then decode_dict f (skipn 1 x) []
    else if match x with c :: _ => is_digit c | [] => false end then
      '(s, rest) ← decode_string x; Ok (BStr s, rest)
    else Raise (KeyError "decode_func").
Proof. reflexivity. Qed.

Lemma decode_list_S (f : nat) (x : bytes) (r : list bvalue) :
  decode_list (S f) x r
  = if starts_with "e"%byte x then Ok (BList r, skipn 1 x)
    else '(v, x') ← decode_func f x; decode_list f x' (r ++ [v]).
Proof. reflexivity. Qed.

Lemma decode_dict_S (f : nat) (x : bytes) (r : list (bytes * bvalue)) :
  decode_dict (S f) x r
  = if starts_with "e"%byte x then Ok (BDict r, skipn 1 x)
    else '(k, x') ← decode_string x;
         '(v, x'') ← decode_func f x';
         decode_dict f x'' (dict_set r k v).
Proof. reflexivity. Qed.

Lemma starts_with_cons (c : byte) (x : bytes) :
  starts_with c x = true -> exists y, x = c :: y /\ skipn 1 x = y.
Proof.
  destruct x as [|a y]; [discriminate|]. simpl. intros H.
  apply Byte.byte_dec_bl in H. subst a. exists y. split; reflexivity.
Qed.

(** More fuel does not change a result. *)
Lemma decode_mono (f : nat) :
  (forall x res f', (f <= f')%nat ->
     decode_func f x = Ok res -> decode_func f' x = Ok res)
  /\ (forall x r res f', (f <= f')%nat ->
        decode_list f x r = Ok res -> decode_list f' x r = Ok res)
  /\ (forall x r res f', (f <= f')%nat ->
        decode_dict f x r = Ok res -> decode_dict f' x r = Ok res).
Proof.
  induction f as [|f (IHf & IHl & IHd)].
  - repeat split; intros; discriminate.
  - repeat split.
    + intros x res [|f'] Hle H; [lia|].
      rewrite decode_func_S in *.
      destruct (starts_with "i"%byte x); [exact H|].
      destruct (starts_with "l"%byte x); [apply (IHl _ _ _ f'); [lia|exact H]|].
      destruct (starts_with "d"%byte x); [apply (IHd _ _ _ f'); [lia|exact H]|].
      exact H.
    + intros x r res [|f'] Hle H; [lia|].
      rewrite decode_list_S in *.
      destruct (starts_with "e"%byte x); [exact H|].
      destruct (decode_func f x) as [[v x']|e] eqn:Hv; [|discriminate].
      rewrite (IHf _ _ f' ltac:(lia) Hv). cbn [mbind result_bind] in *.
      apply (IHl _ _ _ f'); [lia|exact H].
    + intros x r res [|f'] Hle H; [lia|].
      rewrite decode_dict_S in *.
      destruct (starts_with "e"%byte x); [exact H|].
      destruct (decode_string x) as [[k x']|e]; [|discriminate].
      cbn [mbind result_bind] in *.
      destruct (decode_func f x') as [[v x'']|e] eqn:Hv; [|discriminate].
      rewrite (IHf _ _ f' ltac:(lia) Hv). cbn [mbind result_bind] in *.
      apply (IHd _ _ _ f'); [lia|exact H].
Qed.

Lemma decode_frame (f : nat) :
  (forall x v rest,
     decode_func f x = Ok (v, rest) -> frames decode_func x v rest)
  /\ (forall x r v rest,
        decode_list f x r = Ok (v, rest) ->
        frames (fun f' y => decode_list f' y r) x v rest)
  /\ (forall x r v rest,
        decode_dict f x r = Ok (v, rest) ->
        frames (fun f' y => decode_dict f' y r) x v rest).
Proof.
  induction f as [|f (IHf & IHl & IHd)].
  - repeat split; intros; discriminate.
  - repeat split.
    + intros x v rest H. rewrite decode_func_S in H.
      destruct (starts_with "i"%byte x) eqn:Hi.
      { destruct (decode_int x) as [[n r]|e] eqn:Hn; [|discriminate].
        injection H as <- <-.
        destruct (decode_int_frame x n r Hi Hn) as (pre & -> & Hne & Hfr).
        exists pre. split; [reflexivity|]. split; [destruct pre; simpl; [congruence|lia]|].
        intros [|f'] rest' Hf'; [destruct pre; simpl in *; [congruence|lia]|].
        rewrite decode_func_S, starts_with_app by exact Hne.
        rewrite starts_with_app in Hi by exact Hne. rewrite Hi, Hfr.
        reflexivity. }
      destruct (starts_with "l"%byte x) eqn:Hl.
      { destruct (starts_with_cons _ _ Hl) as (y & -> & Hy). rewrite Hy in H.
        destruct (IHl _ _ _ _ H) as (pre & -> & Hne & Hfr).
        exists ("l"%byte :: pre). split; [reflexivity|]. split; [simpl; lia|].
        intros [|f'] rest' Hf'; [simpl in Hf'; lia|].
        rewrite decode_func_S. simpl. apply Hfr. simpl in Hf'. lia. }
      destruct (starts_with "d"%byte x) eqn:Hd.
      { destruct (starts_with_cons _ _ Hd) as (y & -> & Hy). rewrite Hy in H.
        destruct (IHd _ _ _ _ H) as (pre & -> & Hne & Hfr).
        exists ("d"%byte :: pre). split; [reflexivity|]. split; [simpl; lia|].
        intros [|f'] rest' Hf'; [simpl in Hf'; lia|].
        rewrite decode_func_S. simpl. apply Hfr. simpl in Hf'. lia. }
      destruct x as [|c x]; [discriminate|].
      destruct (is_digit c) eqn:Hc; [|discriminate].
      destruct (decode_string (c :: x)) as [[s r]|e] eqn:Hs; [|discriminate].
      injection H as <- <-.
      destruct (decode_string_frame _ _ _ Hs) as (pre & Hx & Hne & Hfr).
      exists pre. split; [exact Hx|]. split; [lia|].
      intros [|f'] rest' Hf'; [lia|].
      destruct pre as [|c' pre]; [simpl in Hne; lia|].
      injection Hx as <- ->.
      rewrite decode_func_S. simpl app. simpl starts_with in *.
      rewrite Hi, Hl, Hd, Hc. simpl app in Hfr. rewrite Hfr. reflexivity.
    + intros x r v rest H. rewrite decode_list_S in H.
      destruct (starts_with "e"%byte x) eqn:He.
      { destruct (starts_with_cons _ _ He) as (y & -> & Hy). rewrite Hy in H.
        injection H as <- <-.
        exists ["e"%byte]. split; [reflexivity|]. split; [simpl; lia|].
        intros [|f'] rest' Hf'; [simpl in Hf'; lia|]. reflexivity. }
      destruct (decode_func f x) as [[v1 x1]|e] eqn:Hv; [|discriminate].
      cbn [mbind result_bind] in H.
      destruct (IHf _ _ _ Hv) as (p1 & -> & Hn1 & Hf1).
      destruct (IHl _ _ _ _ H) as (p2 & -> & Hn2 & Hf2).
      exists (p1 ++ p2). split; [rewrite app_assoc; reflexivity|].
      split; [rewrite length_app; lia|].
      intros [|f'] rest' Hf'; [rewrite length_app in Hf'; lia|].
      rewrite length_app in Hf'.
      assert (Hp1 : p1 <> []) by (destruct p1; simpl in *; [lia|congruence]).
      rewrite decode_list_S, <- app_assoc, starts_with_app by exact Hp1.
      rewrite starts_with_app in He by exact Hp1. rewrite He.
      rewrite (Hf1 f' (p2 ++ rest')) by lia. cbn [mbind result_bind].
      apply Hf2. lia.
    + intros x r v rest H. rewrite decode_dict_S in H.
      destruct (starts_with "e"%byte x) eqn:He.
      { destruct (starts_with_cons _ _ He) as (y & -> & Hy). rewrite Hy in H.
        injection H as <- <-.
        exists ["e"%byte]. split; [reflexivity|]. split; [simpl; lia|].
        intros [|f'] rest' Hf'; [simpl in Hf'; lia|]. reflexivity. }
      destruct (decode_string x) as [[k x0]|e] eqn:Hk; [|discriminate].
      cbn [mbind result_bind] in H.
      destruct (decode_func f x0) as [[v1 x1]|e] eqn:Hv; [|discriminate].
      cbn [mbind result_bind] in H.
      destruct (decode_string_frame _ _ _ Hk) as (pk & -> & Hnk & Hfk).
      destruct (IHf _ _ _ Hv) as (p1 & -> & Hn1 & Hf1).
      destruct (IHd _ _ _ _ H) as (p2 & -> & Hn2 & Hf2).
      exists (pk ++ p1 ++ p2). split; [rewrite <- !app_assoc; reflexivity|].
      split; [rewrite !length_app; lia|].
      intros [|f'] rest' Hf'; [rewrite !length_app in Hf'; lia|].
      rewrite !length_app in Hf'.
      assert (Hpk : pk <> []) by (destruct pk; simpl in *; [lia|congruence]).
      rewrite decode_dict_S, <- !app_assoc, starts_with_app by exact Hpk.
      rewrite starts_with_app in He by exact Hpk. rewrite He.
      rewrite (Hfk (p1 ++ p2 ++ rest')). cbn [mbind result_bind].
      rewrite (Hf1 f' (p2 ++ rest')) by lia. cbn [mbind result_bind].
      apply Hf2. lia.
Qed.

Lemma decode_list_is_list (f : nat) (x : bytes) (r : list bvalue)
    (v : bvalue) (rest : bytes) :
  decode_list f x r = Ok (v, rest) -> exists l, v = BList l.
Proof.
  revert x r. induction f as [|f IH]; intros x r H; [discriminate|].
  rewrite decode_list_S in H.
  destruct (starts_with "e"%byte x).
  - injection H as <- _. eexists; reflexivity.
  - destruct (decode_func f x) as [[v1 x1]|e]; [|discriminate].
    exact (IH _ _ H).
Qed.

Lemma decode_func_dict (f : nat) (x : bytes) (d : list (bytes * bvalue))
    (rest : bytes) :
  decode_func f x = Ok (BDict d, rest) ->
  exists f0, f = S f0 /\ starts_with "d"%byte x = true
             /\ decode_dict f0 (skipn 1 x) [] = Ok (BDict d, rest).
Proof.
  destruct f as [|f]; intros H; [discriminate|].
  rewrite decode_func_S in H.
  destruct (starts_with "i"%byte x).
  { destruct (decode_int x) as [[n r]|e]; discriminate. }
  destruct (starts_with "l"%byte x).
  { destruct (decode_list_is_list _ _ _ _ _ H) as [l Hl]. discriminate. }
  destruct (starts_with "d"%byte x).
  { exists f. repeat split. exact H. }
  destruct (match x with [] => false | c :: _ => is_digit c end);
    [|discriminate].
  destruct (decode_string x) as [[s r]|e]; discriminate.
Qed.

Lemma dict_set_spans (r : list (bytes * bvalue)) (rs : list (bytes * bytes))
    (k : bytes) (v : bvalue) (raw : bytes) :
  Forall2 span_ok r rs -> decode raw = Ok v ->
  Forall2 span_ok (dict_set r k v) (dict_set rs k raw).
Proof.
  intros Hr Hraw. induction Hr as [|[k1 v1] [k2 raw2] r rs [Hk Hd] Hr IH];
    simpl.
  - constructor; [split; [reflexivity | exact Hraw] | constructor].
  - simpl in Hk, Hd. subst k2.
    destruct (bytes_eqb k1 k).
    + constructor; [split; [reflexivity | exact Hraw] | exact Hr].
    + constructor; [split; [reflexivity | exact Hd] | exact IH].
Qed.

Lemma dict_get_spans (d : list (bytes * bvalue)) (spans : list (bytes * bytes))
    (key : bytes) (v : bvalue) :
  Forall2 span_ok d spans -> dict_get d key = Some v ->
  exists raw, dict_get spans key = Some raw /\ decode raw = Ok v.
Proof.
  intros Hr. induction Hr as [|[k1 v1] [k2 raw2] r rs [Hk Hd] Hr IH];
    simpl; [discriminate|].
  simpl in Hk, Hd. subst k2. destruct (bytes_eqb k1 key).
  - intros [= <-]. exists raw2. split; [reflexivity | exact Hd].
  - exact IH.
Qed.

Lemma dict_spans_S (f : nat) (x : bytes) (r : list (bytes * bytes)) :
  dict_spans (S f) x r
  = if starts_with "e"%byte x then Ok r
    else '(k, x') ← decode_string x;
         '(_, x'') ← decode_func f x';
         dict_spans f x''
           (dict_set r k (firstn (length x' - length x'') x')).
Proof. reflexivity. Qed.

(** [dict_spans] follows the loop of [decode_dict] and records, for each
    value, bytes that decode to it. *)
Lemma dict_spans_parallel (f : nat) :
  forall x r v rest rs f',
    decode_dict f x r = Ok (v, rest) -> (f <= f')%nat ->
    Forall2 span_ok r rs ->
    exists d spans,
      v = BDict d /\ dict_spans f' x rs = Ok spans /\ Forall2 span_ok d spans.
Proof.
  induction f as [|f IH]; intros x r v rest rs f' H Hle Hrs; [discriminate|].
  destruct f' as [|f']; [lia|].
  rewrite decode_dict_S in H. rewrite dict_spans_S.
  destruct (starts_with "e"%byte x).
  - injection H as <- _. exists r, rs. repeat split. exact Hrs.
  - destruct (decode_string x) as [[k x0]|e]; [|discriminate].
    cbn [mbind result_bind] in *.
    destruct (decode_func f x0) as [[v1 x1]|e] eqn:Hv; [|discriminate].
    cbn [mbind result_bind] in H.
    rewrite (proj1 (decode_mono f) _ _ f' ltac:(lia) Hv).
    cbn [mbind result_bind].
    destruct (proj1 (decode_frame f) _ _ _ Hv) as (p1 & -> & Hn1 & Hf1).
    apply (IH _ _ _ _ _ f' H); [lia|].
    apply dict_set_spans; [exact Hrs|].
    rewrite length_app.
    replace (length p1 + length x1 - length x1)%nat with (length p1) by lia.
    rewrite firstn_app, Nat.sub_diag, firstn_all. simpl. rewrite app_nil_r.
    unfold decode.
    pose proof (Hf1 (enough_fuel p1) [] ltac:(unfold enough_fuel; lia)) as Hp.
    rewrite app_nil_r in Hp. rewrite Hp. reflexivity.
Qed.

(** The value that [bencodepy.decode] stores under a key of the
    top-level dictionary of a file is the decoding of the raw slice of
    that value. *)
Lemma decoded_value_of_raw_slice (data : bytes)
    (meta : list (bytes * bvalue)) (key : bytes) (v : bvalue) :
  decode data = Ok (BDict meta) ->
  dict_get meta key = Some v ->
  exists raw, raw_slice key data = Some raw /\ decode raw = Ok v.
Proof.
  unfold decode at 1. intros H Hget.
  destruct (decode_func (enough_fuel data) data) as [[v0 [|c rest]]|e] eqn:Hd;
    try discriminate.
  injection H as ->.
  destruct (decode_func_dict _ _ _ _ Hd) as (f0 & Hf0 & Hsw & Hdd).
  destruct (dict_spans_parallel f0 _ [] _ _ [] (enough_fuel data) Hdd
              ltac:(lia) ltac:(constructor))
    as (d & spans & Hdv & Hsp & Hrel).
  injection Hdv as <-.
  destruct (dict_get_spans _ _ _ _ Hrel Hget) as (raw & Hraw & Hdec).
  exists raw. split; [|exact Hdec].
  unfold raw_slice. rewrite Hsw, Hsp. exact Hraw.
Qed.

End Decoder.

(** What [Torrent.__init__] hashes: the re-encoding of the value it found
    under [info] in the decoded file. *)
Lemma info_hash_of_loaded_torrent (data : bytes) (t : Torrent.t) :
  Torrent.__init__ data = Ok t ->
  exists meta info_v,
    Bencode.decode data = Ok (Bencode.BDict meta)
    /\ Bencode.dict_get meta (b "info") = Some info_v
    /\ Torrent.info_hash t = sha1_hash (Bencode.encode info_v).
Proof.
  unfold Torrent.__init__. intros H.
  destruct (Torrent.init_body data) as [self|e] eqn:Hb; [|discriminate].
  injection H as ->. unfold Torrent.init_body in Hb.
  destruct (Bencode.decode data) as [meta_info|e] eqn:Hdec; [|discriminate].
  cbn [mbind result_bind] in Hb.
  destruct meta_info as [| | |meta]; try discriminate.
  destruct (Bencode.dict_get meta (b "info")) as [info_v|] eqn:Hinfo;
    [|discriminate].
  exists meta, info_v. split; [reflexivity|]. split; [exact Hinfo|].
  cbv zeta in Hb.
  generalize dependent (sha1_hash (Bencode.encode info_v)). intros h Hb.
  repeat match type of Hb with
         | (match ?x with _ => _ end) = _ =>
             destruct x eqn:?; try discriminate
         | (?m ≫= _) = _ =>
             destruct m eqn:?; cbn [mbind result_bind] in Hb; try discriminate
         | (if ?c then _ else _) = _ => destruct c eqn:?; try discriminate
         end.
  injection Hb as <-. reflexivity.
Qed.

(** C1, as the code has it.  For every torrent file loaded, the info-hash
    of the [Torrent] object is the SHA-1 of the re-encoding
    ([bencodepy.encode]) of the value parsed from the raw byte slice of
    the info dictionary of the file; it is the SHA-1 of that raw slice
    whenever the slice is in canonical form, that is whenever
    re-encoding gives the slice back. *)
Theorem info_hash_is_hash_of_reencoded_info (data : bytes) (t : Torrent.t) :
  Torrent.__init__ data = Ok t ->
  exists raw info_v,
    Bencode.raw_slice (b "info") data = Some raw
    /\ Bencode.decode raw = Ok info_v
    /\ Torrent.info_hash t = sha1_hash (Bencode.encode info_v)
    /\ (Bencode.encode info_v = raw -> Torrent.info_hash t = sha1_hash raw).
Proof.
  intros H.
  destruct (info_hash_of_loaded_torrent data t H) as (meta & info_v & Hd & Hg & Hh).
  destruct (decoded_value_of_raw_slice data meta (b "info") info_v Hd Hg)
    as (raw & Hraw & Hdec).
  exists raw, info_v. repeat split; try assumption.
  intros <-. exact Hh.
Qed.

Lemma info_hash_is_hash_of_reencoded_info_witness :
  exists raw info_v,
    Bencode.raw_slice (b "info") one_piece_file = Some raw
    /\ Bencode.decode raw = Ok info_v
    /\ Torrent.info_hash one_piece_torrent = sha1_hash (Bencode.encode info_v)
    /\ (Bencode.encode info_v = raw ->
        Torrent.info_hash one_piece_torrent = sha1_hash raw).
Proof.
  apply (info_hash_is_hash_of_reencoded_info one_piece_file one_piece_torrent).
  vm_compute. reflexivity.
Defined.

Example canonical_file_info_hash :
  (Some ∘ Torrent.info_hash <$> Torrent.__init__ one_piece_file)
  = Ok (sha1_hash <$> Bencode.raw_slice (b "info") one_piece_file).
Proof. vm_compute. reflexivity. Qed.

(** C1, as stated, fails on a torrent file whose info dictionary has its
    keys out of order: the file loads, and its info-hash is not the SHA-1
    of the raw slice of the info dictionary. *)
Lemma info_hash_differs_from_hash_of_raw_slice :
  is_ok (Torrent.__init__ unsorted_file) = true
  /\ Bencode.raw_slice (b "info") unsorted_file = Some unsorted_info_slice
  /\ (Torrent.info_hash <$> Torrent.__init__ unsorted_file)
     <> Ok (sha1_hash unsorted_info_slice)
  /\ (hex ∘ Torrent.info_hash <$> Torrent.__init__ unsorted_file)
     = Ok "fe929384ad5320686c8b761a8949b47f2e219b65"%string
  /\ hex (sha1_hash unsorted_info_slice)
     = "2cfe2cf7c26fda2b5c2870921d82ecd677344bbb"%string.
Proof.
  split; [vm_compute; reflexivity|].
  split; [vm_compute; reflexivity|].
  split; [vm_compute; discriminate|].
  split; vm_compute; reflexivity.
Qed.

(** ** The verification made in seed mode (piece_manager.py) *)

Lemma verify_one_ok (index : Z) (w w' : PieceManager.world) :
  PieceManager.verify_one index w = (Ok tt, w') ->
  w' = {| PieceManager.pm :=
            PieceManager.set_have_pieces (union {[index]}) (PieceManager.pm w);
          PieceManager.fm := PieceManager.fm w;
          PieceManager.files_on_disk := PieceManager.files_on_disk w;
          PieceManager.progress_files := PieceManager.progress_files w;
          PieceManager.published := PieceManager.published w |}
  /\ exists data hashes,
       FileManager.read_piece (PieceManager.fm w) (PieceManager.files_on_disk w)
         index = Ok (Some data)
       /\ t_piece_hashes (PieceManager.torrent (PieceManager.pm w)) = Some hashes
       /\ list_getitem hashes index = Ok (sha1_hash data).
Proof.
  unfold PieceManager.verify_one, PieceManager.fm_read_piece,
    PieceManager.expected_hash_of, get_piece_hashes.
  unfold_M.
  destruct (FileManager.read_piece _ _ index) as [[data|]|e]; try discriminate.
  destruct (t_piece_hashes _) as [hashes|]; [|discriminate].
  destruct (list_getitem hashes index) as [expected|e] eqn:Hg; [|discriminate].
  destruct (bytes_eqb (sha1_hash data) expected) eqn:Heq; [|discriminate].
  cbn [negb]. intros [= <-]. split; [reflexivity|].
  apply bytes_eqb_eq in Heq. subst expected.
  exists data, hashes. repeat split. exact Hg.
Qed.

Lemma verify_loop_ok (l : list Z) (w w' : PieceManager.world) :
  PieceManager.for_each l PieceManager.verify_one w = (Ok tt, w') ->
  PieceManager.fm w' = PieceManager.fm w
  /\ PieceManager.files_on_disk w' = PieceManager.files_on_disk w
  /\ PieceManager.torrent (PieceManager.pm w')
     = PieceManager.torrent (PieceManager.pm w)
  /\ PieceManager.have_pieces (PieceManager.pm w)
     ⊆ PieceManager.have_pieces (PieceManager.pm w')
  /\ forall i, i ∈ l ->
       i ∈ PieceManager.have_pieces (PieceManager.pm w')
       /\ exists data hashes,
            FileManager.read_piece (PieceManager.fm w)
              (PieceManager.files_on_disk w) i = Ok (Some data)
            /\ t_piece_hashes (PieceManager.torrent (PieceManager.pm w))
               = Some hashes
            /\ list_getitem hashes i = Ok (sha1_hash data).
Proof.
  revert w. induction l as [|a l IH]; intros w H.
  - cbn in H. injection H as <-.
    split; [reflexivity|]. split; [reflexivity|]. split; [reflexivity|].
    split; [reflexivity|]. intros i Hi. inversion Hi.
  - cbn [PieceManager.for_each] in H. unfold mbind, PieceManager.M_bind in H.
    destruct (PieceManager.verify_one a w) as [[[]|e] w1] eqn:H1; [|discriminate].
    destruct (verify_one_ok a w w1 H1) as (Hw1 & data & hashes & Hr & Hh & Hg).
    destruct (IH w1 H) as (Hfm & Hd & Ht & Hsub & Hall).
    subst w1. proj_simpl.
    split; [exact Hfm|]. split; [exact Hd|]. split; [exact Ht|].
    split; [intros x Hx; apply Hsub, elem_of_union_r, Hx|]. intros i Hi.
    apply elem_of_cons in Hi as [->|Hi].
    + split; [apply Hsub, elem_of_union_l, elem_of_singleton; reflexivity|].
      exists data, hashes. split; [exact Hr|]. split; [exact Hh | exact Hg].
    + exact (Hall i Hi).
Qed.

(** A piece manager built with [seed_mode=True] starts only when every
    piece read from disk has the expected hash, and then holds exactly
    the pieces it has checked. *)
Theorem seed_mode_verifies_every_piece
    (tor : torrent_obj) (fm : FileManager.t) (d : disk) (ps : Progress.store)
    (w : PieceManager.world) :
  PieceManager.__init__ tor fm d ps true = Ok w ->
  forall i, 0 <= i < t_num_pieces tor ->
    PieceManager.has_piece (PieceManager.pm w) i = true
    /\ exists data hashes,
         FileManager.read_piece fm d i = Ok (Some data)
         /\ t_piece_hashes tor = Some hashes
         /\ list_getitem hashes i = Ok (sha1_hash data).
Proof.
  unfold PieceManager.__init__. cbn [mbind result_bind].
  unfold PieceManager._verify_all_pieces. unfold_M. proj_simpl.
  set (w0 := {| PieceManager.pm := _ |}).
  destruct (PieceManager.for_each _ _ w0) as [[[]|e] w1] eqn:Hloop;
    [|discriminate].
  intros [= <-] i Hi.
  destruct (verify_loop_ok _ _ _ Hloop) as (_ & _ & _ & _ & Hall).
  destruct (Hall i) as (Hin & data & hashes & Hr & Hh & Hg).
  { unfold PieceManager.range. apply elem_of_seqZ. lia. }
  split.
  - unfold PieceManager.has_piece. apply bool_decide_eq_true. exact Hin.
  - exists data, hashes. repeat split; assumption.
Qed.

Lemma seed_mode_verifies_every_piece_witness :
  exists w,
    PieceManager.__init__ one_piece one_piece_files {[ b "/dl/x" := b "abc" ]} ∅ true
    = Ok w
    /\ PieceManager.has_piece (PieceManager.pm w) 0 = true.
Proof.
  destruct (PieceManager.__init__ one_piece one_piece_files
              {[ b "/dl/x" := b "abc" ]} ∅ true) as [w|e] eqn:H.
  - exists w. split; [reflexivity|].
    apply (seed_mode_verifies_every_piece one_piece one_piece_files
             {[ b "/dl/x" := b "abc" ]} ∅ w H 0).
    simpl. lia.
  - exfalso.
    assert (Hok : is_ok (PieceManager.__init__ one_piece one_piece_files
                           {[ b "/dl/x" := b "abc" ]} ∅ true) = true)
      by (vm_compute; reflexivity).
    rewrite H in Hok. discriminate Hok.
Defined.

(** * Further properties

    Properties of the functions around those of the sections above:
    what they do on errors and at the edges, what they keep invariant, and
    how they compose. *)

(** ** The handshake and the peer id (utils.py) *)

Lemma sha1_hash_length (x : bytes) : length (sha1_hash x) = 20%nat.
Proof.
  unfold sha1_hash, Sha1.digest.
  destruct (Sha1.blocks _ _ _) as [[[[h0 h1] h2] h3] h4].
  reflexivity.
Qed.

Lemma slice_app_mid {A} (x y z : list A) :
  slice (x ++ y ++ z) (length x) (length x + length y) = y.
Proof.
  unfold slice.
  rewrite drop_app_length.
  replace (length x + length y - length x)%nat with (length y) by lia.
  apply take_app_length.
Qed.

Lemma bytes_eqb_refl (x : bytes) : bytes_eqb x x = true.
Proof. apply bytes_eqb_eq. reflexivity. Qed.

Lemma slice_app_at {A} (x y z : list A) (lo hi : nat) :
  lo = length x -> hi = (lo + length y)%nat -> slice (x ++ y ++ z) lo hi = y.
Proof. intros -> ->. apply slice_app_mid. Qed.

Lemma pack_handshake_fields (info_hash peer_id : bytes) :
  length info_hash = 20%nat -> length peer_id = 20%nat ->
  let data := pack_handshake info_hash peer_id in
  length data = 68%nat
  /\ slice data 1 20 = PROTOCOL_STR
  /\ slice data 28 48 = info_hash
  /\ slice data 48 68 = peer_id.
Proof.
  intros Hi Hp data. subst data. unfold pack_handshake.
  set (c := byte_of_Z (len PROTOCOL_STR)).
  split; [|split; [|split]].
  - cbn [length]. rewrite !length_app, Hi, Hp. reflexivity.
  - apply (slice_app_at [c] PROTOCOL_STR (RESERVED ++ info_hash ++ peer_id));
      reflexivity.
  - apply (slice_app_at (c :: PROTOCOL_STR ++ RESERVED) info_hash peer_id).
    + reflexivity.
    + rewrite Hi. reflexivity.
  - replace (c :: PROTOCOL_STR ++ RESERVED ++ info_hash ++ peer_id)
      with ((c :: PROTOCOL_STR ++ RESERVED ++ info_hash) ++ peer_id ++ [])
      by (rewrite app_nil_r; cbn [app]; rewrite <- !app_assoc; reflexivity).
    apply slice_app_at.
    + cbn [length]. rewrite !length_app, Hi. reflexivity.
    + rewrite Hp. reflexivity.
Qed.

Lemma unpack_handshake_header (c : byte) (rest : bytes) :
  byte_to_Z c = 19 -> slice (c :: rest) 1 20 = PROTOCOL_STR ->
  unpack_handshake (c :: rest)
  = Ok (slice (c :: rest) 28 48, slice (c :: rest) 48 68).
Proof.
  intros Hc Hp. unfold unpack_handshake.
  rewrite Hc, Hp, bytes_eqb_refl. reflexivity.
Qed.

Lemma unpack_handshake_pack (info_hash peer_id : bytes) :
  length info_hash = 20%nat -> length peer_id = 20%nat ->
  length (pack_handshake info_hash peer_id) = 68%nat
  /\ unpack_handshake (pack_handshake info_hash peer_id)
     = Ok (info_hash, peer_id).
Proof.
  intros Hi Hp.
  destruct (pack_handshake_fields info_hash peer_id Hi Hp) as (H68 & H1 & H2 & H3).
  split; [exact H68|].
  unfold pack_handshake in *.
  rewrite unpack_handshake_header, H2, H3; [reflexivity | reflexivity | exact H1].
Qed.

(** The handshake packed for a 20-byte info-hash and a 20-byte peer id
    has 68 bytes: the length byte 19, the protocol string, 8 reserved
    bytes, the info-hash at [28:48] and the peer id at [48:68]; and
    unpacking it gives the info-hash and the peer id back. *)
Theorem handshake_round_trip (info_hash peer_id : bytes) :
  length info_hash = 20%nat -> length peer_id = 20%nat ->
  let data := pack_handshake info_hash peer_id in
  length data = 68%nat
  /\ slice data 0 1 = [byte_of_Z 19]
  /\ slice data 1 20 = PROTOCOL_STR
  /\ slice data 20 28 = RESERVED
  /\ slice data 28 48 = info_hash
  /\ slice data 48 68 = peer_id
  /\ unpack_handshake data = Ok (info_hash, peer_id).
Proof.
  intros Hi Hp data.
  destruct (pack_handshake_fields info_hash peer_id Hi Hp) as (H68 & H1 & H2 & H3).
  fold data in H68, H1, H2, H3.
  split; [exact H68|]. split; [reflexivity|]. split; [exact H1|].
  split.
  { subst data. unfold pack_handshake.
    apply (slice_app_at (byte_of_Z (len PROTOCOL_STR) :: PROTOCOL_STR) RESERVED
             (info_hash ++ peer_id)); reflexivity. }
  split; [exact H2|]. split; [exact H3|].
  subst data. unfold pack_handshake in *.
  rewrite unpack_handshake_header, H2, H3; [reflexivity | reflexivity | exact H1].
Qed.

Lemma handshake_round_trip_witness :
  unpack_handshake (pack_handshake (sha1_hash (b "info")) (b "-PC0001-000001234567"))
  = Ok (sha1_hash (b "info"), b "-PC0001-000001234567").
Proof.
  destruct (handshake_round_trip (sha1_hash (b "info")) (b "-PC0001-000001234567"))
    as (_ & _ & _ & _ & _ & _ & H).
  - apply sha1_hash_length.
  - reflexivity.
  - exact H.
Defined.

Lemma dec_digit (d : Z) : 0 <= d <= 9 -> length (Bencode.dec d) = 1%nat.
Proof.
  intros H.
  assert (C : d = 0 \/ d = 1 \/ d = 2 \/ d = 3 \/ d = 4 \/ d = 5 \/ d = 6
              \/ d = 7 \/ d = 8 \/ d = 9) by lia.
  repeat (destruct C as [-> | C]; [reflexivity |]). subst d. reflexivity.
Qed.

Lemma flat_map_length_const {A B} (f : A -> list B) (l : list A) (k : nat) :
  Forall (fun a => length (f a) = k) l ->
  length (flat_map f l) = (length l * k)%nat.
Proof.
  induction 1 as [| a l Ha _ IH]; [reflexivity |].
  cbn [flat_map length]. rewrite length_app, Ha, IH. lia.
Qed.

(** The peer id drawn by [generate_peer_id] has 20 bytes and starts with
    [-PC0001-], whatever the clock and the random digits; with the SHA-1
    of any data as info-hash it makes a handshake that unpacks to the
    same pair. *)
Theorem generated_peer_id_fits_handshake (now : Z) (draws : list Z) (data : bytes) :
  length draws = 7%nat -> Forall (fun d => 0 <= d <= 9) draws ->
  let peer_id := generate_peer_id now draws in
  length peer_id = 20%nat
  /\ firstn 8 peer_id = PEER_ID_PREFIX
  /\ unpack_handshake (pack_handshake (sha1_hash data) peer_id)
     = Ok (sha1_hash data, peer_id).
Proof.
  intros Hl Hd peer_id.
  assert (Hlen : length peer_id = 20%nat).
  { unfold peer_id, generate_peer_id.
    rewrite !length_app.
    rewrite (flat_map_length_const Bencode.dec draws 1).
    - rewrite Hl. reflexivity.
    - eapply Forall_impl; [exact Hd |]. intros d H. apply dec_digit, H. }
  split; [exact Hlen |]. split; [reflexivity |].
  apply unpack_handshake_pack; [apply sha1_hash_length | exact Hlen].
Qed.

Lemma generated_peer_id_fits_handshake_witness :
  length (generate_peer_id 1762387200 [3; 1; 4; 1; 5; 9; 2]) = 20%nat.
Proof.
  apply (generated_peer_id_fits_handshake 1762387200 [3; 1; 4; 1; 5; 9; 2] []).
  - reflexivity.
  - repeat constructor; lia.
Defined.

(** ** Loaded torrents (torrent.py) *)

Lemma range_step_mul (s k : nat) :
  (0 < s)%nat -> range_step (s * k) s = map (fun i => (i * s)%nat) (seq 0 k).
Proof.
  intros Hs. unfold range_step. f_equal. f_equal.
  symmetry. apply (Nat.div_unique (s * k + s - 1) s k (s - 1)); lia.
Qed.

Lemma piece_table (s : bytes) (k : nat) :
  length s = (20 * k)%nat ->
  map (fun i => slice s i (i + 20)) (range_step (length s) 20)
  = map (fun i => slice s (i * 20) (i * 20 + 20)) (seq 0 k).
Proof.
  intros ->. rewrite range_step_mul by lia. rewrite map_map. reflexivity.
Qed.

Lemma loaded_torrent_fields (data : bytes) (t : Torrent.t) :
  Torrent.__init__ data = Ok t ->
  exists meta info s k,
    Bencode.decode data = Ok (Bencode.BDict meta)
    /\ Bencode.dict_get meta (b "info") = Some (Bencode.BDict info)
    /\ Torrent.info t = info
    /\ Bencode.dict_get info (b "piece length")
       = Some (Bencode.BInt (Torrent.piece_length t))
    /\ Bencode.dict_get info (b "pieces") = Some (Bencode.BStr s)
    /\ length s = (20 * k)%nat
    /\ Torrent.pieces t
       = map (fun i => slice s (i * 20) (i * 20 + 20)) (seq 0 k)
    /\ Torrent.num_pieces t = Z.of_nat k
    /\ Torrent.total_length t = Torrent.sumZ (map snd (Torrent.files t))
    /\ (Bencode.dict_get info (b "files") = None ->
        Torrent.files t = [(Torrent.name t, Torrent.total_length t)]
        /\ Bencode.dict_get info (b "length")
           = Some (Bencode.BInt (Torrent.total_length t))).
Proof.
  unfold Torrent.__init__. intros H.
  destruct (Torrent.init_body data) as [self|e] eqn:Hb; [|discriminate].
  injection H as ->. unfold Torrent.init_body in Hb.
  destruct (Bencode.decode data) as [meta_info|e] eqn:Hdec; [|discriminate].
  cbn [mbind result_bind] in Hb.
  destruct meta_info as [| | |meta]; try discriminate.
  destruct (Bencode.dict_get meta (b "info")) as [info_v|] eqn:Hinfo;
    [|discriminate].
  cbv zeta in Hb.
  generalize dependent (sha1_hash (Bencode.encode info_v)). intros h Hb.
  destruct (Bencode.dict_get meta (b "announce")) as [ann|]; [|discriminate].
  destruct (Torrent.decode_utf8 ann) as [announce|]; [|discriminate].
  cbn [mbind result_bind] in Hb.
  match type of Hb with
  | (?m ≫= _) = _ => destruct m as [al|]; [|discriminate]
  end.
  cbn [mbind result_bind] in Hb.
  destruct info_v as [| | |info]; try discriminate.
  destruct (Bencode.dict_get info (b "piece length")) as [pl|] eqn:Hpl;
    [|discriminate].
  destruct pl as [pl| | |]; try discriminate.
  cbn [Torrent.as_int mbind result_bind] in Hb.
  destruct (Bencode.dict_get info (b "pieces")) as [ps|] eqn:Hps;
    [|discriminate].
  destruct ps as [|s | |]; try discriminate.
  destruct (length s mod 20 =? 0)%nat eqn:Hmod; [|discriminate].
  cbn [negb] in Hb.
  apply Nat.eqb_eq in Hmod.
  destruct (Bencode.dict_get info (b "name")) as [nm|]; [|discriminate].
  destruct (Torrent.decode_utf8 nm) as [name|]; [|discriminate].
  cbn [mbind result_bind] in Hb.
  assert (Hk : length s = (20 * (length s / 20))%nat).
  { pose proof (Nat.div_mod_eq (length s) 20). lia. }
  exists meta, info, s, (length s / 20)%nat.
  rewrite <- (piece_table s _ Hk).
  destruct (Bencode.dict_get info (b "files")) as [fs|] eqn:Hfs.
  - destruct (Torrent.py_iter fs) as [entries|]; [|discriminate].
    cbn [mbind result_bind] in Hb.
    destruct (Torrent.mapM Torrent.file_entry entries) as [files|];
      [|discriminate].
    cbn [mbind result_bind] in Hb. injection Hb as <-.
    cbn [Torrent.info Torrent.piece_length Torrent.pieces Torrent.num_pieces
         Torrent.total_length Torrent.files Torrent.name].
    repeat (split; [reflexivity || assumption |]).
    split.
    { rewrite (piece_table s _ Hk), length_map, length_seq. reflexivity. }
    split; [reflexivity | discriminate].
  - destruct (Bencode.dict_get info (b "length")) as [ln|] eqn:Hln;
      [|discriminate].
    destruct ln as [l| | |]; try discriminate.
    cbn [Torrent.as_int mbind result_bind] in Hb. injection Hb as <-.
    cbn [Torrent.info Torrent.piece_length Torrent.pieces Torrent.num_pieces
         Torrent.total_length Torrent.files Torrent.name].
    repeat (split; [reflexivity || assumption |]).
    split.
    { rewrite (piece_table s _ Hk), length_map, length_seq. reflexivity. }
    split; [reflexivity |]. intros _. split; reflexivity.
Qed.

Lemma concat_slices {A} (n k : nat) : forall s : list A,
  length s = (n * k)%nat ->
  concat (map (fun i => slice s (i * n) (i * n + n)) (seq 0 k)) = s.
Proof.
  induction k as [|k IH]; intros s Hs.
  - destruct s; [reflexivity | cbn in Hs; lia].
  - cbn [seq map concat]. rewrite <- seq_shift, map_map.
    transitivity (firstn n s ++ skipn n s); [| apply firstn_skipn]. f_equal.
    + unfold slice. cbn [Nat.mul Nat.add skipn]. f_equal. lia.
    + rewrite <- (IH (skipn n s)) by (rewrite length_skipn; lia).
      f_equal. apply map_ext. intros i. unfold slice.
      rewrite !skipn_skipn. f_equal; [lia |]. f_equal. lia.
Qed.

Lemma slice_length {A} (s : list A) (lo hi : nat) :
  (lo <= hi)%nat -> (hi <= length s)%nat -> length (slice s lo hi) = (hi - lo)%nat.
Proof.
  intros H1 H2. unfold slice. rewrite length_firstn, length_skipn. lia.
Qed.

Lemma loaded_torrent_pieces (data : bytes) (t : Torrent.t) :
  Torrent.__init__ data = Ok t ->
  Torrent.num_pieces t = len (Torrent.pieces t)
  /\ Forall (fun h => length h = 20%nat) (Torrent.pieces t)
  /\ Bencode.dict_get (Torrent.info t) (b "pieces")
     = Some (Bencode.BStr (concat (Torrent.pieces t))).
Proof.
  intros H.
  destruct (loaded_torrent_fields data t H)
    as (meta & info & s & k & _ & _ & Hi & _ & Hp & Hs & Hps & Hn & _).
  split; [| split].
  - rewrite Hn, Hps. unfold len. rewrite length_map, length_seq. reflexivity.
  - rewrite Hps. apply Forall_forall. intros h Hin.
    apply list_elem_of_In, in_map_iff in Hin. destruct Hin as (i & <- & Hin).
    apply in_seq in Hin. rewrite slice_length; lia.
  - rewrite Hi, Hp, Hps, (concat_slices 20 k s) by lia. reflexivity.
Qed.

(** Every torrent file that loads gives a consistent object:
    [num_pieces] counts the entries of [pieces], every entry and the
    info-hash have the 20 bytes of a SHA-1 digest, the entries are the
    [pieces] string of the info dictionary cut in order, the total
    length is the sum of the lengths of the file entries, and a torrent
    without a [files] key has the single entry [(name, length)]. *)
Theorem loaded_torrent_is_consistent (data : bytes) (t : Torrent.t) :
  Torrent.__init__ data = Ok t ->
  Torrent.num_pieces t = len (Torrent.pieces t)
  /\ Forall (fun h => length h = 20%nat) (Torrent.pieces t)
  /\ Bencode.dict_get (Torrent.info t) (b "pieces")
     = Some (Bencode.BStr (concat (Torrent.pieces t)))
  /\ length (Torrent.info_hash t) = 20%nat
  /\ Torrent.total_length t = Torrent.sumZ (map snd (Torrent.files t))
  /\ (Bencode.dict_get (Torrent.info t) (b "files") = None ->
      Torrent.files t = [(Torrent.name t, Torrent.total_length t)]
      /\ Bencode.dict_get (Torrent.info t) (b "length")
         = Some (Bencode.BInt (Torrent.total_length t))).
Proof.
  intros H.
  destruct (loaded_torrent_pieces data t H) as (Hn & Hall & Hcat).
  destruct (loaded_torrent_fields data t H)
    as (meta & info & s & k & _ & _ & Hi & _ & _ & _ & _ & _ & Ht & Hf).
  destruct (info_hash_of_loaded_torrent data t H) as (_ & iv & _ & _ & Hh).
  split; [exact Hn|]. split; [exact Hall|]. split; [exact Hcat|].
  split; [rewrite Hh; apply sha1_hash_length|].
  rewrite Hi. split; assumption.
Qed.

Lemma loaded_torrent_is_consistent_witness :
  Torrent.num_pieces one_piece_torrent = len (Torrent.pieces one_piece_torrent).
Proof.
  apply (loaded_torrent_is_consistent one_piece_file one_piece_torrent).
  vm_compute. reflexivity.
Defined.

(** On a loaded torrent [get_piece_hash] answers exactly on the indices
    [0 <= index < num_pieces], with a 20-byte hash, and [verify_piece]
    accepts a piece exactly when the index is one of those and the SHA-1
    of the data is that hash. *)
Theorem loaded_torrent_piece_hash (data : bytes) (t : Torrent.t)
    (index : Z) (piece_data : bytes) :
  Torrent.__init__ data = Ok t ->
  (is_ok (Torrent.get_piece_hash t index) = true
   <-> 0 <= index < Torrent.num_pieces t)
  /\ (forall h, Torrent.get_piece_hash t index = Ok h -> length h = 20%nat)
  /\ (Torrent.verify_piece t index piece_data = true
      <-> Torrent.get_piece_hash t index = Ok (sha1_hash piece_data)).
Proof.
  intros H.
  destruct (loaded_torrent_pieces data t H) as (Hn & Hall & _).
  unfold Torrent.get_piece_hash, Torrent.verify_piece.
  destruct ((0 <=? index) && (index <? Torrent.num_pieces t)) eqn:Hr.
  - apply andb_true_iff in Hr. destruct Hr as [H0 H1].
    apply Z.leb_le in H0. apply Z.ltb_lt in H1.
    destruct (Torrent.pieces t !! Z.to_nat index) as [h|] eqn:Hl.
    + split; [| split].
      * cbn. split; [lia | reflexivity].
      * intros h' [= <-].
        rewrite Forall_forall in Hall. apply Hall.
        eapply list_elem_of_lookup_2, Hl.
      * split.
        -- intros E. apply bytes_eqb_eq in E. rewrite E. reflexivity.
        -- intros [= <-]. apply bytes_eqb_eq. reflexivity.
    + apply lookup_ge_None in Hl. unfold len in Hn. lia.
  - apply andb_false_iff in Hr.
    split; [| split].
    + cbn. split; [discriminate |]. intros [H0 H1].
      destruct Hr as [Hr | Hr]; [apply Z.leb_gt in Hr | apply Z.ltb_ge in Hr]; lia.
    + discriminate.
    + split; discriminate.
Qed.

Lemma loaded_torrent_piece_hash_witness :
  is_ok (Torrent.get_piece_hash one_piece_torrent 0) = true
  <-> 0 <= 0 < Torrent.num_pieces one_piece_torrent.
Proof.
  apply (loaded_torrent_piece_hash one_piece_file one_piece_torrent 0 []).
  vm_compute. reflexivity.
Defined.

Lemma sumZ_snoc (l : list Z) (x : Z) :
  Torrent.sumZ (l ++ [x]) = Torrent.sumZ l + x.
Proof. unfold Torrent.sumZ. rewrite fold_left_app. reflexivity. Qed.

Lemma seqZ_snoc (m : nat) : seqZ 0 (Z.of_nat (S m)) = seqZ 0 (Z.of_nat m) ++ [Z.of_nat m].
Proof.
  replace (Z.of_nat (S m)) with (Z.of_nat m + 1) by lia.
  rewrite seqZ_app by lia. reflexivity.
Qed.

(** The piece sizes of a torrent with at least one piece add up to its
    total length: full pieces before the last one, and the rest in the
    last. *)
Theorem piece_sizes_add_up (t : Torrent.t) :
  1 <= Torrent.num_pieces t ->
  Torrent.sumZ
    (map (Torrent.piece_size t) (PieceManager.range (Torrent.num_pieces t)))
  = Torrent.total_length t.
Proof.
  intros Hn. unfold PieceManager.range.
  assert (Hfull : forall m : nat, Z.of_nat m <= Torrent.num_pieces t - 1 ->
            Torrent.sumZ (map (Torrent.piece_size t) (seqZ 0 (Z.of_nat m)))
            = Z.of_nat m * Torrent.piece_length t).
  { induction m as [|m IH]; intros Hm; [reflexivity |].
    rewrite seqZ_snoc, map_app. simpl (map _ [_]).
    rewrite sumZ_snoc, IH by lia. unfold Torrent.piece_size.
    destruct (Z.ltb_spec (Z.of_nat m) (Torrent.num_pieces t - 1)); lia. }
  replace (Torrent.num_pieces t)
    with (Z.of_nat (S (Z.to_nat (Torrent.num_pieces t - 1)))) at 1 by lia.
  rewrite seqZ_snoc, map_app. simpl (map _ [_]).
  rewrite sumZ_snoc, Hfull by lia. unfold Torrent.piece_size.
  rewrite !Z2Nat.id by lia. rewrite Z.ltb_irrefl. lia.
Qed.

Lemma piece_sizes_add_up_witness :
  Torrent.sumZ
    (map (Torrent.piece_size sample_torrent)
       (PieceManager.range (Torrent.num_pieces sample_torrent)))
  = Torrent.total_length sample_torrent.
Proof. apply (piece_sizes_add_up sample_torrent). vm_compute. discriminate. Defined.

(** ** Blocks on disk (file_manager.py) *)

Lemma pread_pwrite (content data : bytes) (off : Z) :
  0 <= off ->
  FileManager.pread (FileManager.pwrite content off data) off (len data) = data.
Proof.
  intros Hoff. unfold FileManager.pread, FileManager.pwrite, len.
  destruct (Z.ltb_spec (Z.of_nat (length data)) 0) as [H|_]; [lia|].
  rewrite Nat2Z.id.
  destruct data as [|c data]; [reflexivity|].
  set (dt := c :: data).
  destruct (Nat.leb_spec (Z.to_nat off) (length content)) as [H|H].
  - rewrite drop_app_length' by (rewrite length_take; lia).
    apply take_app_length.
  - rewrite app_assoc.
    rewrite drop_app_length' by (rewrite length_app, repeat_length; lia).
    apply firstn_all.
Qed.

Lemma pwrite_length (content data : bytes) (off : Z) :
  0 <= off -> data <> [] ->
  length (FileManager.pwrite content off data)
  = Nat.max (length content) (Z.to_nat off + length data).
Proof.
  intros Hoff Hd. unfold FileManager.pwrite.
  destruct data as [|c data]; [contradiction|]. set (dt := c :: data).
  destruct (Nat.leb_spec (Z.to_nat off) (length content)) as [H|H].
  - rewrite !length_app, length_firstn, length_skipn. lia.
  - rewrite !length_app, repeat_length. lia.
Qed.

Lemma file_manager_init (tor : torrent_obj) (out : bytes) (fm : FileManager.t) :
  FileManager.__init__ tor out = Ok fm ->
  FileManager.torrent fm = tor
  /\ FileManager.downloaded fm = 0
  /\ exists p,
       FileManager.files fm
       = [{| FileManager.path := p;
             FileManager.length :=
               match Bencode.dict_get (t_info tor) (b "length") with
               | Some (Bencode.BInt l) => Some l
               | _ => None
               end;
             FileManager.offset := 0 |}].
Proof.
  unfold FileManager.__init__. intros H.
  destruct (FileManager._init_files tor out) as [files|] eqn:Hf; [|discriminate].
  cbn [mbind result_bind] in H. injection H as <-.
  cbn [FileManager.torrent FileManager.downloaded FileManager.files].
  split; [reflexivity|]. split; [reflexivity|].
  unfold FileManager._init_files in Hf.
  match type of Hf with
  | (?m ≫= _) = _ => destruct m as [name|]; [|discriminate]
  end.
  cbn [mbind result_bind] in Hf. injection Hf as <-.
  eexists. reflexivity.
Qed.

Lemma firstn_min_block (block : bytes) (n r : Z) :
  n = len block -> 0 < r ->
  slice block (Z.to_nat 0) (Z.to_nat (0 + Z.min n r))
  = firstn (Z.to_nat r) block.
Proof.
  intros -> Hr. unfold slice, len. change (Z.to_nat 0) with 0%nat.
  rewrite Nat.sub_0_r, Z.add_0_l. change (skipn 0 block) with block.
  destruct (Z.le_ge_cases (Z.of_nat (length block)) r) as [H|H].
  - rewrite Z.min_l by lia. rewrite !firstn_all2 by lia. reflexivity.
  - rewrite Z.min_r by lia. reflexivity.
Qed.

Lemma write_block_single (fm : FileManager.t) (p : bytes) (L : Z) (d : disk)
    (index begin : Z) (block content : bytes) :
  single_file fm p L ->
  0 <= abs_offset fm index begin < L ->
  d !! p = Some content ->
  FileManager.write_block fm d index begin block
  = (Ok true, add_downloaded fm (len block),
     <[p := FileManager.pwrite content (abs_offset fm index begin)
              (firstn (Z.to_nat (L - abs_offset fm index begin)) block)]> d).
Proof.
  unfold single_file, abs_offset. intros Hf Hoff Hd.
  unfold FileManager.write_block. rewrite Hf.
  set (off := index * t_piece_length (FileManager.torrent fm) + begin) in *.
  cbn [FileManager.write_loop FileManager.length FileManager.offset
       FileManager.path].
  destruct (Z.geb_spec off (0 + L)) as [H|_]; [lia|].
  destruct (Z.ltb_spec off 0) as [H|_]; [lia|].
  rewrite Hd. rewrite Z.sub_0_r.
  rewrite (firstn_min_block block (len block) (L - off)) by lia.
  destruct (_ =? 0); unfold add_downloaded; rewrite Hf; reflexivity.
Qed.

Lemma write_loop_keeps_names (fs : list FileManager.file_rec) (block : bytes)
    (q : bytes) : forall (offset block_offset remaining : Z) (d : disk),
  (FileManager.write_loop fs block offset block_offset remaining d).2 !! q = None
  <-> d !! q = None.
Proof.
  induction fs as [|f fs IH]; intros offset block_offset remaining d;
    [reflexivity|].
  cbn [FileManager.write_loop].
  destruct (FileManager.length f) as [flen|]; [|reflexivity].
  destruct (offset >=? FileManager.offset f + flen); [apply IH|].
  destruct (offset <? FileManager.offset f); [apply IH|].
  destruct (d !! FileManager.path f) as [content|] eqn:Hd; [|reflexivity].
  assert (Hins : forall v, <[FileManager.path f := v]> d !! q = None <-> d !! q = None).
  { intros v. destruct (decide (q = FileManager.path f)) as [->|Hne].
    - rewrite lookup_insert_eq, Hd. split; discriminate.
    - rewrite lookup_insert_ne by congruence. reflexivity. }
  destruct (_ =? 0); [apply Hins|].
  rewrite IH. apply Hins.
Qed.

(** [write_block] never creates a file and never removes one: the files
    that exist after a call are those that existed before, whatever the
    arguments. *)
Theorem write_block_creates_no_file (fm : FileManager.t) (d : disk)
    (index begin : Z) (block q : bytes) :
  (FileManager.write_block fm d index begin block).2 !! q = None
  <-> d !! q = None.
Proof.
  unfold FileManager.write_block.
  rewrite <- (write_loop_keeps_names (FileManager.files fm) block q
                (index * t_piece_length (FileManager.torrent fm) + begin) 0
                (len block) d).
  destruct (FileManager.write_loop _ _ _ _ _ _) as [[[|]|] d']; reflexivity.
Qed.

Lemma write_block_outside (fm : FileManager.t) (p : bytes) (L : Z)
    (d : disk) (index begin : Z) (block : bytes) :
  single_file fm p L ->
  abs_offset fm index begin < 0 \/ L <= abs_offset fm index begin ->
  FileManager.write_block fm d index begin block
  = (Ok true, add_downloaded fm (len block), d).
Proof.
  unfold single_file, abs_offset. intros Hf Hoff.
  unfold FileManager.write_block. rewrite Hf.
  set (off := index * t_piece_length (FileManager.torrent fm) + begin) in *.
  cbn [FileManager.write_loop FileManager.length FileManager.offset
       FileManager.path].
  destruct (Z.geb_spec off (0 + L)) as [H|H];
    [|destruct (Z.ltb_spec off 0) as [H'|H']; [|lia]];
    unfold add_downloaded; rewrite Hf; reflexivity.
Qed.

(** The two ways in which [write_block] stores nothing.  A block for a
    file that does not exist is refused: the call returns [False] and
    changes neither the disk nor the byte counter.  A block whose
    offset lies outside the file is dropped without a word: the call
    returns [True] and counts the block as downloaded. *)
Theorem write_block_without_effect (fm : FileManager.t) (p : bytes) (L : Z)
    (d : disk) (index begin : Z) (block : bytes) :
  single_file fm p L ->
  (0 <= abs_offset fm index begin < L -> d !! p = None ->
   FileManager.write_block fm d index begin block = (Ok false, fm, d))
  /\ (abs_offset fm index begin < 0 \/ L <= abs_offset fm index begin ->
      FileManager.write_block fm d index begin block
      = (Ok true, add_downloaded fm (len block), d)).
Proof.
  intros Hf. split; [|apply (write_block_outside fm p L); exact Hf].
  unfold single_file, abs_offset in *. intros Hoff Hd.
  unfold FileManager.write_block. rewrite Hf.
  set (off := index * t_piece_length (FileManager.torrent fm) + begin) in *.
  cbn [FileManager.write_loop FileManager.length FileManager.offset
       FileManager.path].
  destruct (Z.geb_spec off (0 + L)) as [H|_]; [lia|].
  destruct (Z.ltb_spec off 0) as [H|_]; [lia|].
  rewrite Hd. reflexivity.
Qed.

Lemma read_block_single (fm : FileManager.t) (p : bytes) (L : Z) (d : disk)
    (index begin n : Z) (content : bytes) :
  single_file fm p L ->
  0 <= abs_offset fm index begin < L ->
  d !! p = Some content ->
  FileManager.read_block fm d index begin n
  = let blk := FileManager.pread content (abs_offset fm index begin)
                 (Z.min n (L - abs_offset fm index begin)) in
    if len blk =? n then Ok (Some blk) else Ok None.
Proof.
  unfold single_file, abs_offset. intros Hf Hoff Hd.
  unfold FileManager.read_block. rewrite Hf.
  set (off := index * t_piece_length (FileManager.torrent fm) + begin) in *.
  cbn [FileManager.read_loop FileManager.length FileManager.offset
       FileManager.path].
  destruct (Z.geb_spec off (0 + L)) as [H|_]; [lia|].
  destruct (Z.ltb_spec off 0) as [H|_]; [lia|].
  rewrite Hd, Z.sub_0_r. cbn [app].
  destruct (_ - _ =? 0); reflexivity.
Qed.

Lemma write_read_single (fm : FileManager.t) (p : bytes) (L : Z)
    (d : disk) (index begin : Z) (block : bytes) :
  single_file fm p L ->
  0 <= abs_offset fm index begin ->
  abs_offset fm index begin + len block <= L ->
  is_Some (d !! p) ->
  exists d',
    FileManager.write_block fm d index begin block
    = (Ok true, add_downloaded fm (len block), d')
    /\ FileManager.read_block (add_downloaded fm (len block)) d' index begin
         (len block) = Ok (Some block)
    /\ forall q, q <> p -> d' !! q = d !! q.
Proof.
  intros Hf H0 HL [content Hd].
  destruct (Z.lt_ge_cases (abs_offset fm index begin) L) as [Hin|Hout].
  - eexists. split; [|split].
    + apply (write_block_single fm p L d index begin block content);
        [exact Hf | lia | exact Hd].
    + rewrite (read_block_single (add_downloaded fm (len block)) p L _ index
                 begin (len block) _ Hf ltac:(exact (conj H0 Hin))
                 (lookup_insert_eq _ _ _)).
      change (abs_offset (add_downloaded fm (len block)) index begin)
        with (abs_offset fm index begin).
      rewrite firstn_all2 by (unfold len in HL; lia).
      rewrite Z.min_l by lia.
      cbv zeta. rewrite pread_pwrite by lia. rewrite Z.eqb_refl. reflexivity.
    + intros q Hq. apply lookup_insert_ne. congruence.
  - assert (Hb : block = []).
    { destruct block; [reflexivity|]. unfold len in HL. cbn [length] in HL. lia. }
    subst block. exists d. split; [|split].
    + apply (write_block_outside fm p L); [exact Hf | right; lia].
    + unfold FileManager.read_block, add_downloaded.
      cbn [FileManager.files FileManager.torrent]. rewrite Hf.
      change (index * t_piece_length (FileManager.torrent fm) + begin)
        with (abs_offset fm index begin).
      cbn [FileManager.read_loop FileManager.length FileManager.offset].
      destruct (Z.geb_spec (abs_offset fm index begin) (0 + L)) as [_|H]; [|lia].
      reflexivity.
    + reflexivity.
Qed.

(** A block written inside the declared length of an existing file is
    read back unchanged from the same position; the write is counted in
    [downloaded] and leaves every other file as it was. *)
Theorem write_then_read_block (fm : FileManager.t) (p : bytes) (L : Z)
    (d : disk) (index begin : Z) (block : bytes) :
  single_file fm p L ->
  0 <= abs_offset fm index begin ->
  abs_offset fm index begin + len block <= L ->
  is_Some (d !! p) ->
  exists fm' d',
    FileManager.write_block fm d index begin block = (Ok true, fm', d')
    /\ FileManager.read_block fm' d' index begin (len block) = Ok (Some block)
    /\ FileManager.downloaded fm' = FileManager.downloaded fm + len block
    /\ forall q, q <> p -> d' !! q = d !! q.
Proof.
  intros Hf H0 HL Hd.
  destruct (write_read_single fm p L d index begin block Hf H0 HL Hd)
    as (d' & Hw & Hr & Hframe).
  exists (add_downloaded fm (len block)), d'.
  split; [exact Hw|]. split; [exact Hr|]. split; [reflexivity | exact Hframe].
Qed.

(** [read_block] returns a block only when it lies wholly inside the
    declared length of the file and inside what the file holds, and then
    it is that part of the file. *)
Theorem read_block_returns_stored_bytes (fm : FileManager.t) (p : bytes)
    (L : Z) (d : disk) (index begin n : Z) (blk : bytes) :
  single_file fm p L ->
  0 < n ->
  FileManager.read_block fm d index begin n = Ok (Some blk) ->
  exists content,
    d !! p = Some content
    /\ 0 <= abs_offset fm index begin
    /\ abs_offset fm index begin + n <= L
    /\ abs_offset fm index begin + n <= len content
    /\ blk = slice content (Z.to_nat (abs_offset fm index begin))
               (Z.to_nat (abs_offset fm index begin + n)).
Proof.
  intros Hf Hn H.
  destruct (Z.lt_ge_cases (abs_offset fm index begin) 0) as [Hneg|H0].
  { exfalso. revert H. unfold FileManager.read_block. rewrite Hf.
    change (index * t_piece_length (FileManager.torrent fm) + begin)
      with (abs_offset fm index begin).
    cbn [FileManager.read_loop FileManager.length FileManager.offset].
    destruct (_ >=? _); [|destruct (Z.ltb_spec (abs_offset fm index begin) 0); [|lia]];
      cbn; (destruct (Z.eqb_spec (len (@nil byte)) n) as [E|E];
            [change (len (@nil byte)) with 0 in E; lia | discriminate]). }
  destruct (Z.lt_ge_cases (abs_offset fm index begin) L) as [Hin|Hout].
  2:{ exfalso. revert H. unfold FileManager.read_block. rewrite Hf.
      change (index * t_piece_length (FileManager.torrent fm) + begin)
        with (abs_offset fm index begin).
      cbn [FileManager.read_loop FileManager.length FileManager.offset].
      destruct (Z.geb_spec (abs_offset fm index begin) (0 + L)); [|lia].
      cbn; (destruct (Z.eqb_spec (len (@nil byte)) n) as [E|E];
            [change (len (@nil byte)) with 0 in E; lia | discriminate]). }
  destruct (d !! p) as [content|] eqn:Hd.
  2:{ exfalso. revert H. unfold FileManager.read_block. rewrite Hf.
      change (index * t_piece_length (FileManager.torrent fm) + begin)
        with (abs_offset fm index begin).
      cbn [FileManager.read_loop FileManager.length FileManager.offset
           FileManager.path].
      destruct (Z.geb_spec (abs_offset fm index begin) (0 + L)); [lia|].
      destruct (Z.ltb_spec (abs_offset fm index begin) 0); [lia|].
      rewrite Hd. discriminate. }
  exists content. split; [reflexivity|].
  rewrite (read_block_single fm p L d index begin n content Hf
             ltac:(exact (conj H0 Hin)) Hd) in H.
  cbv zeta in H.
  set (off := abs_offset fm index begin) in *.
  destruct (Z.eqb_spec
              (len (FileManager.pread content off (Z.min n (L - off)))) n)
    as [E|E]; [|discriminate].
  injection H as <-.
  unfold FileManager.pread, len in E |- *.
  destruct (Z.ltb_spec (Z.min n (L - off)) 0) as [Hm|Hm]; [lia|].
  rewrite length_firstn, length_skipn in E.
  assert (Hmin : Z.min n (L - off) = n) by lia.
  rewrite Hmin in *.
  split; [lia|]. split; [lia|]. split; [lia|].
  unfold slice. f_equal. lia.
Qed.



(** A torrent whose info dictionary has no integer [length] (a
    multi-file torrent) cannot be stored: the file manager is built with
    one entry of length [None], and every [write_block] and [read_block]
    then raises [TypeError] without touching the disk. *)
Theorem file_manager_without_length (tor : torrent_obj) (out : bytes)
    (fm : FileManager.t) (d : disk) (index begin n : Z) (block : bytes) :
  FileManager.__init__ tor out = Ok fm ->
  (forall l, Bencode.dict_get (t_info tor) (b "length") <> Some (Bencode.BInt l)) ->
  FileManager.write_block fm d index begin block
  = (Raise (TypeError "unsupported operand type(s) for +"), fm, d)
  /\ FileManager.read_block fm d index begin n
     = Raise (TypeError "unsupported operand type(s) for +").
Proof.
  intros Hinit Hno.
  destruct (file_manager_init tor out fm Hinit) as (_ & _ & p & Hf).
  assert (Hl : match Bencode.dict_get (t_info tor) (b "length") with
               | Some (Bencode.BInt l) => Some l
               | _ => None
               end = None).
  { destruct (Bencode.dict_get (t_info tor) (b "length")) as [[l| | |]|];
      try reflexivity. exfalso. apply (Hno l). reflexivity. }
  rewrite Hl in Hf.
  unfold FileManager.write_block, FileManager.read_block. rewrite Hf.
  split; reflexivity.
Qed.

Lemma write_block_creates_no_file_witness :
  (FileManager.write_block one_piece_files ∅ 0 0 (b "abc")).2 !! b "/dl/x" = None.
Proof.
  apply (write_block_creates_no_file one_piece_files ∅ 0 0 (b "abc") (b "/dl/x")).
  apply lookup_empty.
Defined.

Lemma write_block_without_effect_witness :
  FileManager.write_block one_piece_files ∅ 0 0 (b "abc")
  = (Ok false, one_piece_files, ∅)
  /\ FileManager.write_block one_piece_files ∅ 1 0 (b "abc")
     = (Ok true, add_downloaded one_piece_files 3, ∅).
Proof.
  split.
  - apply (write_block_without_effect one_piece_files (b "/dl/x") 3).
    + reflexivity.
    + vm_compute. split; [discriminate | reflexivity].
    + apply lookup_empty.
  - apply (write_block_without_effect one_piece_files (b "/dl/x") 3 ∅ 1 0 (b "abc")).
    + reflexivity.
    + right. vm_compute. discriminate.
Defined.

Lemma write_then_read_block_witness :
  exists fm' d',
    FileManager.write_block one_piece_files {[ b "/dl/x" := [] ]} 0 0 (b "abc")
    = (Ok true, fm', d')
    /\ FileManager.read_block fm' d' 0 0 3 = Ok (Some (b "abc"))
    /\ FileManager.downloaded fm' = FileManager.downloaded one_piece_files + 3
    /\ forall q, q <> b "/dl/x" -> d' !! q = ({[ b "/dl/x" := [] ]} : disk) !! q.
Proof.
  apply (write_then_read_block one_piece_files (b "/dl/x") 3
           {[ b "/dl/x" := [] ]} 0 0 (b "abc")).
  - reflexivity.
  - vm_compute. discriminate.
  - vm_compute. discriminate.
  - exists []. apply lookup_singleton_eq.
Defined.

Lemma read_block_returns_stored_bytes_witness :
  exists content,
    ({[ b "/dl/x" := b "abc" ]} : disk) !! b "/dl/x" = Some content
    /\ 0 <= abs_offset one_piece_files 0 1
    /\ abs_offset one_piece_files 0 1 + 2 <= 3
    /\ abs_offset one_piece_files 0 1 + 2 <= len content
    /\ b "bc" = slice content (Z.to_nat (abs_offset one_piece_files 0 1))
                  (Z.to_nat (abs_offset one_piece_files 0 1 + 2)).
Proof.
  apply (read_block_returns_stored_bytes one_piece_files (b "/dl/x") 3
           {[ b "/dl/x" := b "abc" ]} 0 1 2 (b "bc")).
  - reflexivity.
  - reflexivity.
  - rewrite (read_block_single one_piece_files (b "/dl/x") 3 _ 0 1 2 (b "abc")).
    + vm_compute. reflexivity.
    + reflexivity.
    + vm_compute. split; [discriminate | reflexivity].
    + apply lookup_singleton_eq.
Defined.

Lemma file_manager_without_length_witness :
  FileManager.write_block
    {| FileManager.torrent := multi_file; FileManager.output_path := b "/dl";
       FileManager.files :=
         [{| FileManager.path := b "/dl/m"; FileManager.length := None;
             FileManager.offset := 0 |}];
       FileManager.downloaded := 0 |} ∅ 0 0 (b "abc")
  = (Raise (TypeError "unsupported operand type(s) for +"),
     {| FileManager.torrent := multi_file; FileManager.output_path := b "/dl";
        FileManager.files :=
          [{| FileManager.path := b "/dl/m"; FileManager.length := None;
              FileManager.offset := 0 |}];
        FileManager.downloaded := 0 |}, ∅)
  /\ FileManager.read_block
       {| FileManager.torrent := multi_file; FileManager.output_path := b "/dl";
          FileManager.files :=
            [{| FileManager.path := b "/dl/m"; FileManager.length := None;
                FileManager.offset := 0 |}];
          FileManager.downloaded := 0 |} ∅ 0 0 3
     = Raise (TypeError "unsupported operand type(s) for +").
Proof.
  apply (file_manager_without_length multi_file (b "/dl")).
  - vm_compute. reflexivity.
  - intros l. vm_compute. discriminate.
Defined.

(** ** The piece engine (piece_manager.py) *)

Lemma setitem_slot (slots : list (option bytes)) (begin : Z) (block : bytes) :
  0 <= begin -> begin / BLOCK_SIZE < len slots ->
  list_setitem slots (begin / BLOCK_SIZE) (Some block)
  = Ok (<[Z.to_nat (begin / BLOCK_SIZE) := Some block]> slots).
Proof.
  intros Hb0 Hbi.
  assert (Hbi0 : 0 <= begin / BLOCK_SIZE)
    by (apply Z.div_pos; [exact Hb0 | reflexivity]).
  unfold list_setitem, norm_index.
  destruct (Z.ltb_spec (begin / BLOCK_SIZE) 0); [lia|].
  destruct (Z.leb_spec 0 (begin / BLOCK_SIZE)); [|lia].
  destruct (Z.ltb_spec (begin / BLOCK_SIZE) (len slots)); [|lia].
  reflexivity.
Qed.

Lemma percent_ok (c t : Z) : t <> 0 -> exists q, PieceManager.percent c t = Ok q.
Proof.
  intros Ht. unfold PieceManager.percent.
  destruct (Z.eqb_spec t 0); [contradiction|]. eexists; reflexivity.
Qed.

Lemma store_block_incomplete
    (w : PieceManager.world) (index begin : Z) (block : bytes)
    (slots : list (option bytes)) :
  let self := PieceManager.pm w in
  let slots' := <[Z.to_nat (begin / BLOCK_SIZE) := Some block]> slots in
  PieceManager.pieces self !! index = Some slots ->
  0 <= begin ->
  begin / BLOCK_SIZE < len slots ->
  len block = Z.min BLOCK_SIZE (PieceManager.piece_length self index - begin) ->
  PieceManager.count_blocks slots' <> len slots' ->
  exists progress,
    PieceManager.store_block index begin block w
    = (Ok tt,
       {| PieceManager.pm :=
            {| PieceManager.torrent := PieceManager.torrent self;
               PieceManager.pieces := <[index := slots']> (PieceManager.pieces self);
               PieceManager.have_pieces := PieceManager.have_pieces self;
               PieceManager.failed_pieces := PieceManager.failed_pieces self;
               PieceManager.piece_progress := progress;
               PieceManager.progress_file := PieceManager.progress_file self |};
          PieceManager.fm := PieceManager.fm w;
          PieceManager.files_on_disk := PieceManager.files_on_disk w;
          PieceManager.progress_files := PieceManager.progress_files w;
          PieceManager.published := PieceManager.published w |}).
Proof.
  intros self slots' Hsl Hb0 Hbi Hlen Hpart. subst self.
  assert (Hlen' : len slots' = len slots)
    by (unfold slots', len; rewrite length_insert; reflexivity).
  assert (Hbi0 : 0 <= begin / BLOCK_SIZE)
    by (apply Z.div_pos; [exact Hb0 | reflexivity]).
  destruct (percent_ok (PieceManager.count_blocks slots') (len slots'))
    as [q Hpct]; [lia|].
  apply Z.eqb_neq in Hpart.
  unfold PieceManager.store_block. unfold_M. proj_simpl.
  rewrite Hsl, (geb_false _ _ Hbi), Hlen, Z.eqb_refl. cbn [negb].
  rewrite (setitem_slot slots begin block Hb0 Hbi). fold slots'.
  rewrite Hpct, Hpart. proj_simpl.
  destruct (_ || _); eexists; reflexivity.
Qed.


(** A block for a piece index at or beyond [num_pieces] is ignored:
    [receive_block] returns and nothing has changed. *)
Theorem receive_block_index_out_of_range
    (w : PieceManager.world) (index begin : Z) (block : bytes) :
  t_num_pieces (PieceManager.torrent (PieceManager.pm w)) <= index ->
  PieceManager.receive_block index begin block w = (Ok tt, w).
Proof.
  intros H. unfold PieceManager.receive_block, PieceManager.receive_block_body.
  unfold_M.
  destruct (Z.geb_spec index (t_num_pieces (PieceManager.torrent (PieceManager.pm w))));
    [reflexivity | lia].
Qed.

Lemma receive_block_index_out_of_range_witness :
  PieceManager.receive_block 1 0 (b "abc") (engine_on one_piece one_piece_files ∅)
  = (Ok tt, engine_on one_piece one_piece_files ∅).
Proof.
  apply (receive_block_index_out_of_range (engine_on one_piece one_piece_files ∅)
           1 0 (b "abc")).
  vm_compute. discriminate.
Defined.

(** A block of the expected length for a slot of the piece, which does
    not complete the piece, is put in its slot; the other pieces, the
    sets of held and failed pieces, the bus and the disk are as before. *)
Theorem accepted_block_is_stored
    (w : PieceManager.world) (index begin : Z) (block : bytes) :
  let self := PieceManager.pm w in
  let slots := current_slots self index in
  let slots' := <[Z.to_nat (begin / BLOCK_SIZE) := Some block]> slots in
  index < t_num_pieces (PieceManager.torrent self) ->
  0 <= begin ->
  begin / BLOCK_SIZE < len slots ->
  len block = Z.min BLOCK_SIZE (PieceManager.piece_length self index - begin) ->
  PieceManager.count_blocks slots' <> len slots' ->
  let w' := snd (PieceManager.receive_block index begin block w) in
  fst (PieceManager.receive_block index begin block w) = Ok tt
  /\ PieceManager.pieces (PieceManager.pm w') !! index = Some slots'
  /\ (forall i, i <> index ->
        PieceManager.pieces (PieceManager.pm w') !! i
        = PieceManager.pieces self !! i)
  /\ PieceManager.have_pieces (PieceManager.pm w') = PieceManager.have_pieces self
  /\ PieceManager.failed_pieces (PieceManager.pm w')
     = PieceManager.failed_pieces self
  /\ PieceManager.published w' = PieceManager.published w
  /\ PieceManager.files_on_disk w' = PieceManager.files_on_disk w.
Proof.
  intros self slots slots' Hidx Hb0 Hbi Hlen Hpart w'.
  split; [apply receive_block_never_raises|].
  subst w' self.
  unfold PieceManager.receive_block, PieceManager.receive_block_body.
  unfold_M. rewrite (geb_false _ _ Hidx).
  unfold current_slots in slots.
  destruct (PieceManager.pieces (PieceManager.pm w) !! index) as [sl|] eqn:Hp.
  - cbn beta iota.
    destruct (store_block_incomplete w index begin block sl
                Hp Hb0 Hbi Hlen Hpart) as [progress ->].
    proj_simpl. rewrite lookup_insert_eq.
    split; [reflexivity|]. split; [|repeat split; reflexivity].
    intros i Hi. apply lookup_insert_ne. congruence.
  - cbn beta iota. proj_simpl. set (w1 := {| PieceManager.pm := _ |}).
    assert (Hp1 : PieceManager.pieces (PieceManager.pm w1) !! index = Some slots)
      by (subst w1; proj_simpl; apply lookup_insert_eq).
    destruct (store_block_incomplete w1 index begin block slots
                Hp1 Hb0 Hbi Hlen Hpart) as [progress ->].
    proj_simpl. rewrite lookup_insert_eq.
    split; [reflexivity|]. split; [|repeat split; reflexivity].
    intros i Hi. subst w1. proj_simpl.
    rewrite !lookup_insert_ne by congruence. reflexivity.
Qed.

Lemma accepted_block_is_stored_witness :
  let w := engine_on two_blocks two_blocks_files ∅ in
  let w' := snd (PieceManager.receive_block 0 16384 (b "abc") w) in
  fst (PieceManager.receive_block 0 16384 (b "abc") w) = Ok tt
  /\ PieceManager.pieces (PieceManager.pm w') !! 0
     = Some (<[Z.to_nat (16384 / BLOCK_SIZE) := Some (b "abc")]>
               (current_slots (PieceManager.pm w) 0)).
Proof.
  cbv zeta.
  destruct (accepted_block_is_stored (engine_on two_blocks two_blocks_files ∅)
              0 16384 (b "abc")) as (H1 & H2 & _).
  - simpl. lia.
  - lia.
  - vm_compute. reflexivity.
  - vm_compute. reflexivity.
  - vm_compute. discriminate.
  - split; [exact H1 | exact H2].
Defined.
















(** ** The bitfield (piece_manager.py, peer.py) *)






(** ** Messages on the wire (peer.py) *)

Lemma byte_to_Z_of_Z (z : Z) : byte_to_Z (byte_of_Z z) = z mod 256.
Proof.
  unfold byte_to_Z, byte_of_Z.
  assert (Hr : 0 <= z mod 256 < 256) by (apply Z.mod_pos_bound; lia).
  destruct (Byte.of_N (Z.to_N (z mod 256))) as [c|] eqn:E.
  - apply Byte.to_of_N in E. rewrite E. lia.
  - apply Byte.of_N_None_iff in E. lia.
Qed.

Lemma byte_to_Z_range (c : byte) : 0 <= byte_to_Z c < 256.
Proof.
  unfold byte_to_Z. pose proof (Byte.to_N_bounded c). lia.
Qed.

Lemma byte_of_to_Z (c : byte) : byte_of_Z (byte_to_Z c) = c.
Proof.
  unfold byte_of_Z. rewrite Z.mod_small by apply byte_to_Z_range.
  unfold byte_to_Z. rewrite N2Z.id, Byte.of_to_N. reflexivity.
Qed.

Lemma be_fold (n : nat) : forall (x acc : Z),
  0 <= x ->
  fold_left (fun a c => a * 256 + byte_to_Z c) (Sha1.be_bytes n x) acc
  = acc * 256 ^ Z.of_nat n + x mod 256 ^ Z.of_nat n.
Proof.
  induction n as [|n IH]; intros x acc Hx.
  - cbn [Sha1.be_bytes fold_left]. change (256 ^ Z.of_nat 0) with 1.
    rewrite Z.mod_1_r. lia.
  - cbn [Sha1.be_bytes fold_left]. rewrite IH by exact Hx.
    rewrite byte_to_Z_of_Z, Z.shiftr_div_pow2 by lia.
    replace (2 ^ (8 * Z.of_nat n)) with (256 ^ Z.of_nat n)
      by (change 256 with (2 ^ 8); rewrite <- Z.pow_mul_r by lia; reflexivity).
    replace (Z.of_nat (S n)) with (Z.of_nat n + 1) by lia.
    rewrite Z.pow_add_r, Z.pow_1_r by lia.
    assert (Hp : 0 < 256 ^ Z.of_nat n) by (apply Z.pow_pos_nonneg; lia).
    rewrite (Z.rem_mul_r x (256 ^ Z.of_nat n) 256) by lia.
    ring.
Qed.

Lemma be_value_be_bytes (x : Z) :
  0 <= x < 4294967296 -> Sha1.be_value (Sha1.be_bytes 4 x) = x.
Proof.
  intros Hx. unfold Sha1.be_value. rewrite be_fold by lia.
  change (256 ^ Z.of_nat 4) with 4294967296. rewrite Z.mod_small by lia. lia.
Qed.

Lemma be_bytes_length (n : nat) (x : Z) : length (Sha1.be_bytes n x) = n.
Proof. induction n as [|n IH]; [reflexivity|]. cbn. rewrite IH. reflexivity. Qed.

Lemma frame_ok (msg_id : Z) (payload : bytes) (msg : bytes) :
  Peer.frame msg_id payload = Ok msg ->
  0 <= msg_id < 256 /\ len payload + 1 < 4294967296
  /\ msg = Sha1.be_bytes 4 (len payload + 1) ++ byte_of_Z msg_id :: payload.
Proof.
  unfold Peer.frame, Peer.pack_I, Peer.pack_B.
  destruct (Z.leb_spec 0 (len payload + 1));
    destruct (Z.ltb_spec (len payload + 1) 4294967296);
    cbn [andb mbind result_bind]; try discriminate.
  destruct (Z.leb_spec 0 msg_id); destruct (Z.ltb_spec msg_id 256);
    cbn [andb mbind result_bind]; try discriminate.
  intros [= <-]. split; [lia|]. split; [lia|]. reflexivity.
Qed.

Lemma split_messages_nil (fuel : nat) (buffer : bytes) :
  incomplete buffer -> Peer.split_messages fuel buffer = ([], buffer).
Proof.
  intros H. destruct fuel as [|fuel]; [reflexivity|].
  cbn [Peer.split_messages].
  destruct (Z.ltb_spec (len buffer) 4) as [|H4]; [reflexivity|].
  destruct H as [H|H]; [lia|].
  destruct (Z.ltb_spec (len buffer) (4 + Sha1.be_value (slice buffer 0 4)));
    [reflexivity | lia].
Qed.

Lemma split_messages_frame (fuel : nat) (n : Z) (body rest : bytes) :
  0 <= n < 4294967296 -> len body = n ->
  Peer.split_messages (S fuel) (Sha1.be_bytes 4 n ++ body ++ rest)
  = match body with
    | [] => Peer.split_messages fuel rest
    | msg_id :: payload =>
        let '(msgs, remaining) := Peer.split_messages fuel rest in
        ((byte_to_Z msg_id, payload) :: msgs, remaining)
    end.
Proof.
  intros Hn Hb. cbn [Peer.split_messages].
  assert (Hlen : len (Sha1.be_bytes 4 n ++ body ++ rest) = 4 + n + len rest).
  { unfold len in *. rewrite !length_app, be_bytes_length. lia. }
  assert (Hhd : slice (Sha1.be_bytes 4 n ++ body ++ rest) 0 4 = Sha1.be_bytes 4 n).
  { apply (slice_app_at [] (Sha1.be_bytes 4 n) (body ++ rest)); reflexivity. }
  rewrite Hhd, be_value_be_bytes, Hlen by exact Hn.
  assert (Hr : 0 <= len rest) by (unfold len; lia).
  destruct (Z.ltb_spec (4 + n + len rest) 4); [lia|].
  destruct (Z.ltb_spec (4 + n + len rest) (4 + n)); [lia|].
  assert (Hmsg : slice (Sha1.be_bytes 4 n ++ body ++ rest) 4 (4 + Z.to_nat n) = body).
  { apply slice_app_at; [rewrite be_bytes_length; reflexivity|].
    unfold len in Hb. lia. }
  assert (Hrest : skipn (4 + Z.to_nat n) (Sha1.be_bytes 4 n ++ body ++ rest) = rest).
  { rewrite app_assoc. apply drop_app_length'.
    rewrite length_app, be_bytes_length. unfold len in Hb. lia. }
  rewrite Hmsg, Hrest.
  destruct body as [|c payload].
  - unfold len in Hb. cbn in Hb. subst n. reflexivity.
  - destruct (Z.eqb_spec n 0) as [E|_]; [|reflexivity].
    unfold len in Hb. cbn [length] in Hb. lia.
Qed.

Lemma wire_messages (items : list (option (Z * bytes))) :
  forall (fuel : nat) (stream tail : bytes),
  wire items = Ok stream -> incomplete tail -> (length items <= fuel)%nat ->
  Peer.split_messages fuel (stream ++ tail) = (omap id items, tail).
Proof.
  induction items as [|item items IH]; intros fuel stream tail Hw Ht Hf.
  - injection Hw as <-. apply split_messages_nil, Ht.
  - destruct fuel as [|fuel]; [cbn in Hf; lia|].
    cbn [length] in Hf.
    destruct item as [[msg_id payload]|]; cbn [wire] in Hw.
    + destruct (Peer.frame msg_id payload) as [msg|] eqn:Hfr; [|discriminate].
      cbn [mbind result_bind] in Hw.
      destruct (wire items) as [rest|] eqn:Hrest; [|discriminate].
      cbn [mbind result_bind] in Hw. injection Hw as <-.
      destruct (frame_ok _ _ _ Hfr) as (Hid & Hlen & ->).
      rewrite <- !app_assoc.
      rewrite (split_messages_frame fuel (len payload + 1)
                 (byte_of_Z msg_id :: payload) (rest ++ tail))
        by (unfold len in *; cbn [length]; lia).
      rewrite (IH fuel rest tail eq_refl Ht) by lia.
      rewrite byte_to_Z_of_Z, Z.mod_small by lia. reflexivity.
    + destruct (wire items) as [rest|] eqn:Hrest; [|discriminate].
      cbn [mbind result_bind] in Hw. injection Hw as <-.
      change (Peer.split_messages (S fuel)
                (Sha1.be_bytes 4 0 ++ [] ++ (rest ++ tail))
              = (omap id items, tail)).
      rewrite (split_messages_frame fuel 0 [] (rest ++ tail))
        by (unfold len; cbn; lia).
      apply (IH fuel rest tail eq_refl Ht). lia.
Qed.

Lemma wire_length (items : list (option (Z * bytes))) (stream : bytes) :
  wire items = Ok stream -> (length items <= length stream)%nat.
Proof.
  revert stream. induction items as [|item items IH]; intros stream Hw.
  - cbn. lia.
  - destruct item as [[msg_id payload]|]; cbn [wire] in Hw.
    + destruct (Peer.frame msg_id payload) as [msg|] eqn:Hfr; [|discriminate].
      cbn [mbind result_bind] in Hw.
      destruct (wire items) as [rest|] eqn:Hrest; [|discriminate].
      cbn [mbind result_bind] in Hw. injection Hw as <-.
      destruct (frame_ok _ _ _ Hfr) as (_ & _ & ->).
      specialize (IH rest eq_refl).
      rewrite !length_app, be_bytes_length. cbn [length]. lia.
    + destruct (wire items) as [rest|] eqn:Hrest; [|discriminate].
      cbn [mbind result_bind] in Hw. injection Hw as <-.
      specialize (IH rest eq_refl). cbn [length]. lia.
Qed.

(** The framing of [send_message] and the buffer loop of
    [handle_messages] fit together: a stream of frames and keep-alives
    followed by an incomplete message is split into exactly the messages
    sent, in order and without the keep-alives, and the incomplete part
    stays in the buffer. *)
Theorem framed_messages_are_recovered
    (items : list (option (Z * bytes))) (stream tail : bytes) :
  wire items = Ok stream -> incomplete tail ->
  Peer.complete_messages (stream ++ tail) = (omap id items, tail).
Proof.
  intros Hw Ht. unfold Peer.complete_messages.
  apply wire_messages; [exact Hw | exact Ht|].
  rewrite length_app. pose proof (wire_length items stream Hw). lia.
Qed.

Lemma framed_messages_are_recovered_witness :
  Peer.complete_messages
    (map byte_of_Z [0; 0; 0; 1; 2; 0; 0; 0; 0; 0; 0; 0; 5; 4; 0; 0; 0; 7;
                    0; 0; 0; 9; 7])
  = ([(2, []); (4, map byte_of_Z [0; 0; 0; 7])], map byte_of_Z [0; 0; 0; 9; 7]).
Proof.
  apply (framed_messages_are_recovered
           [Some (2, []); None; Some (4, map byte_of_Z [0; 0; 0; 7])]
           (map byte_of_Z [0; 0; 0; 1; 2; 0; 0; 0; 0; 0; 0; 0; 5; 4; 0; 0; 0; 7])
           (map byte_of_Z [0; 0; 0; 9; 7])).
  - vm_compute. reflexivity.
  - right. vm_compute. reflexivity.
Defined.

Lemma slice_app_le {A} (x y : list A) (lo hi : nat) :
  (hi <= length x)%nat -> slice (x ++ y) lo hi = slice x lo hi.
Proof.
  intros H. unfold slice.
  destruct (Nat.le_gt_cases lo hi) as [Hle|Hgt].
  - rewrite skipn_app. replace (lo - length x)%nat with 0%nat by lia.
    change (skipn 0 y) with y. apply take_app_le. rewrite length_skipn. lia.
  - replace (hi - lo)%nat with 0%nat by lia. reflexivity.
Qed.

Lemma split_messages_enough (f1 : nat) : forall (f2 : nat) (buffer : bytes),
  (length buffer <= f1)%nat -> (length buffer <= f2)%nat ->
  Peer.split_messages f1 buffer = Peer.split_messages f2 buffer.
Proof.
  induction f1 as [|f1 IH]; intros f2 buffer H1 H2.
  - destruct buffer; [|cbn in H1; lia]. destruct f2; reflexivity.
  - destruct f2 as [|f2].
    { destruct buffer; [reflexivity | cbn in H2; lia]. }
    cbn [Peer.split_messages].
    destruct (Z.ltb_spec (len buffer) 4) as [|H4]; [reflexivity|].
    destruct (len buffer <? 4 + Sha1.be_value (slice buffer 0 4)); [reflexivity|].
    set (rest := skipn _ buffer).
    assert (Hr : (length rest <= f1)%nat /\ (length rest <= f2)%nat).
    { subst rest. rewrite length_skipn. unfold len in H4. lia. }
    rewrite (IH f2 rest) by apply Hr. reflexivity.
Qed.

Lemma complete_messages_unfold (buffer : bytes) :
  Peer.complete_messages buffer
  = if len buffer <? 4 then ([], buffer)
    else
      let length := Sha1.be_value (slice buffer 0 4) in
      if len buffer <? 4 + length then ([], buffer)
      else
        let msg := slice buffer 4 (4 + Z.to_nat length) in
        let rest := skipn (4 + Z.to_nat length) buffer in
        if length =? 0 then Peer.complete_messages rest
        else
          match msg with
          | [] => Peer.complete_messages rest
          | msg_id :: payload =>
              let '(msgs, remaining) := Peer.complete_messages rest in
              ((byte_to_Z msg_id, payload) :: msgs, remaining)
          end.
Proof.
  unfold Peer.complete_messages at 1.
  destruct buffer as [|c buffer]; [reflexivity|].
  set (buf := c :: buffer). change (length buf) with (S (length buffer)).
  cbn [Peer.split_messages].
  destruct (Z.ltb_spec (len buf) 4) as [|H4]; [reflexivity|].
  destruct (len buf <? 4 + Sha1.be_value (slice buf 0 4)); [reflexivity|].
  cbv zeta. set (rest := skipn _ buf).
  assert (Hr : (length rest <= length buffer)%nat).
  { subst rest. rewrite length_skipn. subst buf. cbn [length]. lia. }
  unfold Peer.complete_messages.
  rewrite (split_messages_enough (length buffer) (length rest) rest Hr (le_n _)).
  reflexivity.
Qed.

Lemma chunked_messages (n : nat) : forall b1 b2 : bytes,
  (length b1 <= n)%nat ->
  Peer.complete_messages (b1 ++ b2)
  = let '(msgs1, rest1) := Peer.complete_messages b1 in
    let '(msgs2, rest2) := Peer.complete_messages (rest1 ++ b2) in
    (msgs1 ++ msgs2, rest2).
Proof.
  induction n as [|n IH]; intros b1 b2 Hn.
  - destruct b1; [|cbn in Hn; lia]. cbn [app].
    change (Peer.complete_messages []) with (@nil (Z * bytes), @nil byte).
    cbn [app]. destruct (Peer.complete_messages b2). reflexivity.
  - rewrite (complete_messages_unfold b1).
    destruct (Z.ltb_spec (len b1) 4) as [|H4].
    { destruct (Peer.complete_messages (b1 ++ b2)). reflexivity. }
    cbv zeta.
    set (L := Sha1.be_value (slice b1 0 4)).
    destruct (Z.ltb_spec (len b1) (4 + L)) as [|HL].
    { destruct (Peer.complete_messages (b1 ++ b2)). reflexivity. }
    assert (HL0 : 0 <= L).
    { unfold L, Sha1.be_value.
      assert (G : forall (x : bytes) (acc : Z), 0 <= acc ->
                0 <= fold_left (fun a c => a * 256 + byte_to_Z c) x acc).
      { induction x as [|c x IHx]; intros acc Ha; [exact Ha|].
        cbn [fold_left]. apply IHx. pose proof (byte_to_Z_range c). lia. }
      apply G. lia. }
    rewrite (complete_messages_unfold (b1 ++ b2)).
    assert (Hlen : len (b1 ++ b2) = len b1 + len b2)
      by (unfold len; rewrite length_app; lia).
    assert (Hb2 : 0 <= len b2) by (unfold len; lia).
    assert (Hhd : slice (b1 ++ b2) 0 4 = slice b1 0 4).
    { apply slice_app_le. unfold len in H4. lia. }
    cbv zeta. rewrite Hhd. fold L. rewrite Hlen.
    destruct (Z.ltb_spec (len b1 + len b2) 4); [lia|].
    destruct (Z.ltb_spec (len b1 + len b2) (4 + L)); [lia|].
    assert (Hmsg : slice (b1 ++ b2) 4 (4 + Z.to_nat L)
                   = slice b1 4 (4 + Z.to_nat L)).
    { apply slice_app_le. unfold len in HL. lia. }
    assert (Hrest : skipn (4 + Z.to_nat L) (b1 ++ b2)
                    = skipn (4 + Z.to_nat L) b1 ++ b2).
    { rewrite skipn_app.
      replace (4 + Z.to_nat L - length b1)%nat with 0%nat
        by (unfold len in HL; lia).
      reflexivity. }
    rewrite Hmsg, Hrest.
    assert (Hsm : (length (skipn (4 + Z.to_nat L) b1) <= n)%nat)
      by (rewrite length_skipn; lia).
    rewrite (IH _ b2 Hsm).
    destruct (L =? 0).
    + reflexivity.
    + destruct (slice b1 4 (4 + Z.to_nat L)) as [|c payload]; [reflexivity|].
      destruct (Peer.complete_messages (skipn (4 + Z.to_nat L) b1))
        as [msgs1 rest1].
      destruct (Peer.complete_messages (rest1 ++ b2)) as [msgs2 rest2].
      reflexivity.
Qed.

(** Cutting the byte stream differently between two [recv] calls does
    not change the messages handled: the messages of [b1 ++ b2] are
    those of [b1] followed by those of what [b1] left in the buffer
    with [b2] appended. *)
Theorem chunked_stream_same_messages (b1 b2 : bytes) :
  Peer.complete_messages (b1 ++ b2)
  = let '(msgs1, rest1) := Peer.complete_messages b1 in
    let '(msgs2, rest2) := Peer.complete_messages (rest1 ++ b2) in
    (msgs1 ++ msgs2, rest2).
Proof. apply (chunked_messages (length b1)). lia. Qed.

(** ** Requests (peer.py) *)







(** ** Message handling and incoming connections (peer.py) *)

(** Unfolds the primitives of the computations of a peer session. *)
Ltac unfold_Act :=
  unfold Peer.get_self, Peer.lift, Peer.modify_self, Peer.skip, Peer.fail,
    Peer.on_engine, Peer.swallow;
  unfold mbind, mret, Peer.Act_bind, Peer.Act_ret;
  cbn beta iota.

(** [process_message] never raises.  It leaves the session as it is
    for a message of an unknown type, for a [piece] sent to a seeding
    peer, for a [request] or [interested] sent to a downloading peer, and
    for a [piece] whose payload is too short to hold the index and the
    offset. *)
Theorem ignored_messages (truth : list bool -> bool) (msg_id : Z)
    (payload : bytes) (s : Peer.session) :
  fst (Peer.process_message truth msg_id payload s) = Ok tt
  /\ (msg_id <> 0 -> msg_id <> 1 -> msg_id <> 5 ->
      (msg_id = 7 -> Peer.is_seeding (Peer.peer s) = true) ->
      (msg_id = 6 \/ msg_id = 2 -> Peer.is_seeding (Peer.peer s) = false) ->
      Peer.process_message truth msg_id payload s = (Ok tt, s))
  /\ (msg_id = 7 -> (length payload < 8)%nat ->
      Peer.process_message truth msg_id payload s = (Ok tt, s)).
Proof.
  split; [|split].
  - unfold Peer.process_message, Peer.swallow.
    match goal with |- fst (match ?m with _ => _ end) = _ => destruct m as [[[]|e] s'] end;
      reflexivity.
  - intros H0 H1 H5 H7 H62. unfold Peer.process_message. unfold_Act.
    destruct (Z.eqb_spec msg_id 0); [contradiction|].
    destruct (Z.eqb_spec msg_id 1); [contradiction|].
    destruct (Z.eqb_spec msg_id 5); [contradiction|].
    destruct (Z.eqb_spec msg_id 7) as [E|_].
    { rewrite (H7 E). reflexivity. }
    destruct (Z.eqb_spec msg_id 6) as [E|_].
    { rewrite (H62 (or_introl E)). reflexivity. }
    destruct (Z.eqb_spec msg_id 2) as [E|_].
    { rewrite (H62 (or_intror E)). reflexivity. }
    reflexivity.
  - intros -> Hshort. unfold Peer.process_message. unfold_Act.
    change (7 =? 0) with false. change (7 =? 1) with false.
    change (7 =? 5) with false. change (7 =? 7) with true. cbn beta iota.
    destruct (Peer.is_seeding (Peer.peer s)); [reflexivity|]. cbn [negb].
    unfold Peer.unpack_II.
    assert (Hl : length (slice payload 0 8) = length payload).
    { unfold slice. change (skipn 0 payload) with payload.
      rewrite length_firstn. lia. }
    rewrite Hl.
    destruct (Nat.eqb_spec (length payload) 8) as [E|_]; [lia|].
    reflexivity.
Qed.

Lemma ignored_messages_witness :
  Peer.process_message (fun _ => true) 7 (b "00000000abc")
    {| Peer.peer :=
         {| Peer.ip := b "10.0.0.2"; Peer.port := 6882;
            Peer.torrent := sample_torrent;
            Peer.peer_id := b "-PC0001-000000000000";
            Peer.is_seeding := true; Peer.sock := Some Peer.Open;
            Peer.choked := true; Peer.bitfield := None;
            Peer.closing := false; Peer.message_handler := false |};
       Peer.engine := engine_on one_piece one_piece_files ∅;
       Peer.outbox := [] |}
  = (Ok tt,
     {| Peer.peer :=
         {| Peer.ip := b "10.0.0.2"; Peer.port := 6882;
            Peer.torrent := sample_torrent;
            Peer.peer_id := b "-PC0001-000000000000";
            Peer.is_seeding := true; Peer.sock := Some Peer.Open;
            Peer.choked := true; Peer.bitfield := None;
            Peer.closing := false; Peer.message_handler := false |};
       Peer.engine := engine_on one_piece one_piece_files ∅;
       Peer.outbox := [] |}).
Proof.
  refine (proj1 (proj2 (ignored_messages _ 7 _ _)) _ _ _ _ _);
    try discriminate.
  - intros _. reflexivity.
  - intros [H|H]; discriminate H.
Defined.

Lemma piece_message_reaches_engine (truth : list bool -> bool)
    (index begin : Z) (block : bytes) (s : Peer.session) :
  Peer.is_seeding (Peer.peer s) = false ->
  0 <= index < 4294967296 -> 0 <= begin < 4294967296 ->
  Peer.process_message truth 7
    (Sha1.be_bytes 4 index ++ Sha1.be_bytes 4 begin ++ block) s
  = (Ok tt,
     {| Peer.peer := Peer.peer s;
        Peer.engine :=
          snd (PieceManager.receive_block index begin block (Peer.engine s));
        Peer.outbox := Peer.outbox s |}).
Proof.
  intros Hs Hi Hb. unfold Peer.process_message. unfold_Act.
  change (7 =? 0) with false. change (7 =? 1) with false.
  change (7 =? 5) with false. change (7 =? 7) with true. cbn beta iota.
  rewrite Hs. cbn [negb].
  set (payload := Sha1.be_bytes 4 index ++ Sha1.be_bytes 4 begin ++ block).
  assert (H8 : slice payload 0 8 = Sha1.be_bytes 4 index ++ Sha1.be_bytes 4 begin).
  { unfold payload. rewrite app_assoc.
    apply (slice_app_at [] (Sha1.be_bytes 4 index ++ Sha1.be_bytes 4 begin) block);
      reflexivity. }
  rewrite H8. unfold Peer.unpack_II.
  replace (length (Sha1.be_bytes 4 index ++ Sha1.be_bytes 4 begin) =? 8)%nat
    with true by reflexivity.
  assert (Ha : slice (Sha1.be_bytes 4 index ++ Sha1.be_bytes 4 begin) 0 4
               = Sha1.be_bytes 4 index) by reflexivity.
  assert (Hb' : slice (Sha1.be_bytes 4 index ++ Sha1.be_bytes 4 begin) 4 8
                = Sha1.be_bytes 4 begin) by reflexivity.
  rewrite Ha, Hb', !be_value_be_bytes by assumption.
  assert (Hblk : skipn 8 payload = block) by reflexivity.
  rewrite Hblk.
  destruct (PieceManager.receive_block index begin block (Peer.engine s))
    as [[[]|e] w]; reflexivity.
Qed.

Lemma pack_I_ok (x : Z) :
  0 <= x < 4294967296 -> Peer.pack_I x = Ok (Sha1.be_bytes 4 x).
Proof.
  intros H. unfold Peer.pack_I.
  destruct (Z.leb_spec 0 x); [|lia].
  destruct (Z.ltb_spec x 4294967296); [reflexivity | lia].
Qed.

Lemma frame_value (msg_id : Z) (payload : bytes) :
  0 <= msg_id < 256 -> len payload + 1 < 4294967296 ->
  Peer.frame msg_id payload
  = Ok (Sha1.be_bytes 4 (len payload + 1) ++ byte_of_Z msg_id :: payload).
Proof.
  intros Hid Hl. unfold Peer.frame.
  rewrite pack_I_ok by (unfold len in *; lia). cbn [mbind result_bind].
  unfold Peer.pack_B.
  destruct (Z.leb_spec 0 msg_id); [|lia].
  destruct (Z.ltb_spec msg_id 256); [reflexivity | lia].
Qed.

(** A [piece] message built by [send_piece] and put on an open socket
    is, once split off the stream and processed by a downloading peer,
    the call [receive_block(index, begin, block)] with the index, offset
    and block that were sent. *)
Theorem sent_piece_is_received (truth : list bool -> bool)
    (index begin : Z) (block : bytes) (sender receiver : Peer.session) :
  0 <= index < 4294967296 -> 0 <= begin < 4294967296 ->
  len block + 9 < 4294967296 ->
  Peer.sock (Peer.peer sender) = Some Peer.Open ->
  Peer.is_seeding (Peer.peer receiver) = false ->
  exists msg,
    Peer.send_piece index begin block sender
    = (Ok tt,
       {| Peer.peer := Peer.peer sender; Peer.engine := Peer.engine sender;
          Peer.outbox := Peer.outbox sender ++ [msg] |})
    /\ Peer.process_all truth (fst (Peer.complete_messages msg)) receiver
       = (Ok tt,
          {| Peer.peer := Peer.peer receiver;
             Peer.engine :=
               snd (PieceManager.receive_block index begin block
                      (Peer.engine receiver));
             Peer.outbox := Peer.outbox receiver |})
    /\ snd (Peer.complete_messages msg) = [].
Proof.
  intros Hi Hb Hl Hsock Hrole.
  set (payload := Sha1.be_bytes 4 index ++ Sha1.be_bytes 4 begin ++ block).
  assert (Hpl : len payload = len block + 8).
  { unfold payload, len. rewrite !length_app, !be_bytes_length. lia. }
  assert (Hfr : Peer.frame 7 payload
                = Ok (Sha1.be_bytes 4 (len payload + 1) ++ byte_of_Z 7 :: payload))
    by (apply frame_value; lia).
  exists (Sha1.be_bytes 4 (len payload + 1) ++ byte_of_Z 7 :: payload).
  split; [|].
  - unfold Peer.send_piece, Peer.send_message, Peer.sock_send. unfold_Act.
    rewrite !pack_I_ok by assumption. fold payload. rewrite Hfr, Hsock.
    reflexivity.
  - assert (Hw : wire [Some (7, payload)]
                 = Ok ((Sha1.be_bytes 4 (len payload + 1) ++ byte_of_Z 7 :: payload)
                         ++ [])).
    { cbn [wire]. rewrite Hfr. cbn [mbind result_bind]. reflexivity. }
    assert (Hinc : incomplete []) by (left; unfold len; cbn; lia).
    pose proof (wire_messages [Some (7, payload)]
                  (length ((Sha1.be_bytes 4 (len payload + 1)
                              ++ byte_of_Z 7 :: payload) ++ []))
                  _ [] Hw Hinc) as Hsplit.
    rewrite !app_nil_r in Hsplit.
    change (omap id [Some (7, payload)]) with [(7, payload)] in Hsplit.
    unfold Peer.complete_messages.
    rewrite Hsplit by (rewrite length_app, be_bytes_length; cbn [length]; lia).
    cbn [fst snd Peer.process_all]. split; [|reflexivity].
    unfold mbind, Peer.Act_bind.
    unfold payload.
    rewrite (piece_message_reaches_engine truth index begin block receiver
               Hrole Hi Hb).
    reflexivity.
Qed.

Lemma sent_piece_is_received_witness :
  let s := {| Peer.peer := Peer.set_sock (Some Peer.Open) sample_peer;
              Peer.engine := engine_on one_piece one_piece_files ∅;
              Peer.outbox := [] |} in
  exists msg,
    Peer.send_piece 0 0 (b "abc") s
    = (Ok tt,
       {| Peer.peer := Peer.peer s; Peer.engine := Peer.engine s;
          Peer.outbox := Peer.outbox s ++ [msg] |})
    /\ Peer.process_all (fun _ => true) (fst (Peer.complete_messages msg)) s
       = (Ok tt,
          {| Peer.peer := Peer.peer s;
             Peer.engine :=
               snd (PieceManager.receive_block 0 0 (b "abc") (Peer.engine s));
             Peer.outbox := Peer.outbox s |})
    /\ snd (Peer.complete_messages msg) = [].
Proof.
  cbv zeta. apply sent_piece_is_received.
  - lia.
  - lia.
  - vm_compute. reflexivity.
  - reflexivity.
  - reflexivity.
Defined.

(** [handle_incoming] never touches the piece manager, closes the
    socket whenever it fails, and sends something only to a peer whose
    68-byte handshake names the info-hash of the torrent. *)
Theorem handle_incoming_answers_only_own_torrent
    (recv : result bytes) (s : Peer.session) :
  let r := fst (Peer.handle_incoming recv s) in
  let s' := snd (Peer.handle_incoming recv s) in
  Peer.engine s' = Peer.engine s
  /\ (forall e, r = Raise e ->
        Peer.sock (Peer.peer s') = Some Peer.Closed
        /\ Peer.message_handler (Peer.peer s')
           = Peer.message_handler (Peer.peer s))
  /\ (Peer.outbox s' <> Peer.outbox s ->
      exists data remote_peer_id,
        recv = Ok data /\ length data = 68%nat
        /\ unpack_handshake data
           = Ok (Torrent.info_hash (Peer.torrent (Peer.peer s)), remote_peer_id)).
Proof.
  unfold Peer.handle_incoming. cbv zeta. unfold_Act.
  destruct recv as [data|e]; cbn beta iota.
  2:{ destruct e; cbn; (split; [reflexivity|]);
        (split; [intros e' H; try discriminate H; split; reflexivity
                | intros H; contradiction H; reflexivity]). }
  destruct (Nat.eqb_spec (length data) 68) as [H68|H68]; cbn [negb].
  2:{ cbn. split; [reflexivity|].
      split; [intros e' H; split; reflexivity
             | intros H; contradiction H; reflexivity]. }
  destruct (unpack_handshake data) as [[info_hash remote]|e] eqn:Hu;
    cbn beta iota.
  2:{ destruct e; cbn; (split; [reflexivity|]);
        (split; [intros e' H; try discriminate H; split; reflexivity
                | intros H; contradiction H; reflexivity]). }
  cbn [Peer.peer Peer.engine Peer.outbox Peer.torrent Peer.set_sock].
  destruct (bytes_eqb info_hash (Torrent.info_hash (Peer.torrent (Peer.peer s))))
    eqn:Heq; cbn [negb].
  2:{ cbn. split; [reflexivity|].
      split; [intros e' H; split; reflexivity
             | intros H; contradiction H; reflexivity]. }
  apply bytes_eqb_eq in Heq. subst info_hash.
  assert (Hthird :
            exists data0 remote_peer_id,
              Ok data = Ok data0 /\ length data0 = 68%nat
              /\ unpack_handshake data0
                 = Ok (Torrent.info_hash (Peer.torrent (Peer.peer s)),
                       remote_peer_id)).
  { exists data, remote. split; [reflexivity|].
    split; [exact H68 | exact Hu]. }
  unfold Peer.sock_send, Peer.send_bitfield, Peer.send_message, Peer.sock_send.
  unfold_Act.
  cbn [Peer.peer Peer.engine Peer.outbox Peer.sock Peer.set_sock Peer.torrent
       Peer.peer_id].
  destruct (PieceManager.get_bitfield (PieceManager.pm (Peer.engine s)))
    as [bits|e]; cbn beta iota.
  2:{ destruct e; cbn; (split; [reflexivity|]);
        (split; [intros e' H; try discriminate H; split; reflexivity
                | intros _; exact Hthird ]). }
  cbn [Peer.peer Peer.engine Peer.outbox Peer.sock Peer.set_sock].
  destruct (Peer.frame 5 (tobytes bits)) as [msg|e]; cbn beta iota.
  2:{ destruct e; cbn; (split; [reflexivity|]);
        (split; [intros e' H; try discriminate H; split; reflexivity
                | intros _; exact Hthird ]). }
  cbn. split; [reflexivity|].
  split; [intros e' H; discriminate H|].
  intros _. exact Hthird.
Qed.

Lemma handle_incoming_answers_only_own_torrent_witness :
  Peer.engine
    (snd (Peer.handle_incoming (Ok (b "short"))
            {| Peer.peer := sample_peer;
               Peer.engine := engine_on one_piece one_piece_files ∅;
               Peer.outbox := [] |}))
  = engine_on one_piece one_piece_files ∅.
Proof.
  apply (handle_incoming_answers_only_own_torrent (Ok (b "short"))
           {| Peer.peer := sample_peer;
              Peer.engine := engine_on one_piece one_piece_files ∅;
              Peer.outbox := [] |}).
Defined.




(** A peer whose handshake names the torrent is answered with our
    handshake followed by the bitfield message, and its messages are
    handled from then on. *)
Theorem handle_incoming_answers
    (remote_peer_id : bytes) (bits : list bool) (s : Peer.session) :
  let me := Peer.peer s in
  let info_hash := Torrent.info_hash (Peer.torrent me) in
  length info_hash = 20%nat -> length remote_peer_id = 20%nat ->
  PieceManager.get_bitfield (PieceManager.pm (Peer.engine s)) = Ok bits ->
  len (tobytes bits) + 1 < 4294967296 ->
  Peer.handle_incoming (Ok (pack_handshake info_hash remote_peer_id)) s
  = (Ok tt,
     {| Peer.peer := Peer.start_handler (Peer.set_sock (Some Peer.Open) me);
        Peer.engine := Peer.engine s;
        Peer.outbox :=
          (Peer.outbox s ++ [pack_handshake info_hash (Peer.peer_id me)])
            ++ [Sha1.be_bytes 4 (len (tobytes bits) + 1)
                  ++ byte_of_Z 5 :: tobytes bits] |}).
Proof.
  intros me info_hash Hih Hpid Hbits Hlen. subst me info_hash.
  destruct (unpack_handshake_pack _ _ Hih Hpid) as [H68 Hu].
  unfold Peer.handle_incoming. cbv zeta. unfold_Act.
  rewrite H68, Hu. cbn [Nat.eqb negb].
  cbn [Peer.peer Peer.engine Peer.outbox Peer.torrent Peer.set_sock].
  rewrite bytes_eqb_refl. cbn [negb].
  unfold Peer.sock_send, Peer.send_bitfield, Peer.send_message, Peer.sock_send.
  unfold_Act.
  cbn [Peer.peer Peer.engine Peer.outbox Peer.sock Peer.set_sock Peer.torrent
       Peer.peer_id].
  rewrite Hbits. cbn beta iota.
  rewrite frame_value by (try exact Hlen; lia).
  reflexivity.
Qed.

Lemma handle_incoming_answers_witness :
  fst (Peer.handle_incoming
         (Ok (pack_handshake (Torrent.info_hash (Peer.torrent sample_peer))
                (b "-XX0001-999999999999")))
         {| Peer.peer := sample_peer;
            Peer.engine := engine_on one_piece one_piece_files ∅;
            Peer.outbox := [] |})
  = Ok tt.
Proof.
  assert (Hb : PieceManager.get_bitfield
                 (PieceManager.pm (engine_on one_piece one_piece_files ∅))
               = Ok [false]) by (vm_compute; reflexivity).
  exact (f_equal fst
           (handle_incoming_answers (b "-XX0001-999999999999") [false]
              {| Peer.peer := sample_peer;
                 Peer.engine := engine_on one_piece one_piece_files ∅;
                 Peer.outbox := [] |}
              (sha1_hash_length (b "info")) eq_refl Hb eq_refl)).
Defined.

(** ** Saved progress (progress_manager.py) *)

Lemma splitext_cases (p : bytes) :
  Progress.splitext p = (p, [])
  \/ (fst (Progress.splitext p) <> p /\ snd (Progress.splitext p) <> []).
Proof.
  unfold Progress.splitext.
  pose proof (rfind_lt "/"%byte p) as Hs.
  pose proof (rfind_lt "."%byte p) as Hd.
  destruct (Z.ltb_spec (Progress.rfind "/"%byte p) (Progress.rfind "."%byte p));
    [|left; reflexivity].
  destruct (forallb _ _); [left; reflexivity|].
  right. cbn [fst snd]. split.
  - intros E. apply (f_equal (@length byte)) in E.
    rewrite length_firstn in E. unfold len in Hd. lia.
  - intros E. apply (f_equal (@length byte)) in E.
    rewrite length_skipn in E. cbn [length] in E. unfold len in Hd. lia.
Qed.

(** What [save_progress] writes under a path is what [load_progress]
    reads under the same path exactly when the path has no extension;
    with an extension the two use different files, and the save does
    not change what is loaded. *)
Theorem progress_round_trip_needs_no_extension
    (fs : Progress.store) (file_path : bytes) (data : Progress.progress_data) :
  (snd (Progress.splitext file_path) = [] ->
   Progress.load_progress (Progress.save_progress fs file_path data) file_path
   = Some (Progress.json_dump data))
  /\ (snd (Progress.splitext file_path) <> [] ->
      Progress.load_progress (Progress.save_progress fs file_path data) file_path
      = Progress.load_progress fs file_path).
Proof.
  unfold Progress.load_progress, Progress.save_progress.
  destruct (splitext_cases file_path) as [E|[Hf Hs]].
  - rewrite E. cbn [fst snd]. split.
    + intros _. apply lookup_insert_eq.
    + intros H. contradiction H. reflexivity.
  - split; [intros H; contradiction (Hs H)|].
    intros _. apply lookup_insert_ne.
    intros E. apply app_inv_tail in E. contradiction (Hf E).
Qed.

Lemma progress_round_trip_needs_no_extension_witness :
  Progress.load_progress
    (Progress.save_progress ∅ (b "/dl/progress")
       {| Progress.have_pieces := [0]; Progress.piece_progress := [] |})
    (b "/dl/progress")
  = Some (Progress.json_dump
            {| Progress.have_pieces := [0]; Progress.piece_progress := [] |}).
Proof.
  apply (progress_round_trip_needs_no_extension ∅ (b "/dl/progress")).
  vm_compute. reflexivity.
Defined.

(** ** Peers from the trackers (tracker.py) *)

Lemma compact_entry_inside (self : Tracker.t) (peers : bytes) (i : nat) :
  (i * 6 + 6 <= length peers)%nat ->
  Tracker.compact_entry self peers (i * 6)
  = Ok (List.filter (fun ep => negb (is_local self ep)) [endpoint_at peers i]).
Proof.
  intros Hj. unfold Tracker.compact_entry, is_local, endpoint_at, byte_at.
  replace (6 * i)%nat with (i * 6)%nat by lia.
  revert Hj. generalize (i * 6)%nat as j. intros j Hj.
  destruct (Nat.leb_spec (j + 6) (length peers)) as [_|]; [|lia].
  rewrite (slice_as_nth "000"%byte peers j 4) by lia.
  replace (j + 6)%nat with (j + 4 + 2)%nat by lia.
  rewrite (slice_as_nth "000"%byte peers (j + 4) 2) by lia.
  simpl. rewrite !Nat.add_0_r.
  replace (j + 4 + 1)%nat with (j + 5)%nat by lia.
  destruct (_ && _); reflexivity.
Qed.

Lemma compact_entry_outside (self : Tracker.t) (peers : bytes) (j : nat) :
  (length peers < j + 6)%nat -> Tracker.compact_entry self peers j = Ok [].
Proof.
  intros Hj. unfold Tracker.compact_entry.
  destruct (Nat.leb_spec (j + 6) (length peers)); [lia | reflexivity].
Qed.

(** A compact peer string of any length decodes to the endpoints of its
    complete 6-byte entries, in order, minus the client's own endpoint:
    up to 5 trailing bytes are ignored, and the client's own endpoint is
    never returned. *)
Theorem compact_peers_any_length (self : Tracker.t) (peers : bytes) :
  Tracker.compact_peers self peers
  = Ok (List.filter (fun ep => negb (is_local self ep))
          (map (endpoint_at peers) (seq 0 (length peers / 6))))
  /\ forall eps, Tracker.compact_peers self peers = Ok eps ->
       (length eps <= length peers / 6)%nat
       /\ ~ In (b "127.0.0.1", Tracker.port self) eps.
Proof.
  set (k := (length peers / 6)%nat).
  assert (Hdm : (length peers = 6 * k + length peers mod 6)%nat)
    by (apply Nat.div_mod_eq).
  assert (Hm : (length peers mod 6 < 6)%nat)
    by (apply Nat.mod_upper_bound; lia).
  assert (Hmain : Tracker.compact_peers self peers
                  = Ok (List.filter (fun ep => negb (is_local self ep))
                          (map (endpoint_at peers) (seq 0 k)))).
  { unfold Tracker.compact_peers, range_step.
    set (g := fun i : nat =>
                if (i <? k)%nat
                then List.filter (fun ep => negb (is_local self ep))
                       [endpoint_at peers i]
                else []).
    rewrite (mapM_map _ _ g).
    - cbn [mbind result_bind]. f_equal.
      assert (Hn : ((length peers + 6 - 1) / 6)%nat = k
                   \/ ((length peers + 6 - 1) / 6)%nat = S k).
      { destruct (Nat.eq_dec (length peers mod 6)%nat 0%nat) as [E|E].
        - left. symmetry.
          apply (Nat.div_unique (length peers + 6 - 1) 6 k 5)%nat; lia.
        - right. symmetry.
          apply (Nat.div_unique (length peers + 6 - 1) 6 (S k)
                   (length peers mod 6 - 1))%nat; lia. }
      assert (Hk : concat (map g (seq 0 k))
                   = List.filter (fun ep => negb (is_local self ep))
                       (map (endpoint_at peers) (seq 0 k))).
      { rewrite <- (concat_filter_singletons _ (endpoint_at peers)).
        f_equal. apply map_ext_in. intros i Hi. apply in_seq in Hi.
        unfold g. destruct (Nat.ltb_spec i k); [reflexivity | lia]. }
      destruct Hn as [->| ->]; [exact Hk|].
      rewrite seq_S, map_app, concat_app, Hk. cbn [map concat Nat.add].
      unfold g. rewrite Nat.ltb_irrefl. rewrite !app_nil_r. reflexivity.
    - intros i Hi. apply in_seq in Hi. unfold g.
      destruct (Nat.ltb_spec i k) as [Hlt|Hge].
      + apply compact_entry_inside. lia.
      + apply compact_entry_outside.
        assert (i = k) as ->.
        { assert (((length peers + 6 - 1) / 6)%nat < S (S k))%nat; [|lia].
          apply Nat.Div0.div_lt_upper_bound. lia. }
        lia. }
  split; [exact Hmain|].
  intros eps H. rewrite Hmain in H. injection H as <-. split.
  - etransitivity; [apply filter_length_le|].
    rewrite length_map, length_seq. reflexivity.
  - intros Hin. apply filter_In in Hin. destruct Hin as [_ Hl].
    unfold is_local in Hl. cbn [fst snd] in Hl.
    rewrite bytes_eqb_refl, Z.eqb_refl in Hl. discriminate Hl.
Qed.

Lemma try_group_source (ask : Tracker.oracle) (l : list bytes) :
  forall k : nat,
  (Tracker.try_group ask k l).1 = []
  \/ exists j url, In url l /\ (Tracker.try_group ask k l).1 = ask j url.
Proof.
  induction l as [|tracker rest IH]; intros k; [left; reflexivity|].
  cbn [Tracker.try_group].
  destruct (Tracker.connect ask k tracker) as [new_peers|e] eqn:Hc.
  - destruct new_peers as [|ep eps].
    + destruct (IH (S k)) as [H|(j & url & Hin & H)]; [left; exact H|].
      right. exists j, url. split; [right; exact Hin | exact H].
    + right. exists k, tracker. split; [left; reflexivity|].
      cbn [fst]. unfold Tracker.connect in Hc.
      destruct (bytes_eqb _ _); [injection Hc as <-; reflexivity|].
      destruct (bytes_eqb _ _); [injection Hc as <-; reflexivity | discriminate].
  - destruct (IH k) as [H|(j & url & Hin & H)]; [left; exact H|].
    right. exists j, url. split; [right; exact Hin | exact H].
Qed.

Lemma try_groups_source (ask : Tracker.oracle) (gs : list (list bytes)) :
  forall k : nat,
  (Tracker.try_groups ask k gs).1 = []
  \/ exists j url, In url (concat gs) /\ (Tracker.try_groups ask k gs).1 = ask j url.
Proof.
  induction gs as [|g gs IH]; intros k; [left; reflexivity|].
  cbn [Tracker.try_groups concat].
  destruct (try_group_source ask g k) as [H|(j & url & Hin & H)].
  - destruct (Tracker.try_group ask k g) as [ps k']. cbn [fst] in H. subst ps.
    destruct (IH k') as [H|(j & url & Hin & H)]; [left; exact H|].
    right. exists j, url. split; [apply in_or_app; right; exact Hin | exact H].
  - destruct (Tracker.try_group ask k g) as [ps k']. cbn [fst] in H.
    destruct ps as [|ep eps].
    + destruct (IH k') as [H'|(j' & url' & Hin' & H')]; [left; exact H'|].
      right. exists j', url'.
      split; [apply in_or_app; right; exact Hin' | exact H'].
    + right. exists j, url. split; [apply in_or_app; left; exact Hin | exact H].
Qed.

Lemma try_fallbacks_source (ask : Tracker.oracle) (urls : list bytes) :
  forall k : nat,
  Tracker.try_fallbacks ask k urls = []
  \/ exists j url, In url urls /\ Tracker.try_fallbacks ask k urls = ask j url.
Proof.
  induction urls as [|u urls IH]; intros k; [left; reflexivity|].
  cbn [Tracker.try_fallbacks].
  destruct (ask k u) as [|ep eps] eqn:Ha.
  - destruct (IH (S k)) as [H|(j & url & Hin & H)]; [left; exact H|].
    right. exists j, url. split; [right; exact Hin | exact H].
  - right. exists k, u. split; [left; reflexivity | symmetry; exact Ha].
Qed.

Lemma try_group_silent (ask : Tracker.oracle) (l : list bytes) :
  (forall j url, ask j url = []) ->
  forall k, (Tracker.try_group ask k l).1 = [].
Proof.
  intros Hs. induction l as [|tracker rest IH]; intros k; [reflexivity|].
  cbn [Tracker.try_group]. unfold Tracker.connect.
  destruct (bytes_eqb _ _); [rewrite Hs; apply IH|].
  destruct (bytes_eqb _ _); [rewrite Hs; apply IH | apply IH].
Qed.

Lemma try_groups_silent (ask : Tracker.oracle) (gs : list (list bytes)) :
  (forall j url, ask j url = []) ->
  forall k, (Tracker.try_groups ask k gs).1 = [].
Proof.
  intros Hs. induction gs as [|g gs IH]; intros k; [reflexivity|].
  cbn [Tracker.try_groups].
  pose proof (try_group_silent ask g Hs k) as H.
  destruct (Tracker.try_group ask k g) as [ps k']. cbn [fst] in H. subst ps.
  apply IH.
Qed.

Lemma try_fallbacks_silent (ask : Tracker.oracle) (urls : list bytes) :
  (forall j url, ask j url = []) ->
  forall k, Tracker.try_fallbacks ask k urls = [].
Proof.
  intros Hs. induction urls as [|u urls IH]; intros k; [reflexivity|].
  cbn [Tracker.try_fallbacks]. rewrite Hs. apply IH.
Qed.

(** [get_peers] never returns an empty list.  What it returns is the
    non-empty answer of one tracker of the torrent or of the built-in
    fallback list, or else the four local test peers 127.0.0.1:6881 to
    6884; when no tracker answers it is those four, the first of which
    is the default endpoint of the client itself. *)
Theorem get_peers_is_never_empty (self : Tracker.t) (ask : Tracker.oracle) :
  let peers := Tracker.get_peers self ask in
  peers <> []
  /\ (peers = Tracker.local_test_peers
      \/ exists k url,
           peers = ask k url
           /\ (In url (concat (Torrent.announce_list (Tracker.torrent self)))
               \/ url = Torrent.announce (Tracker.torrent self)
               \/ In url Tracker.fallback_trackers))
  /\ ((forall k url, ask k url = []) -> peers = Tracker.local_test_peers)
  /\ In (b "127.0.0.1", Tracker.port (Tracker.__init__ (Tracker.torrent self)))
       Tracker.local_test_peers.
Proof.
  cbv zeta. unfold Tracker.get_peers.
  set (all := Torrent.announce_list (Tracker.torrent self) ++ _).
  assert (Hall : forall url, In url (concat all) ->
            In url (concat (Torrent.announce_list (Tracker.torrent self)))
            \/ url = Torrent.announce (Tracker.torrent self)).
  { intros url Hin. subst all. rewrite concat_app in Hin.
    apply in_app_or in Hin. destruct Hin as [H|H]; [left; exact H|].
    destruct (Torrent.announce (Tracker.torrent self)) as [|c a];
      [contradiction H|].
    cbn in H. destruct H as [H|H]; [right; symmetry; exact H | contradiction H]. }
  split; [|split; [|split]].
  - destruct (Tracker.try_groups ask 0 all) as [[|ep eps] k]; [|discriminate].
    destruct (Tracker.try_fallbacks ask k Tracker.fallback_trackers);
      discriminate.
  - destruct (try_groups_source ask all 0%nat) as [H|(j & url & Hin & H)].
    + destruct (Tracker.try_groups ask 0 all) as [ps k]. cbn [fst] in H. subst ps.
      destruct (try_fallbacks_source ask Tracker.fallback_trackers k)
        as [H|(j & url & Hin & H)].
      * rewrite H. left. reflexivity.
      * rewrite H. destruct (ask j url) as [|ep eps] eqn:Ha;
          [left; reflexivity|].
        right. exists j, url. split; [symmetry; exact Ha|]. right. right. exact Hin.
    + destruct (Tracker.try_groups ask 0 all) as [ps k]. cbn [fst] in H. subst ps.
      destruct (ask j url) as [|ep eps] eqn:Ha.
      * destruct (try_fallbacks_source ask Tracker.fallback_trackers k)
          as [H|(j' & url' & Hin' & H)].
        -- rewrite H. left. reflexivity.
        -- rewrite H. destruct (ask j' url') as [|ep eps] eqn:Ha';
             [left; reflexivity|].
           right. exists j', url'. split; [symmetry; exact Ha'|].
           right. right. exact Hin'.
      * right. exists j, url. split; [symmetry; exact Ha|].
        destruct (Hall url Hin) as [H|H]; [left; exact H | right; left; exact H].
  - intros Hs.
    pose proof (try_groups_silent ask all Hs 0%nat) as H.
    destruct (Tracker.try_groups ask 0 all) as [ps k]. cbn [fst] in H. subst ps.
    rewrite (try_fallbacks_silent ask _ Hs). reflexivity.
  - left. reflexivity.
Qed.
